(** * carty-h5: the encrypted landing page

    A shallow embedding of the two units that make up the functional core of
    the page,

    - [DecryptionService] (decryption-service.js): AES-GCM envelope handling,
      base64 normalisation, JSON parsing and structural validation of the
      instruction set;
    - [ClickHandler] (click-handler.js): click routing, deeplink fallback and
      auto-click scheduling;

    together with the properties of them that the specification states.

    JavaScript strings are sequences of UTF-16 code units, numbers are IEEE
    754 binary64 values (Rocq's primitive floats), byte arrays are lists of
    [byte].  What the browser provides and the repository does not define
    is taken as a parameter: WebCrypto, [JSON], [TextDecoder] and the [URL]
    parser in a [Platform] record, the analytics collaborator and the
    outcome of the deeplink race in a [Browser] record.  [atob], [btoa] and
    [TextEncoder] are written out.

    The file has three parts: the embedding of the code, a small executable
    reference platform with the vocabulary and the concrete inputs the
    properties are stated with, and the properties with their proofs. *)

From Stdlib Require Import List NArith ZArith PeanoNat Arith Lia Bool Floats.
From Stdlib.Strings Require Import Ascii Byte.
From Stdlib.Strings Require String.
Import String.StringSyntax.
Delimit Scope string_scope with string.
Import ListNotations.

Set Warnings "-register-all".

(** ** Strings *)

Module JsStr.

(** A JavaScript string: its UTF-16 code units. *)
Definition JsString := list N.

(** An ASCII literal of the source as a JavaScript string. *)
Definition lit (s : String.string) : JsString :=
  map N_of_ascii (String.list_ascii_of_string s).

(** [a === b] *)
Fixpoint eqb (a b : JsString) : bool :=
  match a, b with
  | [], [] => true
  | x :: a', y :: b' => N.eqb x y && eqb a' b'
  | _, _ => false
  end.

(** [!s] *)
Definition isEmpty (s : JsString) : bool :=
  match s with [] => true | _ => false end.

(** [s.replace(/c/g, d)] for a one-character pattern [c] and a
    one-character replacement [d]. *)
Definition replaceAll (c d : N) (s : JsString) : JsString :=
  map (fun u => if N.eqb u c then d else u) s.

(** [c.repeat(n)] for a one-character string. *)
Definition repeat1 (c : N) (n : nat) : JsString := repeat c n.

(** [s.padEnd(n, c)] for a one-character filler. *)
Definition padEnd (n : nat) (c : N) (s : JsString) : JsString :=
  s ++ repeat c (n - length s).

(** [s.substring(0, n)]. *)
Definition substring0 (n : nat) (s : JsString) : JsString := firstn n s.

Fixpoint startsWith (p s : JsString) : bool :=
  match p, s with
  | [], _ => true
  | _ :: _, [] => false
  | a :: p', b :: s' => N.eqb a b && startsWith p' s'
  end.

(** [s.includes(p)]. *)
Fixpoint includes (p s : JsString) : bool :=
  startsWith p s ||
  match s with
  | [] => false
  | _ :: s' => includes p s'
  end.

Fixpoint dropLeading (c : N) (s : JsString) : JsString :=
  match s with
  | u :: s' => if N.eqb u c then dropLeading c s' else s
  | [] => []
  end.

(** [s.replace(/c+$/, '')]: the trailing run of [c] removed. *)
Definition stripTrailing (c : N) (s : JsString) : JsString :=
  rev (dropLeading c (rev s)).

(** Every code unit is an ASCII character. *)
Definition isAscii (s : JsString) : bool := forallb (fun u => N.ltb u 128) s.

End JsStr.

Import JsStr.

Arguments lit s%_string.

(** ** Bytes and UTF-8 *)

Module Bytes.

Definition byte_of_N (n : N) : byte :=
  match Byte.of_N (n mod 256) with
  | Some b => b
  | None => x00
  end.

(** The string [String.fromCharCode] makes of bytes: one code unit per
    byte. *)
Definition fromCharCode (bs : list byte) : JsString := map Byte.to_N bs.

(** [bytes[i] = binaryString.charCodeAt(i)] into a [Uint8Array]: the store
    keeps the low eight bits. *)
Definition charCodes (s : JsString) : list byte := map byte_of_N s.

Definition isHighSurrogate (u : N) : bool := (55296 <=? u)%N && (u <=? 56319)%N.
Definition isLowSurrogate (u : N) : bool := (56320 <=? u)%N && (u <=? 57343)%N.

(** UTF-8 of one scalar value. *)
Definition utf8_scalar (c : N) : list byte :=
  if (c <? 128)%N then [byte_of_N c]
  else if (c <? 2048)%N then
    [byte_of_N (192 + c / 64); byte_of_N (128 + c mod 64)]
  else if (c <? 65536)%N then
    [byte_of_N (224 + c / 4096); byte_of_N (128 + (c / 64) mod 64);
     byte_of_N (128 + c mod 64)]
  else
    [byte_of_N (240 + c / 262144); byte_of_N (128 + (c / 4096) mod 64);
     byte_of_N (128 + (c / 64) mod 64); byte_of_N (128 + c mod 64)].

(** [new TextEncoder().encode(s)]: UTF-8 of the string, a surrogate pair
    giving one four-byte sequence and a lone surrogate U+FFFD. *)
Fixpoint TextEncoder_encode (s : JsString) : list byte :=
  match s with
  | [] => []
  | u :: rest =>
      if isHighSurrogate u then
        match rest with
        | l :: rest' =>
            if isLowSurrogate l
            then utf8_scalar (65536 + (u - 55296) * 1024 + (l - 56320))
                   ++ TextEncoder_encode rest'
            else utf8_scalar 65533 ++ TextEncoder_encode rest
        | [] => utf8_scalar 65533
        end
      else if isLowSurrogate u then utf8_scalar 65533 ++ TextEncoder_encode rest
      else utf8_scalar u ++ TextEncoder_encode rest
  end.

End Bytes.

Import Bytes.

(** ** Base64 ([btoa] and [atob])

    The browser's two functions, after RFC 4648 and the WHATWG
    forgiving-base64 decoder.  They are written out (not left abstract) so
    that the normalisation done by the service can be checked against them. *)

Module Base64.

Local Open Scope N_scope.

Definition EQ : N := 61.       (* '=' *)
Definition PLUS : N := 43.     (* '+' *)
Definition SLASH : N := 47.    (* '/' *)
Definition MINUS : N := 45.    (* '-' *)
Definition UNDERSCORE : N := 95. (* '_' *)
Definition SPACE : N := 32.    (* ' ' *)

(** The alphabet: sextet to character. *)
Definition b64_char (i : N) : N :=
  if i <? 26 then 65 + i
  else if i <? 52 then 97 + (i - 26)
  else if i <? 62 then 48 + (i - 52)
  else if i =? 62 then PLUS
  else SLASH.

(** Character to sextet; [None] outside the alphabet. *)
Definition b64_index (c : N) : option N :=
  if (65 <=? c) && (c <=? 90) then Some (c - 65)
  else if (97 <=? c) && (c <=? 122) then Some (c - 97 + 26)
  else if (48 <=? c) && (c <=? 57) then Some (c - 48 + 52)
  else if c =? PLUS then Some 62
  else if c =? SLASH then Some 63
  else None.

(** The sextets of a byte sequence: four per three bytes, three for a
    trailing pair, two for a trailing single byte. *)
Fixpoint sextets (bs : list byte) : list N :=
  match bs with
  | a :: b :: c :: rest =>
      let a := Byte.to_N a in let b := Byte.to_N b in let c := Byte.to_N c in
      [a / 4; (a mod 4) * 16 + b / 16; (b mod 16) * 4 + c / 64; c mod 64]
        ++ sextets rest
  | [a; b] =>
      let a := Byte.to_N a in let b := Byte.to_N b in
      [a / 4; (a mod 4) * 16 + b / 16; (b mod 16) * 4]
  | [a] =>
      let a := Byte.to_N a in
      [a / 4; (a mod 4) * 16]
  | [] => []
  end.

Definition padCount (n : nat) : nat := ((4 - n mod 4) mod 4)%nat.

Definition encode (bs : list byte) : JsString :=
  let body := map b64_char (sextets bs) in
  body ++ repeat EQ (padCount (length body)).

(** [btoa(s)]: fails (InvalidCharacterError) on a code unit above 255. *)
Definition btoa (s : JsString) : option JsString :=
  if forallb (fun u => u <? 256) s then Some (encode (charCodes s)) else None.

(** Bytes of a sextet sequence; the bits left over at the end are
    discarded. *)
Fixpoint unsextets (ix : list N) : list byte :=
  match ix with
  | a :: b :: c :: d :: rest =>
      [byte_of_N (a * 4 + b / 16); byte_of_N ((b mod 16) * 16 + c / 4);
       byte_of_N ((c mod 4) * 64 + d)] ++ unsextets rest
  | [a; b; c] =>
      [byte_of_N (a * 4 + b / 16); byte_of_N ((b mod 16) * 16 + c / 4)]
  | [a; b] => [byte_of_N (a * 4 + b / 16)]
  | _ => []
  end.

Fixpoint indices (s : JsString) : option (list N) :=
  match s with
  | [] => Some []
  | c :: s' =>
      match b64_index c, indices s' with
      | Some i, Some r => Some (i :: r)
      | _, _ => None
      end
  end.

Definition isAsciiWhitespace (u : N) : bool :=
  (u =? 9) || (u =? 10) || (u =? 12) || (u =? 13) || (u =? 32).

(** One or two trailing [=] removed. *)
Definition removePadding (s : JsString) : JsString :=
  match rev s with
  | a :: r =>
      if a =? EQ then
        match r with
        | b :: r' => if b =? EQ then rev r' else rev r
        | [] => rev r
        end
      else s
  | [] => s
  end.

(** [atob(s)]: the decoded binary string, or [None] when the call throws
    (InvalidCharacterError). *)
Definition atob (s : JsString) : option JsString :=
  let d := filter (fun u => negb (isAsciiWhitespace u)) s in
  let d := if (length d mod 4 =? 0)%nat then removePadding d else d in
  if (length d mod 4 =? 1)%nat then None
  else match indices d with
       | Some ix => Some (fromCharCode (unsextets ix))
       | None => None
       end.

End Base64.

Import Base64.

(** ** Values *)

Inductive JsValue : Type :=
| VUndefined
| VNull
| VBool (b : bool)
| VNumber (d : float)
| VString (s : JsString)
| VArray (items : list JsValue)
| VObject (props : list (JsString * JsValue)).

Module Js.

(** [Boolean(v)], the truthiness of a value. *)
Definition ToBoolean (v : JsValue) : bool :=
  match v with
  | VUndefined | VNull => false
  | VBool b => b
  | VNumber d => negb (PrimFloat.eqb d 0 || PrimFloat.is_nan d)
  | VString s => negb (isEmpty s)
  | VArray _ | VObject _ => true
  end.

(** [typeof v === 'string'] *)
Definition isString (v : JsValue) : bool :=
  match v with VString _ => true | _ => false end.

(** [typeof v === 'object'] *)
Definition isObjectType (v : JsValue) : bool :=
  match v with VNull | VArray _ | VObject _ => true | _ => false end.

(** [v === undefined] *)
Definition isUndefined (v : JsValue) : bool :=
  match v with VUndefined => true | _ => false end.

Fixpoint lookup (k : JsString) (props : list (JsString * JsValue)) : JsValue :=
  match props with
  | [] => VUndefined
  | (k', v) :: rest => if JsStr.eqb k' k then v else lookup k rest
  end.

(** [v.k] for a property name [k] that no prototype defines. *)
Definition get (v : JsValue) (k : JsString) : JsValue :=
  match v with
  | VObject props => lookup k props
  | _ => VUndefined
  end.

Fixpoint update (k : JsString) (x : JsValue) (props : list (JsString * JsValue))
  : list (JsString * JsValue) :=
  match props with
  | [] => [(k, x)]
  | (k', v) :: rest =>
      if JsStr.eqb k' k then (k', x) :: rest else (k', v) :: update k x rest
  end.

(** [o.k = x] on an object. *)
Definition set (o : JsValue) (k : JsString) (x : JsValue) : JsValue :=
  match o with
  | VObject props => VObject (update k x props)
  | _ => o
  end.

(** [a || b] *)
Definition or (a b : JsValue) : JsValue := if ToBoolean a then a else b.

End Js.

Import Js.

(** ** Errors, platform calls and the computation monad *)

(** An [Error] object.  [errId] tells the objects apart: every [new Error]
    (and every exception the platform raises) allocates the next one. *)
Record JsError : Type := mkError {
  errId : nat;
  message : JsString;
  originalError : option JsString
}.

Inductive KeyUsage := UsageEncrypt | UsageDecrypt.

(** What the code asks of the browser, in the order it asks. *)
Inductive Call : Type :=
| CallImportKey (algorithm : JsString) (raw : list byte) (usage : KeyUsage)
| CallDecrypt (algorithm : JsString) (iv ciphertext : list byte)
| CallEncrypt (algorithm : JsString) (iv plaintext : list byte)
| CallDeeplinkAttempt (url : JsString)
| CallNavigate (url : JsValue)
| CallTrackClick (actionType : JsString) (targetUrl isDeeplink : JsValue)
| CallLogTracked (actionType : JsString) (has_deeplink has_click_url : bool)
                 (deeplink_priority : JsValue)
| CallReportError (msg context : JsString)
| CallShowError (msg : JsString)
| CallSetTimeout (handle : nat) (delay : JsValue)
| CallClearTimeout (handle : nat).

Record World : Type := mkWorld {
  nextError : nat;            (* identity of the next error object *)
  calls : list Call;          (* platform calls made so far, oldest first *)
  entropy : nat -> byte;      (* what crypto.getRandomValues will draw *)
  entropyPos : nat
}.

Definition M (A : Type) : Type := World -> (JsError + A) * World.

Definition ret {A} (a : A) : M A := fun w => (inr a, w).

Definition bind {A B} (m : M A) (k : A -> M B) : M B :=
  fun w => match m w with
           | (inr a, w') => k a w'
           | (inl e, w') => (inl e, w')
           end.

Notation "x <- m ;; k" := (bind m (fun x => k))
  (at level 61, m at next level, right associativity).

(** [const e = new Error(msg); e.originalError = original; throw e] *)
Definition throwNewWith {A} (msg : JsString) (original : option JsString) : M A :=
  fun w => (inl (mkError (nextError w) msg original),
            mkWorld (S (nextError w)) (calls w) (entropy w) (entropyPos w)).

(** [throw new Error(msg)] *)
Definition throwNew {A} (msg : JsString) : M A := throwNewWith msg None.

(** [throw e] for an error object at hand. *)
Definition throw {A} (e : JsError) : M A := fun w => (inl e, w).

(** [try { m } catch (e) { h e }] *)
Definition tryCatch {A} (m : M A) (h : JsError -> M A) : M A :=
  fun w => match m w with
           | (inl e, w') => h e w'
           | r => r
           end.

Definition call (c : Call) : M unit :=
  fun w => (inr tt, mkWorld (nextError w) (calls w ++ [c]) (entropy w) (entropyPos w)).

(** [crypto.getRandomValues(new Uint8Array(n))] *)
Definition getRandomValues (n : nat) : M (list byte) :=
  fun w => (inr (map (entropy w) (seq (entropyPos w) n)),
            mkWorld (nextError w) (calls w) (entropy w) (entropyPos w + n)).

Definition initialWorld : World := mkWorld 0 [] (fun _ => x00) 0.

(** ** The platform *)

Record Platform : Type := mkPlatform {
  CryptoKey : Type;
  (** [crypto.subtle.importKey('raw', raw, {name}, false, [usage])];
      [inl msg] is a rejection with that message. *)
  subtle_importKey : JsString -> list byte -> KeyUsage -> JsString + CryptoKey;
  (** [crypto.subtle.decrypt({name, iv}, key, data)] *)
  subtle_decrypt : JsString -> CryptoKey -> list byte -> list byte -> JsString + list byte;
  (** [crypto.subtle.encrypt({name, iv}, key, data)] *)
  subtle_encrypt : JsString -> CryptoKey -> list byte -> list byte -> JsString + list byte;
  (** [new TextDecoder().decode(bytes)] *)
  TextDecoder_decode : list byte -> JsString;
  (** [JSON.parse(text)]; [None] is a SyntaxError. *)
  JSON_parse : JsString -> option JsValue;
  (** [JSON.stringify(v)] of an object. *)
  JSON_stringify : JsValue -> JsString;
  (** whether [new URL(v)] returns (it throws otherwise) *)
  URL_parses : JsValue -> bool;
  (** [Number(s)] of a string, [Number(o)] of an array or object *)
  StringToNumber : JsString -> float;
  ObjectToNumber : JsValue -> float;
  (** message of the exception [atob] and [btoa] throw *)
  invalidCharacterMessage : JsString;
  (** the number of arguments that [Function.prototype.apply] can pass:
      given more, it throws a RangeError, of the message below *)
  applyArgumentLimit : nat;
  rangeErrorMessage : JsString
}.

(** [Number(v)] *)
Definition ToNumber (P : Platform) (v : JsValue) : float :=
  match v with
  | VUndefined => PrimFloat.nan
  | VNull => 0%float
  | VBool true => 1%float
  | VBool false => 0%float
  | VNumber d => d
  | VString s => StringToNumber P s
  | VArray _ | VObject _ => ObjectToNumber P v
  end.

(** ** DecryptionService (decryption-service.js) *)

Module DecryptionService.

Record Config : Type := mkConfig {
  encryptionKey : JsString;
  ALGORITHM : JsString;
  KEY_LENGTH : nat;
  IV_LENGTH : nat;
  TAG_LENGTH : nat
}.

(** The constructor without [window.ENV_CONFIG]. *)
Definition defaults : Config :=
  mkConfig (lit "default-encryption-key-32-chars!!") (lit "AES-GCM") 256 12 16.

(** [setEncryptionKey(key)] *)
Definition setEncryptionKey (this : Config) (key : JsString) : M Config :=
  if isEmpty key then throwNew (lit "Invalid encryption key provided")
  else ret (mkConfig key (ALGORITHM this) (KEY_LENGTH this) (IV_LENGTH this)
                     (TAG_LENGTH this)).

(** [validateDecryptionKey()] *)
Definition validateDecryptionKey (this : Config) : bool :=
  negb (isEmpty (encryptionKey this)) && (16 <=? length (encryptionKey this))%nat.

(** The bytes handed to [crypto.subtle.importKey]:
    [new TextEncoder().encode(keyString.padEnd(32, '0').substring(0, 32))]. *)
Definition keyBytes (keyString : JsString) : list byte :=
  TextEncoder_encode (substring0 32 (padEnd 32 48%N keyString)).

(** [fixPayloadFormat(payload)] *)
Definition fixPayloadFormat (payload : JsString) : JsString :=
  if isEmpty payload then payload
  else
    let fixed := replaceAll SPACE PLUS payload in
    let paddingNeeded := (length fixed mod 4)%nat in
    let fixed := if (0 <? paddingNeeded)%nat
                 then fixed ++ repeat1 EQ (4 - paddingNeeded) else fixed in
    replaceAll UNDERSCORE SLASH (replaceAll MINUS PLUS fixed).

Section WithPlatform.

Variable P : Platform.

(** A promise of the platform awaited: its value, or its rejection
    thrown as a new exception object. *)
Definition await {A} (r : JsString + A) : M A :=
  match r with
  | inr a => ret a
  | inl msg => throwNew msg
  end.

(** [importKey(keyString)] *)
Definition importKey (this : Config) (keyString : JsString) : M (CryptoKey P) :=
  tryCatch
    (let keyBytes := keyBytes keyString in
     _ <- call (CallImportKey (ALGORITHM this) keyBytes UsageDecrypt) ;;
     await (subtle_importKey P (ALGORITHM this) keyBytes UsageDecrypt))
    (fun error =>
       throwNew (lit "Failed to import encryption key: " ++ message error)).

(** [isValidUrl(url)] *)
Definition isValidUrl (url : JsValue) : bool := URL_parses P url.

(** [validateInstructionSet(data)] *)
Definition validateInstructionSet (data : JsValue) : M JsValue :=
  if negb (ToBoolean data) || negb (isObjectType data) then
    throwNew (lit "Invalid instruction set - must be an object")
  else if negb (ToBoolean (get data (lit "click_url")))
          || negb (isString (get data (lit "click_url"))) then
    throwNew (lit "Invalid instruction set - click_url is required and must be a string")
  else if ToBoolean (get data (lit "image_url"))
          && negb (isValidUrl (get data (lit "image_url"))) then
    throwNew (lit "Invalid instruction set - image_url must be a valid URL")
  else
    let instructionSet :=
      VObject
        [ (lit "image_url", get data (lit "image_url"));
          (lit "click_url", Js.or (get data (lit "click_url")) VNull);
          (lit "deeplink_url", Js.or (get data (lit "deeplink_url")) VNull);
          (lit "auto_click", VBool (ToBoolean (get data (lit "auto_click"))));
          (lit "deeplink_priority",
            VBool (ToBoolean (get data (lit "deeplink_priority"))));
          (lit "auto_click_delay", VNull);
          (lit "title", get data (lit "title"));
          (lit "description", get data (lit "description")) ] in
    if ToBoolean (get instructionSet (lit "click_url"))
       && negb (isValidUrl (get instructionSet (lit "click_url"))) then
      throwNew (lit "Invalid instruction set - click_url must be a valid URL")
    else if ToBoolean (get instructionSet (lit "deeplink_url"))
            && negb (isString (get instructionSet (lit "deeplink_url"))) then
      throwNew (lit "Invalid instruction set - deeplink_url must be a string")
    else if negb (isUndefined (get data (lit "auto_click_delay"))) then
      let delay := ToNumber P (get data (lit "auto_click_delay")) in
      if PrimFloat.is_nan delay || PrimFloat.ltb delay 0 then
        throwNew (lit "Invalid instruction set - auto_click_delay must be a non-negative number")
      else ret (Js.set instructionSet (lit "auto_click_delay") (VNumber delay))
    else ret instructionSet.

(** [parseInstructionSet(decryptedText)]: the only [SyntaxError] the
    [try] block can raise is the one of [JSON.parse]. *)
Definition parseInstructionSet (decryptedText : JsString) : M JsValue :=
  match JSON_parse P decryptedText with
  | None => throwNew (lit "Invalid JSON format in decrypted payload")
  | Some rawData => validateInstructionSet rawData
  end.

(** [base64ToArrayBuffer(base64)] *)
Definition base64ToArrayBuffer (base64 : JsString) : M (list byte) :=
  tryCatch
    (if isEmpty base64 then throwNew (lit "Empty payload provided")
     else
       let normalizedBase64 := replaceAll SPACE PLUS base64 in
       let normalizedBase64 :=
         replaceAll UNDERSCORE SLASH (replaceAll MINUS PLUS normalizedBase64) in
       let paddingNeeded := (length normalizedBase64 mod 4)%nat in
       let normalizedBase64 :=
         if (0 <? paddingNeeded)%nat
         then normalizedBase64 ++ repeat1 EQ (4 - paddingNeeded)
         else normalizedBase64 in
       match atob normalizedBase64 with
       | Some binaryString => ret (charCodes binaryString)
       | None => throwNew (invalidCharacterMessage P)
       end)
    (fun error =>
       throwNew (lit "Failed to decode base64 payload: " ++ message error)).

(** [handleDecryptionError(error)]: it never returns. *)
Definition handleDecryptionError (error : JsError) : M unit :=
  if includes (lit "decrypt") (message error) || includes (lit "key") (message error)
  then
    throwNewWith (lit "Failed to process encrypted payload") (Some (message error))
  else throw error.

(** The statements of one decryption attempt: lines 87-117 of [decrypt]
    for the payload as received, and the same statements again at lines
    128-157 for the fixed payload. *)
Definition decryptAttempt (this : Config) (payload : JsString) : M JsValue :=
  encryptedData <- base64ToArrayBuffer payload ;;
  if (length encryptedData <? IV_LENGTH this + TAG_LENGTH this + 1)%nat then
    throwNew (lit "Encrypted payload too short - possibly corrupted")
  else
    let iv := firstn (IV_LENGTH this) encryptedData in
    let ciphertext := skipn (IV_LENGTH this) encryptedData in
    cryptoKey <- importKey this (encryptionKey this) ;;
    _ <- call (CallDecrypt (ALGORITHM this) iv ciphertext) ;;
    decryptedBuffer <- await (subtle_decrypt P (ALGORITHM this) cryptoKey iv ciphertext) ;;
    let decryptedText := TextDecoder_decode P decryptedBuffer in
    parseInstructionSet decryptedText.

(** [decrypt(encryptedPayload)] *)
Definition decrypt (this : Config) (encryptedPayload : JsString) : M JsValue :=
  tryCatch
    (if isEmpty encryptedPayload then
       throwNew (lit "Invalid encrypted payload provided")
     else if negb (validateDecryptionKey this) then
       throwNew (lit "Invalid or missing decryption key")
     else
       tryCatch
         (decryptAttempt this encryptedPayload)
         (fun decryptionError =>
            let fixedPayload := fixPayloadFormat encryptedPayload in
            if negb (JsStr.eqb fixedPayload encryptedPayload)
            then decryptAttempt this fixedPayload
            else throw decryptionError))
    (fun error =>
       _ <- handleDecryptionError error ;;
       throw error).

(** [String.fromCharCode.apply(null, bytes)]: every byte is an argument of
    the call, and the engine throws a RangeError when they are more than
    it can pass. *)
Definition String_fromCharCode_apply (bytes : list byte) : M JsString :=
  if (length bytes <=? applyArgumentLimit P)%nat then ret (fromCharCode bytes)
  else throwNew (rangeErrorMessage P).

(** [encrypt(instructionSet)] *)
Definition encrypt (this : Config) (instructionSet : JsValue) : M JsString :=
  tryCatch
    (_ <- validateInstructionSet instructionSet ;;
     let jsonData := JSON_stringify P instructionSet in
     iv <- getRandomValues (IV_LENGTH this) ;;
     let raw := TextEncoder_encode
                  (substring0 32 (padEnd 32 48%N (encryptionKey this))) in
     _ <- call (CallImportKey (ALGORITHM this) raw UsageEncrypt) ;;
     cryptoKey <- await (subtle_importKey P (ALGORITHM this) raw UsageEncrypt) ;;
     _ <- call (CallEncrypt (ALGORITHM this) iv (TextEncoder_encode jsonData)) ;;
     encryptedBuffer <-
       await (subtle_encrypt P (ALGORITHM this) cryptoKey iv
                (TextEncoder_encode jsonData)) ;;
     let combined := iv ++ encryptedBuffer in
     binary <- String_fromCharCode_apply combined ;;
     match btoa binary with
     | Some base64 =>
         ret (stripTrailing EQ
                (replaceAll SLASH UNDERSCORE (replaceAll PLUS MINUS base64)))
     | None => throwNew (invalidCharacterMessage P)
     end)
    (fun error => throwNew (lit "Encryption failed: " ++ message error)).

End WithPlatform.

End DecryptionService.

(** ** ClickHandler (click-handler.js) *)

Module ClickHandler.

(** The fields of a handler.  [autoClickTimer] is [null] ([None]) or the
    handle [setTimeout] returned. *)
Record State : Type := mkState {
  instructionSet : JsValue;
  clickListenersSetup : bool;
  autoClickTimer : option nat;
  isProcessingClick : bool
}.

Definition DEFAULT_AUTO_CLICK_DELAY : float := 3000%float.
Definition DEEPLINK_TIMEOUT : float := 2000%float.

(** [new ClickHandler()] *)
Definition create : State := mkState VNull false None false.

(** How the promise of [attemptDeeplinkOpen] settles.  As written, its
    executor only ever resolves ([true] when the page was hidden or lost
    focus, [false] on the timeout or when setting up the iframe threw); a
    rejection is kept in the model because the callers are written to
    handle one. *)
Inductive DeeplinkOutcome : Type :=
| Resolved (opened : bool)
| Rejected (msg : JsString).

(** The page around the handler. *)
Record Browser : Type := mkBrowser {
  (** [window.firebaseService] is set *)
  firebaseService : bool;
  (** the outcome of the race for a deeplink *)
  deeplinkRace : JsString -> DeeplinkOutcome;
  (** what other callbacks do to the handler while a routing decision is
      suspended at an [await] *)
  whileSuspended : State -> State;
  (** messages of the TypeErrors of reading a property of [null] and of
      [new URL] *)
  nullReadMessage : JsString;
  invalidUrlMessage : JsString;
  (** [document.getElementById('error-message')] finds an element *)
  errorMessageElement : bool
}.

(** Computations over a handler and the world. *)
Definition H (A : Type) : Type := State -> World -> (JsError + A) * State * World.

Definition retH {A} (a : A) : H A := fun s w => (inr a, s, w).

Definition bindH {A B} (m : H A) (k : A -> H B) : H B :=
  fun s w => match m s w with
             | (inr a, s', w') => k a s' w'
             | (inl e, s', w') => (inl e, s', w')
             end.

Notation "x <~ m ;; k" := (bindH m (fun x => k))
  (at level 61, m at next level, right associativity).

Definition liftM {A} (m : M A) : H A :=
  fun s w => match m w with (r, w') => (r, s, w') end.

(** [this] *)
Definition this : H State := fun s w => (inr s, s, w).

Definition assign (f : State -> State) : H unit := fun s w => (inr tt, f s, w).

Definition tryCatchH {A} (m : H A) (h : JsError -> H A) : H A :=
  fun s w => match m s w with
             | (inl e, s', w') => h e s' w'
             | r => r
             end.

(** [try { m } finally { fin }] *)
Definition tryFinallyH {A} (m : H A) (fin : H unit) : H A :=
  fun s w => match m s w with
             | (r, s', w') =>
                 match fin s' w' with
                 | (inr _, s'', w'') => (r, s'', w'')
                 | (inl e, s'', w'') => (inl e, s'', w'')
                 end
             end.

Definition setInstructionSet (v : JsValue) (s : State) : State :=
  mkState v (clickListenersSetup s) (autoClickTimer s) (isProcessingClick s).
Definition setListenersSetup (b : bool) (s : State) : State :=
  mkState (instructionSet s) b (autoClickTimer s) (isProcessingClick s).
Definition setAutoClickTimer (t : option nat) (s : State) : State :=
  mkState (instructionSet s) (clickListenersSetup s) t (isProcessingClick s).
Definition setProcessingClick (b : bool) (s : State) : State :=
  mkState (instructionSet s) (clickListenersSetup s) (autoClickTimer s) b.

(** [a && b] *)
Definition and (a b : JsValue) : JsValue := if ToBoolean a then b else a.

Section WithBrowser.

Variable P : Platform.
Variable B : Browser.

(** [await m]: the value of [m], found once the other callbacks have run. *)
Definition awaitH {A} (m : H A) : H A :=
  fun s w => match m s w with (r, s', w') => (r, whileSuspended B s', w') end.

(** [this.instructionSet.k] *)
Definition readInstruction (k : JsString) : H JsValue :=
  s <~ this ;;
  match instructionSet s with
  | VNull | VUndefined => liftM (throwNew (nullReadMessage B))
  | o => retH (get o k)
  end.

(** [setTimeout(callback, delay)]: the handle is a positive number. *)
Definition setTimeout (delay : JsValue) : H nat :=
  fun s w => (inr (S (length (calls w))), s,
              mkWorld (nextError w) (calls w ++ [CallSetTimeout (S (length (calls w))) delay])
                (entropy w) (entropyPos w)).

(** [setupClickListeners()]; the listeners themselves are not modelled. *)
Definition setupClickListeners : H unit :=
  s <~ this ;;
  if clickListenersSetup s then retH tt
  else assign (setListenersSetup true).

(** [scheduleAutoClick()] *)
Definition scheduleAutoClick : H unit :=
  auto_click <~ readInstruction (lit "auto_click") ;;
  if negb (ToBoolean auto_click) then retH tt
  else
    s <~ this ;;
    _ <~ match autoClickTimer s with
         | Some handle => liftM (call (CallClearTimeout handle))
         | None => retH tt
         end ;;
    auto_click_delay <~ readInstruction (lit "auto_click_delay") ;;
    let delay := Js.or auto_click_delay (VNumber DEFAULT_AUTO_CLICK_DELAY) in
    handle <~ setTimeout delay ;;
    assign (setAutoClickTimer (Some handle)).

(** [initialize(instructionSet)] *)
Definition initialize (instructionSet : JsValue) : H unit :=
  if negb (ToBoolean instructionSet) || negb (isObjectType instructionSet) then
    liftM (throwNew (lit "Invalid instruction set provided to ClickHandler"))
  else
    _ <~ assign (setInstructionSet instructionSet) ;;
    _ <~ setupClickListeners ;;
    auto_click <~ readInstruction (lit "auto_click") ;;
    if ToBoolean auto_click then scheduleAutoClick else retH tt.

(** [String(v)] of a string. *)
Definition text (v : JsValue) : JsString :=
  match v with VString s => s | _ => [] end.

(** [openClickUrl(clickUrl)] *)
Definition openClickUrl (clickUrl : JsValue) : H unit :=
  if negb (ToBoolean clickUrl) || negb (isString clickUrl) then retH tt
  else
    tryCatchH
      (if URL_parses P clickUrl
       then liftM (call (CallNavigate clickUrl))
       else liftM (throwNew (invalidUrlMessage B)))
      (fun error => liftM (throwNew (lit "Invalid click URL: " ++ text clickUrl))).

(** [attemptDeeplinkOpen(deeplinkUrl)] *)
Definition attemptDeeplinkOpen (deeplinkUrl : JsValue) : H bool :=
  if negb (ToBoolean deeplinkUrl) || negb (isString deeplinkUrl) then retH false
  else
    _ <~ liftM (call (CallDeeplinkAttempt (text deeplinkUrl))) ;;
    match deeplinkRace B (text deeplinkUrl) with
    | Resolved opened => retH opened
    | Rejected msg => liftM (throwNew msg)
    end.

(** [attemptDeeplinkWithFallback()] *)
Definition attemptDeeplinkWithFallback : H unit :=
  tryCatchH
    (deeplink_url <~ readInstruction (lit "deeplink_url") ;;
     deeplinkSuccess <~ awaitH (attemptDeeplinkOpen deeplink_url) ;;
     if negb deeplinkSuccess then
       click_url <~ readInstruction (lit "click_url") ;;
       if ToBoolean click_url then
         click_url <~ readInstruction (lit "click_url") ;;
         openClickUrl click_url
       else retH tt
     else retH tt)
    (fun error =>
       click_url <~ readInstruction (lit "click_url") ;;
       if ToBoolean click_url then
         click_url <~ readInstruction (lit "click_url") ;;
         openClickUrl click_url
       else retH tt).

(** [trackClickAction(actionType)] *)
Definition trackClickAction (actionType : JsString) : H unit :=
  tryCatchH
    (_ <~ (if firebaseService B then
             deeplink_priority <~ readInstruction (lit "deeplink_priority") ;;
             deeplink_url <~ readInstruction (lit "deeplink_url") ;;
             click_url <~ readInstruction (lit "click_url") ;;
             let targetUrl := if ToBoolean (and deeplink_priority deeplink_url)
                              then deeplink_url else click_url in
             let isDeeplink := and deeplink_priority deeplink_url in
             liftM (call (CallTrackClick actionType targetUrl isDeeplink))
           else retH tt) ;;
     deeplink_url <~ readInstruction (lit "deeplink_url") ;;
     click_url <~ readInstruction (lit "click_url") ;;
     deeplink_priority <~ readInstruction (lit "deeplink_priority") ;;
     liftM (call (CallLogTracked actionType (ToBoolean deeplink_url)
                    (ToBoolean click_url) deeplink_priority)))
    (fun error => retH tt).

(** [showErrorMessage(message)]: the text of the element [#error-message]
    is set when the page has that element; without it the message only
    goes to the console. *)
Definition showErrorMessage (msg : JsString) : H unit :=
  if errorMessageElement B then liftM (call (CallShowError msg))
  else retH tt.

(** [handleClickError(error, actionType)] *)
Definition handleClickError (error : JsError) (actionType : JsString) : H unit :=
  _ <~ (if firebaseService B
        then liftM (call (CallReportError (message error)
                            (lit "click_handler_" ++ actionType)))
        else retH tt) ;;
  showErrorMessage (lit "Navigation failed. Please try again.").

(** The routing decision of [processClickAction] (its [if] / [else if]
    chain). *)
Definition route : H unit :=
  deeplink_priority <~ readInstruction (lit "deeplink_priority") ;;
  deeplink_url <~ readInstruction (lit "deeplink_url") ;;
  click_url <~ readInstruction (lit "click_url") ;;
  if ToBoolean deeplink_priority && ToBoolean deeplink_url then
    attemptDeeplinkWithFallback
  else if ToBoolean click_url then openClickUrl click_url
  else if ToBoolean deeplink_url then
    success <~ awaitH (attemptDeeplinkOpen deeplink_url) ;;
    retH tt
  else retH tt.

(** [processClickAction(actionType)] *)
Definition processClickAction (actionType : JsString) : H unit :=
  s <~ this ;;
  if negb (ToBoolean (instructionSet s)) then retH tt
  else
    _ <~ assign (setProcessingClick true) ;;
    tryFinallyH
      (tryCatchH
         (click_url <~ readInstruction (lit "click_url") ;;
          deeplink_url <~ readInstruction (lit "deeplink_url") ;;
          if negb (ToBoolean click_url) && negb (ToBoolean deeplink_url) then retH tt
          else
            _ <~ route ;;
            trackClickAction actionType)
         (fun error => handleClickError error actionType))
      (assign (setProcessingClick false)).

(** [handleClick(event)] *)
Definition handleClick : H unit :=
  s <~ this ;;
  if isProcessingClick s then retH tt
  else awaitH (processClickAction (lit "manual_click")).

(** The callback of the auto-click timer. *)
Definition autoClickFired : H unit := processClickAction (lit "auto_click").

(** [cancelAutoClick()] *)
Definition cancelAutoClick : H unit :=
  s <~ this ;;
  match autoClickTimer s with
  | Some handle =>
      _ <~ liftM (call (CallClearTimeout handle)) ;;
      assign (setAutoClickTimer None)
  | None => retH tt
  end.

(** [destroy()]; as in [setupClickListeners], the listeners themselves
    are not modelled. *)
Definition destroy : H unit :=
  _ <~ cancelAutoClick ;;
  s <~ this ;;
  _ <~ (if clickListenersSetup s then assign (setListenersSetup false) else retH tt) ;;
  _ <~ assign (setInstructionSet VNull) ;;
  assign (setProcessingClick false).

End WithBrowser.

End ClickHandler.

(** ** ClickHandler: the mouse, touch and pointer listeners *)

Module ClickGestures.

Import ClickHandler.

(** [this.interactionState], the object [setupClickListeners] creates;
    [lastInteractionType] is [null] or one of ['mouse'], ['touch'] and
    ['pointer']. *)
Record InteractionState : Type := mkInteractionState {
  isMouseDown : bool;
  isTouchActive : bool;
  isPointerActive : bool;
  lastInteractionType : option JsString;
  touchStartTime : float;
  touchStartPosition : float * float
}.

Definition initialInteractionState : InteractionState :=
  mkInteractionState false false false None 0%float (0%float, 0%float).

(** A handler with its interaction state, which is [None] while the
    property is [undefined] (before [setupClickListeners]) or [null] (after
    [destroy]). *)
Record Handler : Type := mkHandler {
  core : State;
  interactionState : option InteractionState
}.

(** The events, as far as the listeners read them; [preventDefault], which
    acts on the browser and not on the handler, is left out. *)

(** A point of contact of a touch event: [clientX] and [clientY]. *)
Definition Touch : Type := (float * float)%type.

Record TouchEvent : Type := mkTouchEvent {
  touches : list Touch;
  changedTouches : list Touch
}.

Record PointerEvent : Type := mkPointerEvent {
  pointerType : JsString
}.

(** Computations of a listener, over the handler and the world. *)
Definition G (A : Type) : Type := Handler -> World -> (JsError + A) * Handler * World.

Definition MAX_TOUCH_DURATION : float := 2000%float.
Definition MAX_TOUCH_MOVEMENT : float := 30%float.

Section WithBrowser.

Variable P : Platform.
Variable B : Browser.

(** [Math.sqrt] and [Math.pow] of the engine. *)
Variable Math_sqrt : float -> float.
Variable Math_pow : float -> float -> float.

(** A listener that begins by reading a property of
    [this.interactionState]: a TypeError when there is none. *)
Definition withInteractionState {A} (k : InteractionState -> G A) : G A :=
  fun h w =>
    match interactionState h with
    | Some i => k i h w
    | None =>
        (inl (mkError (nextError w) (nullReadMessage B) None), h,
         mkWorld (S (nextError w)) (calls w) (entropy w) (entropyPos w))
    end.

(** The assignments of a listener to properties of
    [this.interactionState]. *)
Definition setInteractionState (i : InteractionState) : G unit :=
  fun h w => (inr tt, mkHandler (core h) (Some i), w).

(** [await this.processClickAction(actionType)], the last statement of a
    listener. *)
Definition awaitProcessClickAction (actionType : JsString) : G unit :=
  fun h w =>
    match awaitH B (processClickAction P B actionType) (core h) w with
    | (r, s', w') => (r, mkHandler s' (interactionState h), w')
    end.

(** [handleMouseDown(event)] *)
Definition handleMouseDown : G unit :=
  withInteractionState (fun i =>
    setInteractionState
      (mkInteractionState true (isTouchActive i) (isPointerActive i)
         (Some (lit "mouse")) (touchStartTime i) (touchStartPosition i))).

(** [handleMouseUp(event)] *)
Definition handleMouseUp : G unit :=
  withInteractionState (fun i =>
    setInteractionState
      (mkInteractionState false (isTouchActive i) (isPointerActive i)
         (lastInteractionType i) (touchStartTime i) (touchStartPosition i))).

(** [handleTouchStart(event)]; [now] is what [Date.now()] returns. *)
Definition handleTouchStart (event : TouchEvent) (now : float) : G unit :=
  withInteractionState (fun i =>
    let position :=
      match touches event with
      | touch :: _ => touch
      | [] => touchStartPosition i
      end in
    setInteractionState
      (mkInteractionState (isMouseDown i) true (isPointerActive i)
         (Some (lit "touch")) now position)).

(** The distance between the start of the touch and its end. *)
Definition touchMovement (event : TouchEvent) (i : InteractionState) : float :=
  match changedTouches event with
  | (endX, endY) :: _ =>
      Math_sqrt
        (Math_pow (endX - fst (touchStartPosition i)) 2
         + Math_pow (endY - snd (touchStartPosition i)) 2)%float
  | [] => 0%float
  end.

(** [handleTouchEnd(event)]; [now] is what [Date.now()] returns. *)
Definition handleTouchEnd (event : TouchEvent) (now : float) : G unit :=
  withInteractionState (fun i h w =>
    if negb (isTouchActive i) then (inr tt, h, w)
    else if isProcessingClick (core h) then (inr tt, h, w)
    else
      let touchDuration := (now - touchStartTime i)%float in
      let touchMovement := touchMovement event i in
      let h' :=
        mkHandler (core h)
          (Some (mkInteractionState (isMouseDown i) false (isPointerActive i)
                   (lastInteractionType i) (touchStartTime i)
                   (touchStartPosition i))) in
      if PrimFloat.ltb MAX_TOUCH_DURATION touchDuration then (inr tt, h', w)
      else if PrimFloat.ltb MAX_TOUCH_MOVEMENT touchMovement then (inr tt, h', w)
      else awaitProcessClickAction (lit "manual_touch") h' w).

(** [handleTouchCancel(event)] *)
Definition handleTouchCancel : G unit :=
  withInteractionState (fun i =>
    setInteractionState
      (mkInteractionState (isMouseDown i) false (isPointerActive i)
         (lastInteractionType i) (touchStartTime i) (touchStartPosition i))).

(** [handlePointerDown(event)] *)
Definition handlePointerDown : G unit :=
  withInteractionState (fun i =>
    setInteractionState
      (mkInteractionState (isMouseDown i) (isTouchActive i) true
         (Some (lit "pointer")) (touchStartTime i) (touchStartPosition i))).

(** [handlePointerUp(event)] *)
Definition handlePointerUp (event : PointerEvent) : G unit :=
  withInteractionState (fun i h w =>
    if negb (isPointerActive i) then (inr tt, h, w)
    else if isProcessingClick (core h) then (inr tt, h, w)
    else
      let h' :=
        mkHandler (core h)
          (Some (mkInteractionState (isMouseDown i) (isTouchActive i) false
                   (lastInteractionType i) (touchStartTime i)
                   (touchStartPosition i))) in
      match lastInteractionType i with
      | Some type =>
          if JsStr.eqb type (lit "pointer")
          then awaitProcessClickAction (lit "manual_" ++ pointerType event) h' w
          else (inr tt, h', w)
      | None => (inr tt, h', w)
      end).

(** [handlePointerCancel(event)] *)
Definition handlePointerCancel : G unit :=
  withInteractionState (fun i =>
    setInteractionState
      (mkInteractionState (isMouseDown i) (isTouchActive i) false
         (lastInteractionType i) (touchStartTime i) (touchStartPosition i))).

(** [handleClick(event)] of the handler, on a handler with its
    interaction state. *)
Definition handleClick : G unit :=
  fun h w =>
    match ClickHandler.handleClick P B (core h) w with
    | (r, s', w') => (r, mkHandler s' (interactionState h), w')
    end.

(** A method that leaves the interaction state alone. *)
Definition liftCore {A} (m : H A) : G A :=
  fun h w =>
    match m (core h) w with
    | (r, s', w') => (r, mkHandler s' (interactionState h), w')
    end.

Definition bindG {A C} (m : G A) (f : A -> G C) : G C :=
  fun h w =>
    match m h w with
    | (inr a, h', w') => f a h' w'
    | (inl e, h', w') => (inl e, h', w')
    end.

(** [setupClickListeners()], with the interaction state it creates. *)
Definition setupClickListeners : G unit :=
  fun h w =>
    if clickListenersSetup (core h) then (inr tt, h, w)
    else
      (inr tt,
       mkHandler (setListenersSetup true (core h)) (Some initialInteractionState), w).

(** [initialize(instructionSet)] *)
Definition initialize (instructionSet : JsValue) : G unit :=
  if negb (ToBoolean instructionSet) || negb (isObjectType instructionSet) then
    liftCore (liftM (throwNew (lit "Invalid instruction set provided to ClickHandler")))
  else
    bindG (liftCore (assign (setInstructionSet instructionSet))) (fun _ =>
    bindG setupClickListeners (fun _ =>
    liftCore
      (auto_click <~ readInstruction B (lit "auto_click") ;;
       if ToBoolean auto_click then scheduleAutoClick B else retH tt))).

(** [destroy()], with the interaction state it drops. *)
Definition destroy : G unit :=
  bindG (liftCore ClickHandler.destroy) (fun _ h w =>
    (inr tt, mkHandler (core h) None, w)).

End WithBrowser.

End ClickGestures.

(** ** ParameterParser (parameter-parser.js) *)

Module ParameterParser.

Local Open Scope N_scope.

Definition PAYLOAD_PARAM_NAME : JsString := lit "payload".
Definition MIN_PAYLOAD_LENGTH : nat := 16.

(** [new URLSearchParams(window.location.search)]: the name/value pairs of
    the query, form-decoded by the browser, in their order. *)
Definition URLSearchParams : Type := list (JsString * JsString).

(** [params.get(name)]: the first value of that name, or [null]. *)
Fixpoint URLSearchParams_get (params : URLSearchParams) (name : JsString)
  : option JsString :=
  match params with
  | [] => None
  | (k, v) :: rest => if JsStr.eqb k name then Some v else URLSearchParams_get rest name
  end.

Definition hexOctetDigit (c : N) : option N :=
  if (48 <=? c) && (c <=? 57) then Some (c - 48)
  else if (65 <=? c) && (c <=? 70) then Some (c - 55)
  else if (97 <=? c) && (c <=? 102) then Some (c - 87)
  else None.

(** One escape [%XX] at the head of a string: its octet and the rest. *)
Definition escapedOctet (s : JsString) : option (N * JsString) :=
  match s with
  | 37 :: h :: l :: rest =>
      match hexOctetDigit h, hexOctetDigit l with
      | Some a, Some b => Some (16 * a + b, rest)
      | _, _ => None
      end
  | _ => None
  end.

(** The low six bits of a continuation octet [10xxxxxx] escaped at the
    head of a string. *)
Definition continuationOctet (s : JsString) : option (N * JsString) :=
  match escapedOctet s with
  | Some (b, rest) => if (128 <=? b) && (b <? 192) then Some (b - 128, rest) else None
  | None => None
  end.

(** The UTF-16 code units of a code point. *)
Definition utf16 (cp : N) : JsString :=
  if cp <? 65536 then [cp]
  else [55296 + (cp - 65536) / 1024; 56320 + (cp - 65536) mod 1024].

(** The string decoded from the escape sequence that starts with the
    octet [b]: one character for an ASCII octet, the code point of a
    well-formed UTF-8 sequence otherwise (not overlong, no surrogate, at
    most U+10FFFF); [None] is a URIError. *)
Definition decodeEscape (b : N) (rest : JsString) : option (JsString * JsString) :=
  if b <? 128 then Some ([b], rest)
  else if b <? 192 then None
  else if b <? 224 then
    match continuationOctet rest with
    | Some (c1, rest1) =>
        let cp := (b - 192) * 64 + c1 in
        if 128 <=? cp then Some (utf16 cp, rest1) else None
    | None => None
    end
  else if b <? 240 then
    match continuationOctet rest with
    | Some (c1, rest1) =>
        match continuationOctet rest1 with
        | Some (c2, rest2) =>
            let cp := (b - 224) * 4096 + c1 * 64 + c2 in
            if (2048 <=? cp) && negb ((55296 <=? cp) && (cp <=? 57343))
            then Some (utf16 cp, rest2) else None
        | None => None
        end
    | None => None
    end
  else if b <? 248 then
    match continuationOctet rest with
    | Some (c1, rest1) =>
        match continuationOctet rest1 with
        | Some (c2, rest2) =>
            match continuationOctet rest2 with
            | Some (c3, rest3) =>
                let cp := (b - 240) * 262144 + c1 * 4096 + c2 * 64 + c3 in
                if (65536 <=? cp) && (cp <=? 1114111)
                then Some (utf16 cp, rest3) else None
            | None => None
            end
        | None => None
        end
    | None => None
    end
  else None.

(** [decodeURIComponent(s)]; the fuel is the length of the string, and
    every step consumes at least one code unit. *)
Fixpoint decodeFrom (fuel : nat) (s : JsString) : option JsString :=
  match s with
  | [] => Some []
  | c :: rest =>
      match fuel with
      | O => None
      | S fuel' =>
          if c =? 37 then
            match escapedOctet s with
            | Some (b, after) =>
                match decodeEscape b after with
                | Some (decoded, after') =>
                    match decodeFrom fuel' after' with
                    | Some r => Some (decoded ++ r)
                    | None => None
                    end
                | None => None
                end
            | None => None
            end
          else
            match decodeFrom fuel' rest with
            | Some r => Some (c :: r)
            | None => None
            end
      end
  end.

Definition decodeURIComponent (s : JsString) : option JsString :=
  decodeFrom (length s) s.

(** The message of the URIError of [decodeURIComponent]. *)
Definition uriErrorMessage : JsString := lit "URI malformed".

(** [parseUrlParams()]: the parameters of [window.location.search]. *)
Definition parseUrlParams (search : URLSearchParams) : M URLSearchParams :=
  tryCatch (ret search)
    (fun error => throwNew (lit "Failed to parse URL parameters")).

(** [extractEncryptedPayload(params)]; [params] is [None] for an argument
    that is no [URLSearchParams], and the result [None] is [null]. *)
Definition extractEncryptedPayload (params : option URLSearchParams)
  : M (option JsString) :=
  tryCatch
    (match params with
     | None => throwNew (lit "Invalid parameters object provided")
     | Some params =>
         match URLSearchParams_get params PAYLOAD_PARAM_NAME with
         | None => ret None
         | Some payload =>
             if isEmpty payload then ret None
             else
               match decodeURIComponent payload with
               | Some decodedPayload => ret (Some decodedPayload)
               | None => throwNew uriErrorMessage
               end
         end
     end)
    (fun error =>
       throwNew (lit "Failed to extract encrypted payload from URL parameters")).

(** A character of the class [[A-Za-z0-9+/=_-]]. *)
Definition base64PatternChar (c : N) : bool :=
  ((65 <=? c) && (c <=? 90)) || ((97 <=? c) && (c <=? 122))
  || ((48 <=? c) && (c <=? 57))
  || (c =? PLUS) || (c =? SLASH) || (c =? EQ) || (c =? UNDERSCORE) || (c =? MINUS).

(** [/^[A-Za-z0-9+/=_-]+$/.test(s)] *)
Definition base64Pattern_test (s : JsString) : bool :=
  negb (isEmpty s) && forallb base64PatternChar s.

(** [payload.replace(/[=_-]/g, '')] *)
Definition cleanPayload (payload : JsString) : JsString :=
  filter (fun c => negb ((c =? EQ) || (c =? UNDERSCORE) || (c =? MINUS))) payload.

(** [validatePayloadFormat(payload)] *)
Definition validatePayloadFormat (payload : JsValue) : bool :=
  match payload with
  | VString s =>
      if isEmpty s then false
      else if (length s <? MIN_PAYLOAD_LENGTH)%nat then false
      else if negb (base64Pattern_test s) then false
      else if (length (cleanPayload s) =? 0)%nat then false
      else true
  | _ => false
  end.

(** The result object of [parseAndValidatePayload]; [None] is [null]. *)
Record ParseResult : Type := mkParseResult {
  success : bool;
  payload : option JsString;
  error : option JsString
}.

(** [parseAndValidatePayload()], on the parameters of the location. *)
Definition parseAndValidatePayload (search : URLSearchParams) : M ParseResult :=
  tryCatch
    (params <- parseUrlParams search ;;
     payload <- extractEncryptedPayload (Some params) ;;
     match payload with
     | None =>
         ret (mkParseResult false None
                (Some (lit "No encrypted payload found in URL parameters")))
     | Some payload =>
         if isEmpty payload then
           ret (mkParseResult false None
                  (Some (lit "No encrypted payload found in URL parameters")))
         else
           let isValid := validatePayloadFormat (VString payload) in
           if negb isValid then
             ret (mkParseResult false (Some payload)
                    (Some (lit "Invalid payload format detected")))
           else ret (mkParseResult true (Some payload) None)
     end)
    (fun error => ret (mkParseResult false None (Some (message error)))).

End ParameterParser.

(** ** The decryption enhancer (decryption-enhancer.js) *)

Module DecryptionEnhancer.

(** [fixBase64Format(payload)] *)
Definition fixBase64Format (payload : JsString) : JsString :=
  if isEmpty payload then payload
  else
    let fixed := replaceAll SPACE PLUS payload in
    let paddingNeeded := (length fixed mod 4)%nat in
    let fixed := if (0 <? paddingNeeded)%nat
                 then fixed ++ repeat1 EQ (4 - paddingNeeded) else fixed in
    replaceAll UNDERSCORE SLASH (replaceAll MINUS PLUS fixed).

(** The element [#decryption-error] of the page: its text and whether its
    [display] style is still the default (it is [none] once hidden). *)
Record ErrorElement : Type := mkErrorElement {
  textContent : JsString;
  displayed : bool
}.

(** The page: the element, when it exists. *)
Definition Page : Type := option ErrorElement.

Definition decryptionErrorText : JsString :=
  lit "Unable to process the encrypted instructions. Please check the payload format.".

(** [showDecryptionErrorMessage()]: the element is created when missing,
    its text is set, and a timer is armed to hide it after 5 seconds. *)
Definition showDecryptionErrorMessage (page : Page) (w : World) : Page * World :=
  let errorElement :=
    match page with
    | Some errorElement => errorElement
    | None => mkErrorElement [] true
    end in
  (Some (mkErrorElement decryptionErrorText (displayed errorElement)),
   mkWorld (nextError w)
     (calls w ++ [CallSetTimeout (S (length (calls w))) (VNumber 5000%float)])
     (entropy w) (entropyPos w)).

(** The callback of that timer. *)
Definition hideDecryptionErrorMessage (page : Page) : Page :=
  match page with
  | Some errorElement => Some (mkErrorElement (textContent errorElement) false)
  | None => None
  end.

Section WithPlatform.

Variable P : Platform.

(** The [decrypt] that [enhanceDecryptionService] installs over
    [originalDecrypt], the method of [DecryptionService]. *)
Definition decrypt (this : DecryptionService.Config) (encryptedPayload : JsString)
    (page : Page) (w : World) : (JsError + JsValue) * Page * World :=
  match DecryptionService.decrypt P this encryptedPayload w with
  | (inr instructionSet, w1) => (inr instructionSet, page, w1)
  | (inl error, w1) =>
      let giveUp (w2 : World) :=
        let '(page', w3) := showDecryptionErrorMessage page w2 in
        (inl error, page', w3) in
      if includes (lit "Failed to process encrypted payload") (message error) then
        if negb (isEmpty encryptedPayload) then
          let fixedPayload := fixBase64Format encryptedPayload in
          if negb (JsStr.eqb fixedPayload encryptedPayload) then
            match DecryptionService.decrypt P this fixedPayload w1 with
            | (inr instructionSet, w2) => (inr instructionSet, page, w2)
            | (inl recoveryError, w2) => giveUp w2
            end
          else giveUp w1
        else giveUp w1
      else giveUp w1
  end.

End WithPlatform.

End DecryptionEnhancer.

(** ** ErrorHandler (error-handler.js): its copy of the payload repair *)

Module ErrorHandler.

(** [fixPayloadFormat(payload)] *)
Definition fixPayloadFormat (payload : JsString) : JsString :=
  if isEmpty payload then payload
  else
    let fixed := replaceAll SPACE PLUS payload in
    let paddingNeeded := (length fixed mod 4)%nat in
    let fixed := if (0 <? paddingNeeded)%nat
                 then fixed ++ repeat1 EQ (4 - paddingNeeded) else fixed in
    replaceAll UNDERSCORE SLASH (replaceAll MINUS PLUS fixed).

End ErrorHandler.

(** ** A reference platform

    A small, executable stand-in for the browser, used to run the code
    above on concrete inputs.  Its JSON codec covers objects, arrays,
    strings, booleans, [null] and integers below 2^53; its [TextDecoder]
    covers ASCII; its URL test asks for a scheme; its AEAD is a toy
    stream cipher with a 16-byte tag (it is not AES-GCM: only its interface,
    tag length and failure behaviour follow WebCrypto); its [apply] passes
    65536 arguments, the limit of JavaScriptCore.  None of the general
    theorems depends on it. *)

Module Reference.

Local Open Scope N_scope.

(** *** JSON.stringify *)

Fixpoint digits (fuel : nat) (n : N) (acc : JsString) : JsString :=
  match fuel with
  | O => acc
  | S f =>
      let acc' := (48 + n mod 10) :: acc in
      if n <? 10 then acc' else digits f (n / 10) acc'
  end.

Definition decimal (n : N) : JsString := digits (S (N.to_nat (N.log2 n))) n [].

(** The integer a float denotes, when it is one below 2^53. *)
Definition integerOf (d : float) : option Z :=
  match Prim2SF d with
  | S754_zero _ => Some 0%Z
  | S754_finite s m e =>
      let v := if (0 <=? e)%Z then Some (Z.pos m * 2 ^ e)%Z
               else if (Z.pos m mod 2 ^ (- e) =? 0)%Z
                    then Some (Z.pos m / 2 ^ (- e))%Z else None in
      match v with
      | Some z => if (z <? 2 ^ 53)%Z then Some (if s then (- z)%Z else z) else None
      | None => None
      end
  | _ => None
  end.

Definition numberText (d : float) : JsString :=
  match integerOf d with
  | Some z => (if (z <? 0)%Z then lit "-" else []) ++ decimal (Z.abs_N z)
  | None => lit "null"
  end.

Definition hexDigit (n : N) : N := if n <? 10 then 48 + n else 87 + n.

Definition escapeChar (u : N) : JsString :=
  if u =? 34 then [92; 34]
  else if u =? 92 then [92; 92]
  else if u =? 10 then lit "\n"
  else if u =? 13 then lit "\r"
  else if u =? 9 then lit "\t"
  else if u <? 32 then lit "\u00" ++ [hexDigit (u / 16); hexDigit (u mod 16)]
  else [u].

Definition quote (s : JsString) : JsString :=
  [34] ++ flat_map escapeChar s ++ [34].

Fixpoint joinWith (sep : JsString) (parts : list JsString) : JsString :=
  match parts with
  | [] => []
  | [p] => p
  | p :: rest => p ++ sep ++ joinWith sep rest
  end.

Fixpoint stringify (v : JsValue) : JsString :=
  match v with
  | VUndefined | VNull => lit "null"
  | VBool true => lit "true"
  | VBool false => lit "false"
  | VNumber d => numberText d
  | VString s => quote s
  | VArray items =>
      lit "[" ++ joinWith (lit ",") (map stringify items) ++ lit "]"
  | VObject props =>
      lit "{" ++
      joinWith (lit ",")
        ((fix members (ps : list (JsString * JsValue)) : list JsString :=
            match ps with
            | [] => []
            | (k, VUndefined) :: rest => members rest
            | (k, x) :: rest => (quote k ++ lit ":" ++ stringify x) :: members rest
            end) props)
      ++ lit "}"
  end.

(** *** JSON.parse *)

Fixpoint skipWs (s : JsString) : JsString :=
  match s with
  | u :: rest => if (u =? 32) || (u =? 9) || (u =? 10) || (u =? 13)
                 then skipWs rest else s
  | [] => []
  end.

Definition expect (word : JsString) (v : JsValue) (s : JsString)
  : option (JsValue * JsString) :=
  if startsWith word s then Some (v, skipn (length word) s) else None.

Definition hexValue (u : N) : option N :=
  if (48 <=? u) && (u <=? 57) then Some (u - 48)
  else if (97 <=? u) && (u <=? 102) then Some (u - 87)
  else if (65 <=? u) && (u <=? 70) then Some (u - 55)
  else None.

(** The characters of a string literal after its opening quote. *)
Fixpoint parseChars (s : JsString) (acc : JsString) : option (JsString * JsString) :=
  match s with
  | [] => None
  | 34 :: rest => Some (rev acc, rest)
  | 92 :: 117 :: a :: b :: c :: d :: rest =>
      match hexValue a, hexValue b, hexValue c, hexValue d with
      | Some a, Some b, Some c, Some d =>
          parseChars rest ((a * 4096 + b * 256 + c * 16 + d) :: acc)
      | _, _, _, _ => None
      end
  | 92 :: e :: rest =>
      let unescaped :=
        if e =? 34 then Some 34 else if e =? 92 then Some 92
        else if e =? 47 then Some 47 else if e =? 98 then Some 8
        else if e =? 102 then Some 12 else if e =? 110 then Some 10
        else if e =? 114 then Some 13 else if e =? 116 then Some 9
        else None in
      match unescaped with
      | Some u => parseChars rest (u :: acc)
      | None => None
      end
  | u :: rest => if u <? 32 then None else parseChars rest (u :: acc)
  end.

Fixpoint parseDigits (s : JsString) (acc : N) (seen : bool)
  : option (N * JsString) :=
  match s with
  | u :: rest =>
      if (48 <=? u) && (u <=? 57) then parseDigits rest (acc * 10 + (u - 48)) true
      else if seen then Some (acc, s) else None
  | [] => if seen then Some (acc, []) else None
  end.

Definition floatOfN (n : N) : float := PrimFloat.of_uint63 (Uint63.of_Z (Z.of_N n)).

Definition parseNumber (s : JsString) : option (JsValue * JsString) :=
  let (neg, body) := match s with
                     | 45 :: rest => (true, rest)
                     | _ => (false, s)
                     end in
  match parseDigits body 0 false with
  | Some (n, rest) =>
      match rest with
      | 46 :: _ | 101 :: _ | 69 :: _ => None    (* fractions, exponents *)
      | _ => if n <? 2 ^ 53
             then Some (VNumber (if neg then PrimFloat.opp (floatOfN n) else floatOfN n),
                        rest)
             else None
      end
  | None => None
  end.

Fixpoint parseValue (fuel : nat) (s : JsString) {struct fuel}
  : option (JsValue * JsString) :=
  match fuel with
  | O => None
  | S f =>
      match skipWs s with
      | 110 :: _ => expect (lit "null") VNull (skipWs s)
      | 116 :: _ => expect (lit "true") (VBool true) (skipWs s)
      | 102 :: _ => expect (lit "false") (VBool false) (skipWs s)
      | 34 :: rest =>
          match parseChars rest [] with
          | Some (str, rest') => Some (VString str, rest')
          | None => None
          end
      | 91 :: rest =>
          match skipWs rest with
          | 93 :: rest' => Some (VArray [], rest')
          | _ => parseElements f rest []
          end
      | 123 :: rest =>
          match skipWs rest with
          | 125 :: rest' => Some (VObject [], rest')
          | _ => parseMembers f rest []
          end
      | _ => parseNumber (skipWs s)
      end
  end
with parseElements (fuel : nat) (s : JsString) (acc : list JsValue) {struct fuel}
  : option (JsValue * JsString) :=
  match fuel with
  | O => None
  | S f =>
      match parseValue f s with
      | Some (v, rest) =>
          match skipWs rest with
          | 44 :: rest' => parseElements f rest' (acc ++ [v])
          | 93 :: rest' => Some (VArray (acc ++ [v]), rest')
          | _ => None
          end
      | None => None
      end
  end
with parseMembers (fuel : nat) (s : JsString) (acc : list (JsString * JsValue))
       {struct fuel} : option (JsValue * JsString) :=
  match fuel with
  | O => None
  | S f =>
      match skipWs s with
      | 34 :: rest =>
          match parseChars rest [] with
          | Some (k, rest1) =>
              match skipWs rest1 with
              | 58 :: rest2 =>
                  match parseValue f rest2 with
                  | Some (v, rest3) =>
                      match skipWs rest3 with
                      | 44 :: rest4 => parseMembers f rest4 (Js.update k v acc)
                      | 125 :: rest4 => Some (VObject (Js.update k v acc), rest4)
                      | _ => None
                      end
                  | None => None
                  end
              | _ => None
              end
          | None => None
          end
      | _ => None
      end
  end.

Definition parse (text : JsString) : option JsValue :=
  match parseValue (2 * length text + 2) text with
  | Some (v, rest) => match skipWs rest with [] => Some v | _ => None end
  | None => None
  end.

(** *** TextDecoder, URL, Number *)

Definition decodeAscii (bs : list byte) : JsString :=
  map (fun b => if Byte.to_N b <? 128 then Byte.to_N b else 65533) bs.

Definition isAlpha (u : N) : bool :=
  ((65 <=? u) && (u <=? 90)) || ((97 <=? u) && (u <=? 122)).

Definition isSchemeChar (u : N) : bool :=
  isAlpha u || ((48 <=? u) && (u <=? 57)) || (u =? 43) || (u =? 45) || (u =? 46).

Fixpoint schemeRest (s : JsString) : bool :=
  match s with
  | 58 :: _ => true
  | u :: rest => isSchemeChar u && schemeRest rest
  | [] => false
  end.

(** A string that begins with a scheme and a colon. *)
Definition hasScheme (v : JsValue) : bool :=
  match v with
  | VString (u :: rest) => isAlpha u && schemeRest rest
  | _ => false
  end.

Definition numberOfString (s : JsString) : float :=
  match s with
  | [] => 0%float
  | _ => match parseDigits s 0 false with
         | Some (n, []) => floatOfN n
         | _ => PrimFloat.nan
         end
  end.

(** *** A toy AEAD *)

Definition xorByte (a b : byte) : byte :=
  byte_of_N (N.lxor (Byte.to_N a) (Byte.to_N b)).

Definition cyclic (l : list byte) (i : nat) : byte := nth (i mod length l) l x00.

Definition keystream (key iv : list byte) (i : nat) : byte :=
  xorByte (cyclic key i) (cyclic iv (i + i / 7)).

Definition xorStream (key iv data : list byte) : list byte :=
  map (fun p => xorByte (snd p) (keystream key iv (fst p)))
      (combine (seq 0 (length data)) data).

Definition tagByte (key iv ct : list byte) (j : nat) : byte :=
  fold_left xorByte
    (map (fun p => if (fst p mod 16 =? j)%nat
                   then xorByte (snd p) (cyclic key (fst p / 16 + j)) else x00)
         (combine (seq 0 (length ct)) ct))
    (xorByte (cyclic key (j + 16)) (cyclic iv j)).

Definition tag (key iv ct : list byte) : list byte :=
  map (tagByte key iv ct) (seq 0 16).

Definition importKey (algorithm : JsString) (raw : list byte) (usage : KeyUsage)
  : JsString + (list byte * KeyUsage) :=
  if (length raw =? 16)%nat || (length raw =? 24)%nat || (length raw =? 32)%nat
  then inr (raw, usage)
  else inl (lit "AES key data must be 128 or 256 bits").

Definition seal (algorithm : JsString) (k : list byte * KeyUsage)
           (iv data : list byte) : JsString + list byte :=
  match snd k with
  | UsageEncrypt =>
      let ct := xorStream (fst k) iv data in inr (ct ++ tag (fst k) iv ct)
  | UsageDecrypt => inl (lit "key.usages does not permit this operation")
  end.

Definition bytesEqb (a b : list byte) : bool :=
  if list_eq_dec Byte.byte_eq_dec a b then true else false.

Definition open (algorithm : JsString) (k : list byte * KeyUsage)
           (iv data : list byte) : JsString + list byte :=
  match snd k with
  | UsageDecrypt =>
      let n := (length data - 16)%nat in
      let ct := firstn n data in
      if (16 <=? length data)%nat && bytesEqb (skipn n data) (tag (fst k) iv ct)
      then inr (xorStream (fst k) iv ct)
      else inl (lit "The operation failed for an operation-specific reason")
  | UsageEncrypt => inl (lit "key.usages does not permit this operation")
  end.

Definition platform : Platform :=
  {| CryptoKey := list byte * KeyUsage;
     subtle_importKey := importKey;
     subtle_decrypt := open;
     subtle_encrypt := seal;
     TextDecoder_decode := decodeAscii;
     JSON_parse := parse;
     JSON_stringify := stringify;
     URL_parses := hasScheme;
     StringToNumber := numberOfString;
     ObjectToNumber := fun _ => PrimFloat.nan;
     invalidCharacterMessage := lit "The string to be decoded is not correctly encoded.";
     applyArgumentLimit := N.to_nat 65536;
     rangeErrorMessage := lit "Maximum call stack size exceeded" |}.

End Reference.

(** ** Vocabulary of the properties and concrete inputs *)

Section Vocabulary.

Import DecryptionService.
Import ClickHandler.

Variable B : Browser.

(** *** Base64 text and its normalisation *)

(** A character of the alphabet is none of the characters the service
    rewrites or the decoder skips. *)
Definition plainChar (c : N) : Prop :=
  c <> EQ /\ c <> MINUS /\ c <> UNDERSCORE /\ isAsciiWhitespace c = false.

(** What the three replacements of [base64ToArrayBuffer] and of
    [fixPayloadFormat] do to one character. *)
Definition normChar (u : N) : N :=
  let u := if N.eqb u SPACE then PLUS else u in
  let u := if N.eqb u MINUS then PLUS else u in
  if N.eqb u UNDERSCORE then SLASH else u.

(** Right-padding with [=] to a multiple of four characters. *)
Definition padTo4 (s : JsString) : JsString :=
  if (0 <? length s mod 4)%nat then s ++ repeat1 EQ (4 - length s mod 4) else s.

Definition normalized (payload : JsString) : JsString :=
  padTo4 (map normChar payload).

(** What [encrypt] does to one character of the base64 text. *)
Definition urlSafeChar (u : N) : N :=
  let u := if N.eqb u PLUS then MINUS else u in
  if N.eqb u SLASH then UNDERSCORE else u.

(** *** Instruction sets and their fields *)

(** The instruction set the validator builds from [{click_url: url}]. *)
Definition clickOnlyInstructionSet (url : JsString) : JsValue :=
  VObject
    [ (lit "image_url", VUndefined);
      (lit "click_url", VString url);
      (lit "deeplink_url", VNull);
      (lit "auto_click", VBool false);
      (lit "deeplink_priority", VBool false);
      (lit "auto_click_delay", VNull);
      (lit "title", VUndefined);
      (lit "description", VUndefined) ].









(** *** Concrete instruction sets and configurations *)

(** The scenario of the specification. *)
Definition scenarioInstructionSet : JsValue :=
  VObject
    [ (lit "image_url", VString (lit "https://a/b.gif"));
      (lit "click_url", VString (lit "https://play.google.com/x"));
      (lit "deeplink_url", VNull);
      (lit "auto_click", VBool false) ].


(** A service configured, through [setEncryptionKey], with the key "short". *)
Definition shortKeyConfig : Config :=
  mkConfig (lit "short") (lit "AES-GCM") 256 12 16.

Definition resultOf {A} (r : (JsError + A) * World) (d : A) : A :=
  match fst r with inr a => a | inl _ => d end.


(** *** Failures of [decrypt] *)

(** A computation that does not look at the world: it returns [a], or
    throws a fresh error with message [msg] after allocating [k] other
    errors, and makes the platform calls [cs] on the way. *)
Definition replay {A} (o : JsString * nat + A) (cs : list Call) : M A :=
  fun w =>
    let calls' := fold_left (fun l c => l ++ [c]) cs (calls w) in
    match o with
    | inr a => (inr a, mkWorld (nextError w) calls' (entropy w) (entropyPos w))
    | inl (msg, k) =>
        (inl (mkError (k + nextError w) msg None),
         mkWorld (S (k + nextError w)) calls' (entropy w) (entropyPos w))
    end.

(** The messages [handleDecryptionError] replaces. *)
Definition sensitive (msg : JsString) : bool :=
  includes (lit "decrypt") msg || includes (lit "key") msg.

(** What the outer [catch] of [decrypt] makes of the error [e]. *)
Definition sanitized (e : JsError) (w : World) : (JsError + JsValue) * World :=
  if sensitive (message e)
  then (inl (mkError (nextError w) (lit "Failed to process encrypted payload")
               (Some (message e))),
        mkWorld (S (nextError w)) (calls w) (entropy w) (entropyPos w))
  else (inl e, w).

(** A payload that needs padding: three characters, decoding to two
    bytes. *)
Definition unpaddedPayload : JsString := lit "AAA".

Definition tooShort (id : nat) : JsError :=
  mkError id (lit "Encrypted payload too short - possibly corrupted") None.

Definition worldAfterErrors (n : nat) : World :=
  mkWorld n (calls initialWorld) (entropy initialWorld) (entropyPos initialWorld).

(** A payload whose plaintext is the text [{ invalid json }]. *)
Definition invalidJsonPayload : JsString :=
  Eval vm_compute in
    match Reference.seal (lit "AES-GCM")
            (keyBytes (encryptionKey defaults), UsageEncrypt)
            (repeat x00 12)
            (TextEncoder_encode (lit "{ invalid json }")) with
    | inr ct =>
        stripTrailing EQ
          (replaceAll SLASH UNDERSCORE
             (replaceAll PLUS MINUS (encode (repeat x00 12 ++ ct))))
    | inl _ => []
    end.

Definition invalidJsonEnvelope : JsString :=
  Eval vm_compute in
    match atob (normalized invalidJsonPayload) with
    | Some binaryString => binaryString
    | None => []
    end.

(** A key with one character outside ASCII: "cle-de-chiffrement-aes-256"
    with an acute accent on its first e (U+00E9). *)
Definition accentedKey : JsString :=
  lit "cl" ++ [233%N] ++ lit "-de-chiffrement-aes-256".

(** *** The click handler *)

Definition stateAfter {A} (r : (JsError + A) * State * World) : State := snd (fst r).
Definition worldAfter {A} (r : (JsError + A) * State * World) : World := snd r.
Definition outcome {A} (r : (JsError + A) * State * World) : JsError + A := fst (fst r).

(** An instruction set that asks for an auto-click after 0 ms. *)
Definition zeroDelayInstructionSet : JsValue :=
  VObject
    [ (lit "click_url", VString (lit "https://x.test"));
      (lit "auto_click", VBool true);
      (lit "auto_click_delay", VNumber 0%float) ].

(** The URLs the window was navigated to, oldest first. *)
Definition navigations (cs : list Call) : list JsValue :=
  flat_map (fun c => match c with CallNavigate u => [u] | _ => [] end) cs.

Definition isTracking (c : Call) : bool :=
  match c with
  | CallTrackClick _ _ _ | CallLogTracked _ _ _ _ => true
  | _ => false
  end.

(** The records of click actions among the platform calls. *)
Definition trackingRecords (cs : list Call) : list Call := filter isTracking cs.

(** What [trackClickAction] records for an instruction set: the call to the
    analytics collaborator when there is one, and the log record. *)
Definition expectedRecords (actionType : JsString) (iset : JsValue) : list Call :=
  let deeplink_priority := get iset (lit "deeplink_priority") in
  let deeplink_url := get iset (lit "deeplink_url") in
  let click_url := get iset (lit "click_url") in
  (if firebaseService B
   then [CallTrackClick actionType
           (if ToBoolean (and deeplink_priority deeplink_url)
            then deeplink_url else click_url)
           (and deeplink_priority deeplink_url)]
   else [])
  ++ [CallLogTracked actionType (ToBoolean deeplink_url) (ToBoolean click_url)
        deeplink_priority].

(** A computation that records no click action and keeps the instruction
    set. *)
Definition quiet {A} (m : H A) : Prop :=
  forall s w,
    trackingRecords (calls (worldAfter (m s w))) = trackingRecords (calls w)
    /\ instructionSet (stateAfter (m s w)) = instructionSet s.

(** A page with an analytics collaborator and the element for error
    messages, where nothing else touches the handler while it is
    suspended. *)
Definition page (race : DeeplinkOutcome) : Browser :=
  mkBrowser true (fun _ => race) (fun s => s)
    (lit "Cannot read properties of null") (lit "Invalid URL") true.

(** A handler after [initialize]. *)
Definition armed (instructions : JsValue) : State :=
  mkState instructions true None false.

Definition priorityInstructionSet : JsValue :=
  VObject
    [ (lit "image_url", VString (lit "https://a/b.gif"));
      (lit "click_url", VString (lit "https://x.test"));
      (lit "deeplink_url", VString (lit "myapp://open"));
      (lit "deeplink_priority", VBool true) ].

Definition imageOnlyInstructionSet : JsValue :=
  VObject [ (lit "image_url", VString (lit "https://a/b.gif")) ].

Definition brokenTargetInstructionSet : JsValue :=
  VObject [ (lit "click_url", VString (lit "not-a-url")) ].

End Vocabulary.

(** ** Vocabulary of the further properties *)

Section FurtherVocabulary.

Import DecryptionService.
Import ClickHandler.

Variable P : Platform.
Variable B : Browser.

(** *** Texts *)

(** The characters of a string other than the padding character. *)
Definition dataChars (s : JsString) : JsString :=
  filter (fun c => negb (N.eqb c EQ)) s.

(** The characters of URL-safe base64: letters, digits, [-] and [_]. *)
Definition urlSafeAlphabet (c : N) : bool :=
  (((65 <=? c) && (c <=? 90)) || ((97 <=? c) && (c <=? 122))
   || ((48 <=? c) && (c <=? 57)) || (c =? MINUS) || (c =? UNDERSCORE))%N.

(** *** Validated instruction sets *)

(** [null] or a non-empty string. *)
Definition nullOrText (v : JsValue) : Prop :=
  v = VNull \/ exists s, v = VString s /\ s <> [].

(** [null] or a number that is neither NaN nor negative. *)
Definition nullOrDelay (v : JsValue) : Prop :=
  v = VNull
  \/ exists d, v = VNumber d /\ PrimFloat.is_nan d = false /\ PrimFloat.ltb d 0 = false.

(** The instruction sets that [validateInstructionSet] builds: the eight
    properties in their order, the click target a non-empty string that the
    URL parser accepts, the image target absent or accepted by the URL
    parser, the deeplink target [null] or a non-empty string, the flags
    booleans, the delay [null] or a non-negative number. *)
Definition validated (v : JsValue) : Prop :=
  exists (image_url : JsValue) (click_url : JsString) (deeplink_url : JsValue)
         (auto_click deeplink_priority : bool) (auto_click_delay title description : JsValue),
    v = VObject
          [ (lit "image_url", image_url);
            (lit "click_url", VString click_url);
            (lit "deeplink_url", deeplink_url);
            (lit "auto_click", VBool auto_click);
            (lit "deeplink_priority", VBool deeplink_priority);
            (lit "auto_click_delay", auto_click_delay);
            (lit "title", title);
            (lit "description", description) ]
    /\ click_url <> []
    /\ URL_parses P (VString click_url) = true
    /\ (ToBoolean image_url = true -> URL_parses P image_url = true)
    /\ nullOrText deeplink_url
    /\ nullOrDelay auto_click_delay.

(** The delay after a second validation: [Number(null)] is 0. *)
Definition revalidatedDelay (v : JsValue) : JsValue :=
  match get v (lit "auto_click_delay") with
  | VNumber d => VNumber d
  | _ => VNumber 0%float
  end.

(** *** What a computation of the click handler leaves alone *)

(** A computation that keeps a part of the handler and an observation of
    the platform calls. *)
Definition keepsAt {X Y A : Type} (proj : State -> X) (obs : list Call -> Y)
    (m : H A) (s : State) (w : World) : Prop :=
  proj (stateAfter (m s w)) = proj s
  /\ obs (calls (worldAfter (m s w))) = obs (calls w).

(** A value [openClickUrl] navigates to. *)
Definition navigable (u : JsValue) : bool :=
  ToBoolean u && isString u && URL_parses P u.

(** Navigating nowhere and keeping the instruction set. *)
Definition silentAt {A} (m : H A) (s : State) (w : World) : Prop :=
  keepsAt instructionSet navigations m s w.

(** A computation that keeps the instruction set and navigates at most
    once, to the click target, which is then a string the URL parser
    accepts; and that returns when it has navigated. *)
Definition onceAt {A} (m : H A) (s : State) (w : World) : Prop :=
  let click_url := get (instructionSet s) (lit "click_url") in
  instructionSet (stateAfter (m s w)) = instructionSet s
  /\ (navigations (calls (worldAfter (m s w))) = navigations (calls w)
      \/ (navigations (calls (worldAfter (m s w))) = navigations (calls w) ++ [click_url]
          /\ navigable click_url = true
          /\ exists a, outcome (m s w) = inr a)).


(** *** The auto-click timer *)

(** The calls that cancel the timer a handler holds. *)
Definition clearing (s : State) : list Call :=
  match autoClickTimer s with
  | Some handle => [CallClearTimeout handle]
  | None => []
  end.







(** *** Gestures *)

Definition handlerAfter {A} (r : (JsError + A) * ClickGestures.Handler * World)
  : ClickGestures.Handler := snd (fst r).

Variable Math_sqrt : float -> float.
Variable Math_pow : float -> float -> float.

(** What a page does with a handler: it initializes and destroys it, and
    it delivers the events of the listeners. *)
Inductive Event : Type :=
| OnInitialize (instructionSet : JsValue)
| OnDestroy
| OnClick
| OnMouseDown
| OnMouseUp
| OnTouchStart (event : ClickGestures.TouchEvent) (now : float)
| OnTouchEnd (event : ClickGestures.TouchEvent) (now : float)
| OnTouchCancel
| OnPointerDown
| OnPointerUp (event : ClickGestures.PointerEvent)
| OnPointerCancel.

(** The events of the mouse, touch and pointer listeners. *)
Definition isGesture (e : Event) : bool :=
  match e with
  | OnInitialize _ | OnDestroy | OnClick => false
  | _ => true
  end.

Definition deliver (e : Event) : ClickGestures.G unit :=
  match e with
  | OnInitialize instructionSet => ClickGestures.initialize B instructionSet
  | OnDestroy => ClickGestures.destroy
  | OnClick => ClickGestures.handleClick P B
  | OnMouseDown => ClickGestures.handleMouseDown B
  | OnMouseUp => ClickGestures.handleMouseUp B
  | OnTouchStart event now => ClickGestures.handleTouchStart B event now
  | OnTouchEnd event now =>
      ClickGestures.handleTouchEnd P B Math_sqrt Math_pow event now
  | OnTouchCancel => ClickGestures.handleTouchCancel B
  | OnPointerDown => ClickGestures.handlePointerDown B
  | OnPointerUp event => ClickGestures.handlePointerUp P B event
  | OnPointerCancel => ClickGestures.handlePointerCancel B
  end.

(** A sequence of events; an exception ends the listener that raised
    it. *)
Fixpoint deliverAll (es : list Event) (h : ClickGestures.Handler) (w : World)
  : ClickGestures.Handler * World :=
  match es with
  | [] => (h, w)
  | e :: rest => deliverAll rest (handlerAfter (deliver e h w)) (snd (deliver e h w))
  end.

(** The handler the constructor builds: [interactionState] is not set. *)
Definition newHandler : ClickGestures.Handler := ClickGestures.mkHandler create None.

(** The interaction state is there exactly when the listeners are set
    up. *)
Definition ready (h : ClickGestures.Handler) : Prop :=
  clickListenersSetup (ClickGestures.core h)
  = match ClickGestures.interactionState h with Some _ => true | None => false end.

(** *** Concrete inputs *)

(** The payload of [scenarioInstructionSet] under the default key. *)
Definition scenarioPayload : JsString :=
  Eval vm_compute in
    resultOf (encrypt Reference.platform defaults scenarioInstructionSet initialWorld) [].

(** What [decrypt] makes of it. *)
Definition scenarioResult : JsValue :=
  resultOf (decrypt Reference.platform defaults scenarioPayload initialWorld) VUndefined.

(** A payload whose plaintext is the text [{}]. *)
Definition emptyObjectPayload : JsString :=
  Eval vm_compute in
    match Reference.seal (lit "AES-GCM")
            (keyBytes (encryptionKey defaults), UsageEncrypt)
            (repeat x00 12)
            (TextEncoder_encode (lit "{}")) with
    | inr ct =>
        stripTrailing EQ
          (replaceAll SLASH UNDERSCORE
             (replaceAll PLUS MINUS (encode (repeat x00 12 ++ ct))))
    | inl _ => []
    end.

Definition emptyObjectEnvelope : JsString :=
  Eval vm_compute in
    match atob (normalized emptyObjectPayload) with
    | Some binaryString => binaryString
    | None => []
    end.

(** Forty characters that decode to thirty zero bytes: long enough for
    an envelope, but with a tag that does not match. *)
Definition forgedPayload : JsString := repeat 65%N 40.

Definition forgedEnvelope : JsString := repeat 0%N 30.

Definition accentedConfig : Config := mkConfig accentedKey (lit "AES-GCM") 256 12 16.

(** The error of [validateInstructionSet] on an object with no click
    target. *)
Definition clickRequired (id : nat) : JsError :=
  mkError id (lit "Invalid instruction set - click_url is required and must be a string")
    None.


(** A page with neither the analytics collaborator nor the element for
    error messages. *)
Definition barePage (race : DeeplinkOutcome) : Browser :=
  mkBrowser false (fun _ => race) (fun s => s)
    (lit "Cannot read properties of null") (lit "Invalid URL") false.

(** [Math.pow] as far as the handler uses it: with the exponent 2. *)
Definition square (x exponent : float) : float := (x * x)%float.

(** A handler with its listeners set up. *)
Definition listening (instructions : JsValue) : ClickGestures.Handler :=
  ClickGestures.mkHandler (armed instructions)
    (Some ClickGestures.initialInteractionState).

Definition lift : ClickGestures.TouchEvent := ClickGestures.mkTouchEvent [] [].

End FurtherVocabulary.

(** * Properties *)

Lemma JsStr_eqb_spec (a b : JsString) : reflect (a = b) (JsStr.eqb a b).
Proof.
  revert b. induction a as [|x a IH]; intros [|y b]; cbn;
    try (constructor; congruence).
  destruct (N.eqb_spec x y) as [->|Hxy]; cbn.
  - destruct (IH b) as [->|Hab]; constructor; congruence.
  - constructor. congruence.
Qed.

(** ** Facts about base64 *)

Section Base64Facts.

Local Open Scope N_scope.

Lemma byte_of_to_N (b : byte) : byte_of_N (Byte.to_N b) = b.
Proof.
  unfold byte_of_N.
  pose proof (Byte.to_N_bounded b) as Hb.
  rewrite N.mod_small by lia.
  now rewrite Byte.of_to_N.
Qed.

Lemma charCodes_fromCharCode (bs : list byte) : charCodes (fromCharCode bs) = bs.
Proof.
  unfold charCodes, fromCharCode. rewrite map_map.
  rewrite <- (map_id bs) at 2. apply map_ext, byte_of_to_N.
Qed.

(** Lists taken three elements at a time. *)
Lemma list_ind3 (A : Type) (P : list A -> Prop) :
  P [] -> (forall a, P [a]) -> (forall a b, P [a; b]) ->
  (forall a b c rest, P rest -> P (a :: b :: c :: rest)) ->
  forall l, P l.
Proof.
  intros H0 H1 H2 H3 l.
  assert (H : P l /\ (forall a, P (a :: l)) /\ (forall a b, P (a :: b :: l))).
  { induction l as [|x l IH]; [now auto|].
    destruct IH as (IH0 & IH1 & IH2). repeat split; auto. }
  apply H.
Qed.

Lemma b64_index_char (i : N) : i < 64 -> b64_index (b64_char i) = Some i.
Proof.
  intros Hi. unfold b64_char, b64_index, PLUS, SLASH.
  repeat match goal with
         | |- context [N.ltb ?a ?b] => destruct (N.ltb_spec a b)
         | |- context [N.leb ?a ?b] => destruct (N.leb_spec a b)
         | |- context [N.eqb ?a ?b] => destruct (N.eqb_spec a b)
         | _ => progress cbn [andb]
         end; try lia; f_equal; lia.
Qed.

Lemma b64_char_plain (i : N) : plainChar (b64_char i).
Proof.
  unfold plainChar, b64_char, isAsciiWhitespace, EQ, MINUS, UNDERSCORE, PLUS, SLASH.
  repeat match goal with
         | |- context [N.ltb ?a ?b] => destruct (N.ltb_spec a b)
         | |- context [N.eqb ?a ?b] => destruct (N.eqb_spec a b)
         | _ => progress cbn [orb]
         end; repeat split; try lia; try reflexivity.
Qed.

Lemma sextets_bound (bs : list byte) : Forall (fun i => i < 64) (sextets bs).
Proof.
  induction bs as [ | a | a b | a b c rest IH] using list_ind3; cbn [sextets app].
  - constructor.
  - pose proof (Byte.to_N_bounded a).
    repeat constructor; Zify.zify; Z.to_euclidean_division_equations; lia.
  - pose proof (Byte.to_N_bounded a). pose proof (Byte.to_N_bounded b).
    repeat constructor; Zify.zify; Z.to_euclidean_division_equations; lia.
  - pose proof (Byte.to_N_bounded a). pose proof (Byte.to_N_bounded b).
    pose proof (Byte.to_N_bounded c).
    repeat (constructor; [Zify.zify; Z.to_euclidean_division_equations; lia|]).
    exact IH.
Qed.

Lemma byte_of_N_eq (n : N) (b : byte) : n = Byte.to_N b -> byte_of_N n = b.
Proof. intros ->. apply byte_of_to_N. Qed.

Lemma unsextets_sextets (bs : list byte) : unsextets (sextets bs) = bs.
Proof.
  induction bs as [ | a | a b | a b c rest IH] using list_ind3;
    cbn [sextets app unsextets].
  - reflexivity.
  - f_equal. apply byte_of_N_eq.
    Zify.zify; Z.to_euclidean_division_equations; lia.
  - pose proof (Byte.to_N_bounded a). pose proof (Byte.to_N_bounded b).
    f_equal; [|f_equal]; apply byte_of_N_eq;
      Zify.zify; Z.to_euclidean_division_equations; lia.
  - pose proof (Byte.to_N_bounded a). pose proof (Byte.to_N_bounded b).
    pose proof (Byte.to_N_bounded c).
    rewrite IH.
    f_equal; [|f_equal; [|f_equal]]; apply byte_of_N_eq;
      Zify.zify; Z.to_euclidean_division_equations; lia.
Qed.

End Base64Facts.

(** ** Payload normalisation *)

Section Normalisation.

Import DecryptionService.

Lemma replaceAll_norm (s : JsString) :
  replaceAll UNDERSCORE SLASH (replaceAll MINUS PLUS (replaceAll SPACE PLUS s))
  = map normChar s.
Proof. unfold replaceAll. rewrite !map_map. reflexivity. Qed.

Lemma map_padTo4 (g : N -> N) (s : JsString) :
  g EQ = EQ -> map g (padTo4 s) = padTo4 (map g s).
Proof.
  intros Hg. unfold padTo4, repeat1. rewrite length_map.
  destruct (0 <? length s mod 4)%nat; [|reflexivity].
  rewrite map_app, map_repeat, Hg. reflexivity.
Qed.

Lemma padTo4_length (s : JsString) : (length (padTo4 s) mod 4 = 0)%nat.
Proof.
  unfold padTo4, repeat1.
  destruct (Nat.ltb_spec 0 (length s mod 4)) as [H|H].
  - rewrite length_app, repeat_length.
    pose proof (Nat.mod_upper_bound (length s) 4 ltac:(lia)).
    pose proof (Nat.div_mod_eq (length s) 4).
    replace (length s + (4 - length s mod 4))%nat
      with ((length s / 4 + 1) * 4)%nat by lia.
    apply Nat.Div0.mod_mul.
  - lia.
Qed.

Lemma padTo4_idem (s : JsString) : padTo4 (padTo4 s) = padTo4 s.
Proof.
  unfold padTo4 at 1. rewrite padTo4_length. reflexivity.
Qed.

Lemma normChar_idem (u : N) : normChar (normChar u) = normChar u.
Proof.
  unfold normChar, SPACE, PLUS, MINUS, UNDERSCORE, SLASH.
  destruct (N.eqb u 32) eqn:E1; [apply N.eqb_eq in E1; subst; reflexivity|].
  destruct (N.eqb u 45) eqn:E2; [apply N.eqb_eq in E2; subst; reflexivity|].
  destruct (N.eqb u 95) eqn:E3; [apply N.eqb_eq in E3; subst; reflexivity|].
  cbv beta iota zeta. rewrite E1. cbv beta iota zeta. rewrite E2.
  cbv beta iota zeta. rewrite E3. reflexivity.
Qed.

Lemma padTo4_nonempty (s : JsString) : s <> [] -> padTo4 s <> [].
Proof.
  unfold padTo4. destruct s; [congruence|].
  intros _. destruct (0 <? _)%nat; discriminate.
Qed.

(** On a non-empty payload [fixPayloadFormat] computes the very string
    that [base64ToArrayBuffer] goes on to decode. *)
Lemma fixPayloadFormat_normalized (payload : JsString) :
  payload <> [] -> fixPayloadFormat payload = normalized payload.
Proof.
  intros Hne. unfold fixPayloadFormat, normalized.
  destruct payload as [|u s]; [congruence|]. cbn [isEmpty].
  cbv zeta. change (if (0 <? length ?x mod 4)%nat then _ else _) with (padTo4 x).
  unfold replaceAll. rewrite !map_padTo4 by reflexivity.
  rewrite !map_map. reflexivity.
Qed.

Lemma normalized_idem (payload : JsString) :
  normalized (normalized payload) = normalized payload.
Proof.
  unfold normalized.
  rewrite map_padTo4 by reflexivity.
  rewrite padTo4_idem, map_map.
  f_equal. apply map_ext, normChar_idem.
Qed.

Lemma normalized_nonempty (payload : JsString) :
  payload <> [] -> normalized payload <> [].
Proof.
  intros H. apply padTo4_nonempty. destruct payload; [congruence|discriminate].
Qed.

Variable P : Platform.

(** [base64ToArrayBuffer] in terms of [normalized]. *)
Lemma base64ToArrayBuffer_unfold (base64 : JsString) (w : World) :
  base64 <> [] ->
  base64ToArrayBuffer P base64 w =
  match atob (normalized base64) with
  | Some binaryString => (inr (charCodes binaryString), w)
  | None =>
      (inl (mkError (S (nextError w))
              (lit "Failed to decode base64 payload: " ++ invalidCharacterMessage P)
              None),
       mkWorld (S (S (nextError w))) (calls w) (entropy w) (entropyPos w))
  end.
Proof.
  intros Hne. unfold base64ToArrayBuffer, normalized.
  destruct base64 as [|u s]; [congruence|]. cbn [isEmpty].
  rewrite replaceAll_norm. cbv zeta.
  change (if (0 <? length ?x mod 4)%nat then _ else _) with (padTo4 x).
  unfold tryCatch.
  destruct (atob (padTo4 (map normChar (u :: s)))); reflexivity.
Qed.

(** The retry decodes exactly what the first attempt decoded. *)
Lemma base64ToArrayBuffer_fixed (payload : JsString) (w : World) :
  payload <> [] ->
  base64ToArrayBuffer P (fixPayloadFormat payload) w
  = base64ToArrayBuffer P payload w.
Proof.
  intros Hne.
  rewrite fixPayloadFormat_normalized by assumption.
  rewrite !base64ToArrayBuffer_unfold by auto using normalized_nonempty.
  rewrite normalized_idem. reflexivity.
Qed.

Lemma decryptAttempt_fixed (this : Config) (payload : JsString) (w : World) :
  payload <> [] ->
  decryptAttempt P this (fixPayloadFormat payload) w
  = decryptAttempt P this payload w.
Proof.
  intros Hne. unfold decryptAttempt, bind.
  rewrite base64ToArrayBuffer_fixed by assumption. reflexivity.
Qed.

End Normalisation.

(** ** The envelope encoding round trip *)

Section EnvelopeRoundTrip.

Import DecryptionService.

Lemma b64_char_range (i : N) :
  let c := b64_char i in
  (65 <= c <= 90 \/ 97 <= c <= 122 \/ 48 <= c <= 57 \/ c = 43 \/ c = 47)%N.
Proof.
  unfold b64_char, PLUS, SLASH. cbv zeta.
  repeat match goal with
         | |- context [N.ltb ?a ?b] => destruct (N.ltb_spec a b)
         | |- context [N.eqb ?a ?b] => destruct (N.eqb_spec a b)
         end; lia.
Qed.

Ltac decide_tests c :=
  repeat (match goal with
          | |- context [N.eqb c ?k] =>
              replace (N.eqb c k) with false by (symmetry; apply N.eqb_neq; lia)
          end; cbv beta iota zeta).

Lemma normChar_urlSafe_b64 (i : N) : normChar (urlSafeChar (b64_char i)) = b64_char i.
Proof.
  pose proof (b64_char_range i) as H. cbv zeta in H.
  generalize dependent (b64_char i). intros c H.
  destruct (N.eq_dec c 43) as [->|]; [reflexivity|].
  destruct (N.eq_dec c 47) as [->|]; [reflexivity|].
  unfold normChar, urlSafeChar, SPACE, PLUS, MINUS, UNDERSCORE, SLASH.
  decide_tests c. reflexivity.
Qed.

Lemma urlSafe_b64_not_eq (i : N) : urlSafeChar (b64_char i) <> EQ.
Proof.
  pose proof (b64_char_range i) as H. cbv zeta in H.
  generalize dependent (b64_char i). intros c H.
  destruct (N.eq_dec c 43) as [->|]; [discriminate|].
  destruct (N.eq_dec c 47) as [->|]; [discriminate|].
  unfold urlSafeChar, EQ, PLUS, MINUS, UNDERSCORE, SLASH.
  decide_tests c. lia.
Qed.

Lemma dropLeading_repeat (c : N) (n : nat) (s : JsString) :
  dropLeading c (repeat c n ++ s) = dropLeading c s.
Proof.
  induction n as [|n IH]; [reflexivity|].
  cbn. rewrite N.eqb_refl. exact IH.
Qed.

Lemma dropLeading_head (c : N) (s : JsString) :
  match s with u :: _ => u <> c | [] => True end -> dropLeading c s = s.
Proof.
  destruct s as [|u s]; [reflexivity|].
  intros H. cbn. apply N.eqb_neq in H. rewrite H. reflexivity.
Qed.

Lemma rev_repeat (c : N) (n : nat) : rev (repeat c n) = repeat c n.
Proof.
  induction n as [|n IH]; [reflexivity|].
  cbn. rewrite IH. symmetry. apply repeat_cons.
Qed.

Lemma rev_head_Forall (Q : N -> Prop) (s : JsString) :
  Forall Q s -> match rev s with u :: _ => Q u | [] => True end.
Proof.
  intros H. apply Forall_rev in H.
  destruct (rev s); [exact I|]. now inversion H.
Qed.

Lemma stripTrailing_pads (s : JsString) (n : nat) :
  Forall (fun u => u <> EQ) s -> stripTrailing EQ (s ++ repeat EQ n) = s.
Proof.
  intros H. unfold stripTrailing.
  rewrite rev_app_distr, rev_repeat, dropLeading_repeat.
  rewrite dropLeading_head by (apply (rev_head_Forall (fun u => u <> EQ)); assumption).
  apply rev_involutive.
Qed.

Lemma sextets_length (bs : list byte) :
  (length (sextets bs) mod 4 = 0 \/ length (sextets bs) mod 4 = 2
   \/ length (sextets bs) mod 4 = 3)%nat.
Proof.
  induction bs as [ | a | a b | a b c rest IH] using list_ind3;
    cbn [sextets app length]; auto.
  change (S (S (S (S (length (sextets rest))))))
    with (4 + length (sextets rest))%nat.
  replace (4 + length (sextets rest))%nat
    with (length (sextets rest) + 1 * 4)%nat by lia.
  rewrite Nat.Div0.mod_add. exact IH.
Qed.

Lemma padTo4_padCount (s : JsString) :
  padTo4 s = s ++ repeat EQ (padCount (length s)).
Proof.
  unfold padTo4, padCount, repeat1.
  pose proof (Nat.mod_upper_bound (length s) 4 ltac:(lia)) as Hb.
  destruct (Nat.ltb_spec 0 (length s mod 4)) as [H|H].
  - rewrite (Nat.mod_small (4 - length s mod 4) 4) by lia. reflexivity.
  - replace (length s mod 4)%nat with 0%nat by lia.
    cbn. now rewrite app_nil_r.
Qed.

Lemma encode_padTo4 (bs : list byte) :
  encode bs = padTo4 (map b64_char (sextets bs)).
Proof. unfold encode. now rewrite padTo4_padCount. Qed.

(** The URL-safe text that [encrypt] returns normalises back to the
    base64 text it was made from. *)
Lemma normalized_urlSafe (bs : list byte) :
  normalized
    (stripTrailing EQ (replaceAll SLASH UNDERSCORE (replaceAll PLUS MINUS (encode bs))))
  = encode bs.
Proof.
  assert (Hus : forall s, replaceAll SLASH UNDERSCORE (replaceAll PLUS MINUS s)
                          = map urlSafeChar s).
  { intros s. unfold replaceAll. rewrite map_map. reflexivity. }
  rewrite Hus. unfold encode at 1.
  rewrite map_app, map_repeat. change (urlSafeChar EQ) with EQ.
  rewrite stripTrailing_pads.
  - unfold normalized. rewrite !map_map.
    rewrite (map_ext _ b64_char) by (intros; apply normChar_urlSafe_b64).
    symmetry. apply encode_padTo4.
  - rewrite map_map. apply Forall_map, Forall_forall.
    intros i _. apply urlSafe_b64_not_eq.
Qed.

Lemma indices_chars (ix : list N) :
  Forall (fun i => (i < 64)%N) ix -> indices (map b64_char ix) = Some ix.
Proof.
  induction 1 as [|i ix Hi _ IH]; [reflexivity|].
  cbn. rewrite b64_index_char by assumption. rewrite IH. reflexivity.
Qed.

Lemma filter_plain (s : JsString) :
  Forall (fun u => isAsciiWhitespace u = false) s ->
  filter (fun u => negb (isAsciiWhitespace u)) s = s.
Proof.
  induction 1 as [|u s Hu _ IH]; [reflexivity|].
  cbn. rewrite Hu. cbn. now rewrite IH.
Qed.

Lemma removePadding_pads (s : JsString) (n : nat) :
  Forall (fun u => u <> EQ) s -> (n <= 2)%nat ->
  removePadding (s ++ repeat EQ n) = s.
Proof.
  intros Hs Hn. unfold removePadding.
  rewrite rev_app_distr, rev_repeat.
  pose proof (rev_head_Forall (fun u => u <> EQ) _ Hs) as Hh.
  destruct n as [|[|[|n]]]; [| | |lia]; cbn [repeat app].
  - rewrite app_nil_r.
    destruct (rev s) as [|a r] eqn:E; [reflexivity|].
    apply N.eqb_neq in Hh. now rewrite Hh.
  - rewrite N.eqb_refl.
    destruct (rev s) as [|b r] eqn:E.
    + apply (f_equal (@rev N)) in E. rewrite rev_involutive in E. now subst.
    + apply N.eqb_neq in Hh. rewrite Hh. rewrite <- E. apply rev_involutive.
  - rewrite !N.eqb_refl. apply rev_involutive.
Qed.

(** [atob] inverts the encoder. *)
Lemma atob_encode (bs : list byte) : atob (encode bs) = Some (fromCharCode bs).
Proof.
  set (body := map b64_char (sextets bs)).
  assert (Hplain : Forall plainChar body).
  { apply Forall_map, Forall_forall. intros i _. apply b64_char_plain. }
  assert (Hne : Forall (fun u => u <> EQ) body).
  { eapply Forall_impl; [|exact Hplain]. now intros u (H & _). }
  assert (Hws : Forall (fun u => isAsciiWhitespace u = false) (encode bs)).
  { unfold encode. fold body. apply Forall_app. split.
    - eapply Forall_impl; [|exact Hplain]. now intros u (_ & _ & _ & H).
    - apply Forall_forall. intros u Hu. apply repeat_spec in Hu. now subst. }
  assert (Hlen : (length body mod 4 = 0 \/ length body mod 4 = 2
                  \/ length body mod 4 = 3)%nat).
  { unfold body. rewrite length_map. apply sextets_length. }
  unfold atob. rewrite filter_plain by assumption.
  assert (H4 : (length (encode bs) mod 4 = 0)%nat).
  { rewrite encode_padTo4. apply padTo4_length. }
  rewrite H4. cbn [Nat.eqb].
  unfold encode. fold body.
  rewrite removePadding_pads; [| assumption |].
  - replace (length body mod 4 =? 1)%nat with false
      by (symmetry; apply Nat.eqb_neq; lia).
    unfold body. rewrite indices_chars by apply sextets_bound.
    now rewrite unsextets_sextets.
  - unfold padCount.
    destruct Hlen as [-> | [-> | ->]]; cbn; lia.
Qed.

Lemma btoa_fromCharCode (bs : list byte) : btoa (fromCharCode bs) = Some (encode bs).
Proof.
  unfold btoa.
  assert (H : forallb (fun u => (u <? 256)%N) (fromCharCode bs) = true).
  { apply forallb_forall. intros u Hu. apply in_map_iff in Hu.
    destruct Hu as (b & <- & _). apply N.ltb_lt.
    pose proof (Byte.to_N_bounded b). lia. }
  rewrite H, charCodes_fromCharCode. reflexivity.
Qed.

Variable P : Platform.

(** What [encrypt] returns for the bytes [bs] decodes, in [decrypt], to
    [bs] again. *)
Lemma base64ToArrayBuffer_urlSafe (bs : list byte) (w : World) :
  bs <> [] ->
  base64ToArrayBuffer P
    (stripTrailing EQ (replaceAll SLASH UNDERSCORE (replaceAll PLUS MINUS (encode bs))))
    w
  = (inr bs, w).
Proof.
  intros Hbs.
  set (payload := stripTrailing EQ _).
  assert (Hne : payload <> []).
  { intros E. pose proof (normalized_urlSafe bs) as Hn. fold payload in Hn.
    rewrite E in Hn. cbn in Hn.
    destruct bs as [|a [|b [|c rest]]]; [congruence| | |]; discriminate Hn. }
  rewrite base64ToArrayBuffer_unfold by assumption.
  unfold payload. rewrite normalized_urlSafe, atob_encode, charCodes_fromCharCode.
  reflexivity.
Qed.

End EnvelopeRoundTrip.

(** ** Properties of the validator and of the envelope check *)

Section ServiceProperties.

Import DecryptionService.

Variable P : Platform.

(** C3.  [validateInstructionSet] throws for every raw input whose
    [click_url] is absent or not a string: the "must be an object" error
    when the input is not a non-null object, the "click_url is required and
    must be a string" error otherwise.  A raw input that consists of a
    click_url the URL parser accepts, and nothing else, is accepted, and
    the result carries the defaults ([image_url] stays absent). *)
Theorem C3_click_url_required :
  (forall (data : JsValue) (w : World),
      get data (lit "click_url") = VUndefined
      \/ isString (get data (lit "click_url")) = false ->
      exists e w',
        validateInstructionSet P data w = (inl e, w')
        /\ originalError e = None
        /\ message e =
           if negb (ToBoolean data) || negb (isObjectType data)
           then lit "Invalid instruction set - must be an object"
           else lit "Invalid instruction set - click_url is required and must be a string")
  /\
  (forall (url : JsString) (w : World),
      url <> [] ->
      URL_parses P (VString url) = true ->
      validateInstructionSet P (VObject [(lit "click_url", VString url)]) w
      = (inr (clickOnlyInstructionSet url), w)).
Proof.
  split.
  - intros data w H. unfold validateInstructionSet.
    destruct (negb (ToBoolean data) || negb (isObjectType data)) eqn:E.
    + do 2 eexists. repeat split.
    + assert (Hc : negb (ToBoolean (get data (lit "click_url")))
                   || negb (isString (get data (lit "click_url"))) = true).
      { destruct H as [-> | ->]; [reflexivity | apply orb_true_r]. }
      rewrite Hc. do 2 eexists. repeat split.
  - intros url w Hne Hurl. unfold validateInstructionSet, isValidUrl.
    destruct url as [|u s]; [congruence|].
    cbn. cbn in Hurl. rewrite Hurl. reflexivity.
Qed.

(** C6, as the code has it.  Whenever a payload decodes, under
    [base64ToArrayBuffer], to fewer than [IV_LENGTH + TAG_LENGTH + 1]
    bytes, [decrypt] rejects it and the platform has been asked nothing: no
    key import and no AEAD decryption, neither in the first attempt nor in
    the retry.  With a usable key configured (16 characters or more) the
    error is the unsanitised "Encrypted payload too short".  With any other
    key the payload is not looked at: the error is the generic one, with
    the message about the key as original error. *)
Theorem C6_short_envelope_rejected
    (this : Config) (encryptedPayload : JsString) (w w0 : World)
    (encryptedData : list byte) :
  base64ToArrayBuffer P encryptedPayload w = (inr encryptedData, w0) ->
  length encryptedData < IV_LENGTH this + TAG_LENGTH this + 1 ->
  exists e w',
    decrypt P this encryptedPayload w = (inl e, w')
    /\ calls w' = calls w
    /\ if validateDecryptionKey this
       then message e = lit "Encrypted payload too short - possibly corrupted"
            /\ originalError e = None
       else message e = lit "Failed to process encrypted payload"
            /\ originalError e = Some (lit "Invalid or missing decryption key").
Proof.
  intros Hdec Hlen.
  assert (Hne : encryptedPayload <> []).
  { intros ->. discriminate Hdec. }
  rewrite base64ToArrayBuffer_unfold in Hdec by assumption.
  destruct (atob (normalized encryptedPayload)) as [bin|] eqn:Hatob;
    [|discriminate Hdec].
  injection Hdec as <- <-.
  assert (Hshort : (length (charCodes bin) <? IV_LENGTH this + TAG_LENGTH this + 1) = true)
    by (apply Nat.ltb_lt; assumption).
  assert (Hattempt : forall w1,
             decryptAttempt P this encryptedPayload w1
             = (inl (mkError (nextError w1)
                       (lit "Encrypted payload too short - possibly corrupted") None),
                mkWorld (S (nextError w1)) (calls w1) (entropy w1) (entropyPos w1))).
  { intros w1. unfold decryptAttempt, bind.
    rewrite base64ToArrayBuffer_unfold by assumption.
    rewrite Hatob, Hshort. reflexivity. }
  unfold decrypt, tryCatch.
  destruct encryptedPayload as [|u s]; [congruence|]. cbn [isEmpty].
  destruct (validateDecryptionKey this); cbn [negb].
  - rewrite Hattempt.
    destruct (negb (JsStr.eqb (fixPayloadFormat (u :: s)) (u :: s))).
    + rewrite decryptAttempt_fixed by assumption. rewrite Hattempt.
      do 2 eexists. unfold bind, handleDecryptionError. cbn. repeat split.
    + do 2 eexists. unfold bind, handleDecryptionError. cbn. repeat split.
  - do 2 eexists. split; [reflexivity|]. repeat split.
Qed.

End ServiceProperties.

(** ** The encrypt / decrypt round trip *)

Section RoundTrip.

Import DecryptionService.

Variable P : Platform.

Ltac split_tests :=
  repeat match goal with
         | |- context [if ?c then _ else _] => destruct c eqn:?
         end.

(** A successful validation leaves the world as it was, and succeeds in
    every world. *)
Lemma validate_pure (I v : JsValue) (w w0 : World) :
  validateInstructionSet P I w = (inr v, w0) ->
  w0 = w /\ forall w2, validateInstructionSet P I w2 = (inr v, w2).
Proof.
  unfold validateInstructionSet. cbv zeta.
  split_tests; unfold throwNew, throwNewWith, ret; try discriminate;
    intros H; injection H as <- <-; split; reflexivity.
Qed.






Lemma encode_nonempty (bs : list byte) : bs <> [] -> encode bs <> [].
Proof.
  destruct bs as [|a [|b [|c rest]]]; [congruence| | |]; discriminate.
Qed.



(** Beyond that bound [encrypt] fails on a valid instruction set: the
    RangeError of [String.fromCharCode.apply] is caught and thrown again
    as a failure of the encryption, after the key was imported and the
    plaintext encrypted. *)
Lemma encrypt_beyond_apply_limit
    (this : Config) (I v : JsValue) (w w0 : World) (ke : CryptoKey P) (ct : list byte) :
  let alg := ALGORITHM this in
  let raw := keyBytes (encryptionKey this) in
  let iv := map (entropy w) (seq (entropyPos w) (IV_LENGTH this)) in
  let plaintext := TextEncoder_encode (JSON_stringify P I) in
  validateInstructionSet P I w = (inr v, w0) ->
  subtle_importKey P alg raw UsageEncrypt = inr ke ->
  subtle_encrypt P alg ke iv plaintext = inr ct ->
  applyArgumentLimit P < IV_LENGTH this + length ct ->
  exists e w',
    encrypt P this I w = (inl e, w')
    /\ message e = lit "Encryption failed: " ++ rangeErrorMessage P
    /\ calls w' = calls w ++ [CallImportKey alg raw UsageEncrypt;
                               CallEncrypt alg iv plaintext].
Proof.
  intros alg raw iv plaintext Hv Hke Henc Hover.
  destruct (validate_pure _ _ _ _ Hv) as (-> & Hall).
  unfold encrypt, tryCatch, bind.
  rewrite Hall. unfold getRandomValues, call, await.
  cbn [nextError calls entropy entropyPos].
  fold iv. fold plaintext.
  unfold alg, raw, keyBytes in Hke. rewrite Hke. unfold bind, ret, call.
  unfold alg in Henc. rewrite Henc.
  assert (Hfail : (length (iv ++ ct) <=? applyArgumentLimit P) = false).
  { apply Nat.leb_gt. rewrite length_app. unfold iv.
    rewrite length_map, length_seq. exact Hover. }
  unfold String_fromCharCode_apply. rewrite Hfail.
  do 2 eexists. split; [reflexivity|]. split; [reflexivity|].
  cbn [calls]. rewrite <- app_assoc. reflexivity.
Qed.

End RoundTrip.

(** ** The round trip on concrete instruction sets *)

Section RoundTripExamples.

Import DecryptionService.



End RoundTripExamples.

(** ** How [decrypt] fails *)

Section DecryptFailures.

Import DecryptionService.

Variable P : Platform.

Lemma validate_replay (data : JsValue) :
  exists o, forall w, validateInstructionSet P data w = replay o [] w.
Proof.
  unfold validateInstructionSet. cbv zeta.
  repeat match goal with
         | |- context [if ?c then _ else _] => destruct c
         end;
    match goal with
    | |- context [throwNew ?m] => exists (inl (m, 0))
    | |- context [ret ?v] => exists (inr v)
    end; intros [n cs en ep]; reflexivity.
Qed.

(** Every attempt is a replay: its outcome, up to the identity of the
    error object, and its platform calls are the same in every world. *)
Lemma decryptAttempt_replay (this : Config) (payload : JsString) :
  payload <> [] ->
  exists o cs, forall w, decryptAttempt P this payload w = replay o cs w.
Proof.
  intros Hne.
  destruct (atob (normalized payload)) as [bin|] eqn:Hatob.
  2:{ exists (inl (lit "Failed to decode base64 payload: " ++ invalidCharacterMessage P, 1)), [].
      intros [n cs en ep]. unfold decryptAttempt, bind.
      rewrite base64ToArrayBuffer_unfold, Hatob by assumption. reflexivity. }
  destruct (length (charCodes bin) <? IV_LENGTH this + TAG_LENGTH this + 1) eqn:Hlen.
  { exists (inl (lit "Encrypted payload too short - possibly corrupted", 0)), [].
    intros [n cs en ep]. unfold decryptAttempt, bind.
    rewrite base64ToArrayBuffer_unfold, Hatob, Hlen by assumption. reflexivity. }
  set (iv := firstn (IV_LENGTH this) (charCodes bin)).
  set (ciphertext := skipn (IV_LENGTH this) (charCodes bin)).
  set (imported := CallImportKey (ALGORITHM this) (keyBytes (encryptionKey this))
                     UsageDecrypt).
  destruct (subtle_importKey P (ALGORITHM this) (keyBytes (encryptionKey this))
              UsageDecrypt) as [msg|cryptoKey] eqn:Hik.
  { exists (inl (lit "Failed to import encryption key: " ++ msg, 1)), [imported].
    intros [n cs en ep]. unfold decryptAttempt, bind.
    rewrite base64ToArrayBuffer_unfold, Hatob, Hlen by assumption.
    unfold importKey, tryCatch, bind, call, await. rewrite Hik. reflexivity. }
  set (decrypted := CallDecrypt (ALGORITHM this) iv ciphertext).
  destruct (subtle_decrypt P (ALGORITHM this) cryptoKey iv ciphertext)
    as [msg|decryptedBuffer] eqn:Hd.
  { exists (inl (msg, 0)), [imported; decrypted].
    intros [n cs en ep]. unfold decryptAttempt, bind.
    rewrite base64ToArrayBuffer_unfold, Hatob, Hlen by assumption.
    unfold importKey, tryCatch, bind, call, await. rewrite Hik. unfold ret.
    fold iv. fold ciphertext. rewrite Hd. reflexivity. }
  destruct (JSON_parse P (TextDecoder_decode P decryptedBuffer)) as [rawData|] eqn:Hj.
  2:{ exists (inl (lit "Invalid JSON format in decrypted payload", 0)),
             [imported; decrypted].
      intros [n cs en ep]. unfold decryptAttempt, bind.
      rewrite base64ToArrayBuffer_unfold, Hatob, Hlen by assumption.
      unfold importKey, tryCatch, bind, call, await. rewrite Hik. unfold ret.
      fold iv. fold ciphertext. rewrite Hd.
      unfold parseInstructionSet. rewrite Hj. reflexivity. }
  destruct (validate_replay rawData) as (o & Ho).
  exists o, [imported; decrypted].
  intros [n cs en ep]. unfold decryptAttempt, bind.
  rewrite base64ToArrayBuffer_unfold, Hatob, Hlen by assumption.
  unfold importKey, tryCatch, bind, call, await. rewrite Hik. unfold ret.
  fold iv. fold ciphertext. rewrite Hd.
  unfold parseInstructionSet. rewrite Hj, Ho.
  destruct o as [[msg k]|v]; reflexivity.
Qed.

Lemma outer_catch (e : JsError) (w : World) :
  (_ <- handleDecryptionError e ;; throw (A := JsValue) e) w = sanitized e w.
Proof.
  unfold bind, handleDecryptionError, sanitized, sensitive.
  destruct (includes (lit "decrypt") (message e) || includes (lit "key") (message e));
    reflexivity.
Qed.

(** [decrypt] in terms of its attempts. *)
Lemma decrypt_unfold (this : Config) (payload : JsString) (w : World) :
  payload <> [] ->
  validateDecryptionKey this = true ->
  decrypt P this payload w =
  match decryptAttempt P this payload w with
  | (inr v, w1) => (inr v, w1)
  | (inl e1, w1) =>
      if negb (JsStr.eqb (fixPayloadFormat payload) payload) then
        match decryptAttempt P this (fixPayloadFormat payload) w1 with
        | (inr v, w2) => (inr v, w2)
        | (inl e2, w2) => sanitized e2 w2
        end
      else sanitized e1 w1
  end.
Proof.
  intros Hne Hkey. unfold decrypt, tryCatch.
  destruct payload as [|u s]; [congruence|]. cbn [isEmpty].
  rewrite Hkey. cbn [negb].
  destruct (decryptAttempt P this (u :: s) w) as [[e1|v] w1]; [|reflexivity].
  destruct (negb (JsStr.eqb (fixPayloadFormat (u :: s)) (u :: s))).
  - destruct (decryptAttempt P this (fixPayloadFormat (u :: s)) w1) as [[e2|v] w2];
      [apply outer_catch | reflexivity].
  - apply outer_catch.
Qed.

(** C5, as the code has it.  Let the first attempt fail with the error
    [e1].  If [fixPayloadFormat] changes the payload, the retry is made; it
    fails as well, with a new error object [e2] that carries the message
    of [e1], and it is [e2], the failure of the retry, that [decrypt]
    hands to its error handler and propagates.  The error [e1] of the
    first attempt is propagated only when [fixPayloadFormat] leaves the
    payload unchanged, in which case no retry is made. *)
Theorem C5_retry_failure_propagates
    (this : Config) (payload : JsString) (w w1 : World) (e1 : JsError) :
  payload <> [] ->
  validateDecryptionKey this = true ->
  decryptAttempt P this payload w = (inl e1, w1) ->
  (fixPayloadFormat payload <> payload ->
   exists e2 w2,
     decryptAttempt P this (fixPayloadFormat payload) w1 = (inl e2, w2)
     /\ errId e2 <> errId e1
     /\ message e2 = message e1
     /\ originalError e2 = originalError e1
     /\ decrypt P this payload w = sanitized e2 w2)
  /\ (fixPayloadFormat payload = payload ->
      decrypt P this payload w = sanitized e1 w1).
Proof.
  intros Hne Hkey H1.
  destruct (decryptAttempt_replay this payload Hne) as (o & cs & Hreplay).
  split.
  - intros Hfix.
    pose proof (Hreplay w) as Hw. rewrite H1 in Hw.
    pose proof (Hreplay w1) as Hw1.
    rewrite <- (decryptAttempt_fixed P this payload w1 Hne) in Hw1.
    destruct o as [[msg k]|v]; [|discriminate Hw].
    cbn in Hw. injection Hw as -> ->.
    do 2 eexists. split; [exact Hw1|].
    cbn [errId message originalError nextError].
    repeat split; [lia|].
    rewrite decrypt_unfold, H1 by assumption.
    destruct (JsStr_eqb_spec (fixPayloadFormat payload) payload) as [E|_];
      [contradiction|].
    cbn [negb]. rewrite Hw1. reflexivity.
  - intros Hfix.
    rewrite decrypt_unfold, H1 by assumption.
    destruct (JsStr_eqb_spec (fixPayloadFormat payload) payload) as [_|E];
      [reflexivity | contradiction].
Qed.

(** C4 on the code.  When the AEAD decryption succeeds and the plaintext
    does not parse as JSON, the error "Invalid JSON format in decrypted
    payload" is raised; its message contains "decrypt", so the handler
    replaces it: [decrypt] rejects with the generic message and keeps the
    JSON message as [originalError] only. *)
Theorem C4_invalid_json_is_sanitized
    (this : Config) (payload binaryString : JsString) (w : World)
    (cryptoKey : CryptoKey P) (decryptedBuffer : list byte) :
  let encryptedData := charCodes binaryString in
  let iv := firstn (IV_LENGTH this) encryptedData in
  let ciphertext := skipn (IV_LENGTH this) encryptedData in
  payload <> [] ->
  validateDecryptionKey this = true ->
  atob (normalized payload) = Some binaryString ->
  IV_LENGTH this + TAG_LENGTH this + 1 <= length encryptedData ->
  subtle_importKey P (ALGORITHM this) (keyBytes (encryptionKey this)) UsageDecrypt
  = inr cryptoKey ->
  subtle_decrypt P (ALGORITHM this) cryptoKey iv ciphertext = inr decryptedBuffer ->
  JSON_parse P (TextDecoder_decode P decryptedBuffer) = None ->
  exists e w',
    decrypt P this payload w = (inl e, w')
    /\ message e = lit "Failed to process encrypted payload"
    /\ originalError e = Some (lit "Invalid JSON format in decrypted payload").
Proof.
  intros encryptedData iv ciphertext Hne Hkey Hatob Hlen Hik Hd Hj.
  assert (Hlong : (length (charCodes binaryString)
                   <? IV_LENGTH this + TAG_LENGTH this + 1) = false)
    by (apply Nat.ltb_ge; exact Hlen).
  assert (Hattempt : forall w0,
             decryptAttempt P this payload w0
             = replay (inl (lit "Invalid JSON format in decrypted payload", 0))
                 [CallImportKey (ALGORITHM this) (keyBytes (encryptionKey this))
                    UsageDecrypt;
                  CallDecrypt (ALGORITHM this) iv ciphertext] w0).
  { intros [n cs en ep]. unfold decryptAttempt, bind.
    rewrite base64ToArrayBuffer_unfold, Hatob, Hlong by assumption.
    unfold importKey, tryCatch, bind, call, await. rewrite Hik. unfold ret.
    fold encryptedData. fold iv. fold ciphertext. rewrite Hd.
    unfold parseInstructionSet. rewrite Hj. reflexivity. }
  rewrite decrypt_unfold, Hattempt by assumption. cbn [replay].
  destruct (negb (JsStr.eqb (fixPayloadFormat payload) payload)).
  - rewrite decryptAttempt_fixed, Hattempt by assumption. cbn [replay].
    do 2 eexists. split; [reflexivity|]. split; reflexivity.
  - do 2 eexists. split; [reflexivity|]. split; reflexivity.
Qed.

End DecryptFailures.

(** ** The service on concrete payloads *)

Section ServiceExamples.

Import DecryptionService.

Lemma C3_click_url_required_witness :
  (exists e w',
      validateInstructionSet Reference.platform
        (VObject [(lit "image_url", VString (lit "https://example.com/image.jpg"))])
        initialWorld = (inl e, w')
      /\ originalError e = None
      /\ message e
         = lit "Invalid instruction set - click_url is required and must be a string")
  /\ validateInstructionSet Reference.platform
       (VObject [(lit "click_url", VString (lit "https://x.test"))]) initialWorld
     = (inr (clickOnlyInstructionSet (lit "https://x.test")), initialWorld).
Proof.
  destruct (C3_click_url_required Reference.platform) as [Hreject Haccept].
  split.
  - apply (Hreject
             (VObject [(lit "image_url", VString (lit "https://example.com/image.jpg"))])
             initialWorld).
    left. reflexivity.
  - apply (Haccept (lit "https://x.test") initialWorld).
    + discriminate.
    + reflexivity.
Defined.

(** The short payload of the unit tests: base64 of "test". *)
Lemma C6_short_envelope_rejected_witness :
  exists e w',
    decrypt Reference.platform defaults (lit "dGVzdA==") initialWorld = (inl e, w')
    /\ calls w' = calls initialWorld
    /\ message e = lit "Encrypted payload too short - possibly corrupted"
    /\ originalError e = None.
Proof.
  apply (C6_short_envelope_rejected Reference.platform defaults (lit "dGVzdA==")
           initialWorld initialWorld (charCodes (lit "test"))).
  - vm_compute. reflexivity.
  - vm_compute. lia.
Defined.

(** C6 as stated fails in two places.  With the key "short", which
    [setEncryptionKey] accepts, the same payload is rejected with the
    generic message, and not as too short; and the empty string, which
    holds no byte at all, is refused as an invalid payload. *)
Lemma C6_unusable_key_counterexample :
  base64ToArrayBuffer Reference.platform (lit "dGVzdA==") initialWorld
  = (inr (charCodes (lit "test")), initialWorld)
  /\ setEncryptionKey defaults (lit "short") initialWorld
     = (inr shortKeyConfig, initialWorld)
  /\ decrypt Reference.platform shortKeyConfig (lit "dGVzdA==") initialWorld
     = (inl (mkError 1 (lit "Failed to process encrypted payload")
               (Some (lit "Invalid or missing decryption key"))),
        worldAfterErrors 2)
  /\ decrypt Reference.platform defaults [] initialWorld
     = (inl (mkError 0 (lit "Invalid encrypted payload provided") None),
        worldAfterErrors 1).
Proof.
  repeat split; vm_compute; reflexivity.
Qed.

Lemma C5_retry_failure_propagates_witness :
  (fixPayloadFormat unpaddedPayload <> unpaddedPayload ->
   exists e2 w2,
     decryptAttempt Reference.platform defaults (fixPayloadFormat unpaddedPayload)
       (worldAfterErrors 1) = (inl e2, w2)
     /\ errId e2 <> errId (tooShort 0)
     /\ message e2 = message (tooShort 0)
     /\ originalError e2 = originalError (tooShort 0)
     /\ decrypt Reference.platform defaults unpaddedPayload initialWorld
        = sanitized e2 w2)
  /\ (fixPayloadFormat unpaddedPayload = unpaddedPayload ->
      decrypt Reference.platform defaults unpaddedPayload initialWorld
      = sanitized (tooShort 0) (worldAfterErrors 1)).
Proof.
  apply (C5_retry_failure_propagates Reference.platform defaults unpaddedPayload
           initialWorld (worldAfterErrors 1) (tooShort 0)).
  - discriminate.
  - reflexivity.
  - vm_compute. reflexivity.
Defined.

(** C5 as stated fails on the payload "AAA": the first attempt throws the
    error object 0, the retry (on "AAA=") throws the error object 1, and
    [decrypt] rejects with the latter. *)
Lemma C5_original_failure_counterexample :
  fixPayloadFormat unpaddedPayload = lit "AAA="
  /\ decryptAttempt Reference.platform defaults unpaddedPayload initialWorld
     = (inl (tooShort 0), worldAfterErrors 1)
  /\ decryptAttempt Reference.platform defaults (lit "AAA=") (worldAfterErrors 1)
     = (inl (tooShort 1), worldAfterErrors 2)
  /\ decrypt Reference.platform defaults unpaddedPayload initialWorld
     = (inl (tooShort 1), worldAfterErrors 2)
  /\ tooShort 1 <> tooShort 0.
Proof.
  repeat split; try (vm_compute; reflexivity). discriminate.
Qed.

(** C4 at a concrete payload: the JSON error does not reach the caller. *)
Lemma C4_invalid_json_is_sanitized_witness :
  exists e w',
    decrypt Reference.platform defaults invalidJsonPayload initialWorld = (inl e, w')
    /\ message e = lit "Failed to process encrypted payload"
    /\ originalError e = Some (lit "Invalid JSON format in decrypted payload").
Proof.
  apply (C4_invalid_json_is_sanitized Reference.platform defaults invalidJsonPayload
           invalidJsonEnvelope initialWorld
           (keyBytes (encryptionKey defaults), UsageDecrypt)
           (TextEncoder_encode (lit "{ invalid json }"))).
  - discriminate.
  - reflexivity.
  - vm_compute. reflexivity.
  - vm_compute. lia.
  - reflexivity.
  - vm_compute. reflexivity.
  - vm_compute. reflexivity.
Defined.

End ServiceExamples.

(** ** The key material *)

Section KeyMaterial.

Import DecryptionService.

Lemma TextEncoder_ascii (s : JsString) :
  isAscii s = true -> TextEncoder_encode s = charCodes s.
Proof.
  induction s as [|u s IH]; [reflexivity|].
  cbn [isAscii forallb]. intros H. apply andb_true_iff in H.
  destruct H as [Hu Hs]. apply N.ltb_lt in Hu.
  cbn [TextEncoder_encode charCodes map].
  assert (Hh : isHighSurrogate u = false).
  { unfold isHighSurrogate. apply andb_false_iff. left. apply N.leb_gt. lia. }
  assert (Hl : isLowSurrogate u = false).
  { unfold isLowSurrogate. apply andb_false_iff. left. apply N.leb_gt. lia. }
  rewrite Hh, Hl. unfold utf8_scalar.
  replace (u <? 128)%N with true by (symmetry; apply N.ltb_lt; assumption).
  cbn [app]. f_equal. apply IH. exact Hs.
Qed.

Lemma In_firstn (A : Type) (n : nat) (l : list A) (x : A) :
  In x (firstn n l) -> In x l.
Proof.
  revert l. induction n as [|n IH]; intros [|y l]; cbn; try tauto.
  intros [->|H]; [now left | right; now apply IH].
Qed.

(** The padded and truncated key has 32 UTF-16 code units. *)
Lemma paddedKey_length (keyString : JsString) :
  length (substring0 32 (padEnd 32 48%N keyString)) = 32.
Proof.
  unfold substring0, padEnd.
  rewrite length_firstn, length_app, repeat_length. lia.
Qed.

(** For an ASCII key the imported material is 32 bytes: the key, padded
    with ['0'] and cut at 32 characters, one byte per character. *)
Lemma keyBytes_ascii (keyString : JsString) :
  isAscii keyString = true ->
  keyBytes keyString = charCodes (substring0 32 (padEnd 32 48%N keyString))
  /\ length (keyBytes keyString) = 32.
Proof.
  intros Hascii.
  assert (H : isAscii (substring0 32 (padEnd 32 48%N keyString)) = true).
  { unfold isAscii, substring0, padEnd. apply forallb_forall.
    intros u Hu. apply In_firstn in Hu. apply in_app_or in Hu.
    destruct Hu as [Hu|Hu].
    - unfold isAscii in Hascii.
      rewrite forallb_forall in Hascii. now apply Hascii.
    - apply repeat_spec in Hu. now subst. }
  unfold keyBytes. rewrite TextEncoder_ascii by assumption.
  split; [reflexivity|].
  unfold charCodes. rewrite length_map. apply paddedKey_length.
Qed.

(** C7 on the code, at [accentedKey]: the key passes the length check of
    [validateDecryptionKey], its padded form has 32 characters, and the
    material handed to [crypto.subtle.importKey], by [encrypt] and by
    [decrypt] alike, has 33 bytes. *)
Lemma C7_accented_key_material :
  let accented := mkConfig accentedKey (lit "AES-GCM") 256 12 16 in
  validateDecryptionKey accented = true
  /\ length (substring0 32 (padEnd 32 48%N accentedKey)) = 32
  /\ length (keyBytes accentedKey) = 33
  /\ calls (snd (encrypt Reference.platform accented scenarioInstructionSet initialWorld))
     = [CallImportKey (lit "AES-GCM") (keyBytes accentedKey) UsageEncrypt]
  /\ calls (snd (decrypt Reference.platform accented
                   (lit "AAAAAAAAAAAAAAAAAAAAAAAAAAAAAAAAAAAAAAAA") initialWorld))
     = [CallImportKey (lit "AES-GCM") (keyBytes accentedKey) UsageDecrypt].
Proof. cbv zeta. repeat split; vm_compute; reflexivity. Qed.

End KeyMaterial.

(** ** Properties of the click handler *)

Section ClickProperties.

Import ClickHandler.

Variable P : Platform.
Variable B : Browser.

(** C10.  Every execution of [processClickAction] that gets past the
    instruction-set check ends with [isProcessingClick] reset to [false]:
    whatever the race of the deeplink attempt gives, whether or not routing
    or the error handler throws, and whatever other callbacks did to the
    handler while the execution was suspended. *)
Theorem C10_guard_released (actionType : JsString) (s : State) (w : World) :
  ToBoolean (instructionSet s) = true ->
  isProcessingClick (stateAfter (processClickAction P B actionType s w)) = false.
Proof.
  intros Hset.
  unfold processClickAction, bindH, this, assign, tryFinallyH.
  rewrite Hset. cbn [negb].
  match goal with
  | |- context [tryCatchH ?m ?h ?s0 ?w0] => destruct (tryCatchH m h s0 w0) as [[r s1] w1]
  end.
  reflexivity.
Qed.

(** An execution that finds no instruction set returns at once and leaves
    the handler as it was. *)
Lemma processClickAction_without_instructions
    (actionType : JsString) (s : State) (w : World) :
  ToBoolean (instructionSet s) = false ->
  processClickAction P B actionType s w = (inr tt, s, w).
Proof.
  intros Hnone. unfold processClickAction, bindH, this. rewrite Hnone. reflexivity.
Qed.

Lemma readInstruction_held (k : JsString) (s : State) (w : World) :
  ToBoolean (instructionSet s) = true ->
  readInstruction B k s w = (inr (get (instructionSet s) k), s, w).
Proof.
  intros Hset. unfold readInstruction, bindH, this.
  destruct (instructionSet s); try discriminate Hset; reflexivity.
Qed.

(** The delay [scheduleAutoClick] arms the timer with. *)
Lemma scheduleAutoClick_delay (s : State) (w : World) :
  ToBoolean (instructionSet s) = true ->
  ToBoolean (get (instructionSet s) (lit "auto_click")) = true ->
  autoClickTimer s = None ->
  worldAfter (scheduleAutoClick B s w)
  = mkWorld (nextError w)
      (calls w ++ [CallSetTimeout (S (length (calls w)))
                     (Js.or (get (instructionSet s) (lit "auto_click_delay"))
                        (VNumber DEFAULT_AUTO_CLICK_DELAY))])
      (entropy w) (entropyPos w).
Proof.
  intros Hset Hauto Hnone.
  unfold scheduleAutoClick, bindH.
  rewrite readInstruction_held by assumption.
  rewrite Hauto. cbn [negb]. unfold this. rewrite Hnone. unfold retH.
  rewrite readInstruction_held by assumption.
  reflexivity.
Qed.

(** C8 on the code: with [auto_click_delay: 0] the timer is armed with the
    3000 ms default, as it is when the delay is absent; a delay of 5000 is
    used as given. *)
Lemma C8_zero_delay_uses_default :
  calls (worldAfter (initialize B zeroDelayInstructionSet create initialWorld))
  = [CallSetTimeout 1 (VNumber 3000%float)]
  /\ calls (worldAfter
              (initialize B (Js.set zeroDelayInstructionSet (lit "auto_click_delay")
                               VUndefined) create initialWorld))
     = [CallSetTimeout 1 (VNumber 3000%float)]
  /\ calls (worldAfter
              (initialize B (Js.set zeroDelayInstructionSet (lit "auto_click_delay")
                               (VNumber 5000%float)) create initialWorld))
     = [CallSetTimeout 1 (VNumber 5000%float)].
Proof. repeat split. Qed.

Lemma navigations_app (cs cs' : list Call) :
  navigations (cs ++ cs') = navigations cs ++ navigations cs'.
Proof. apply flat_map_app. Qed.

Lemma held_of_get (v : JsValue) (k : JsString) (x : JsString) :
  get v k = VString x -> ToBoolean v = true.
Proof. destruct v; cbn; try discriminate; reflexivity. Qed.

(** Stepping through a computation. *)

Lemma bindH_assoc {A A' A''} (m : H A) (g : A -> H A') (f : A' -> H A'')
    (s : State) (w : World) :
  bindH (bindH m g) f s w = bindH m (fun a => bindH (g a) f) s w.
Proof. unfold bindH. destruct (m s w) as [[[e|a] s'] w']; reflexivity. Qed.

Lemma bindH_ret {A A'} (a : A) (f : A -> H A') (s : State) (w : World) :
  bindH (retH a) f s w = f a s w.
Proof. reflexivity. Qed.

Lemma bindH_this {A} (f : State -> H A) (s : State) (w : World) :
  bindH this f s w = f s s w.
Proof. reflexivity. Qed.

Lemma bindH_assign {A} (g : State -> State) (f : unit -> H A) (s : State) (w : World) :
  bindH (assign g) f s w = f tt (g s) w.
Proof. reflexivity. Qed.

Lemma bindH_call {A} (c : Call) (f : unit -> H A) (s : State) (w : World) :
  bindH (liftM (call c)) f s w
  = f tt s (mkWorld (nextError w) (calls w ++ [c]) (entropy w) (entropyPos w)).
Proof. reflexivity. Qed.

Lemma bindH_throwNew {A A'} (msg : JsString) (f : A -> H A') (s : State) (w : World) :
  bindH (liftM (throwNew msg)) f s w
  = (inl (mkError (nextError w) msg None), s,
     mkWorld (S (nextError w)) (calls w) (entropy w) (entropyPos w)).
Proof. reflexivity. Qed.

Lemma bindH_read {A} (k : JsString) (f : JsValue -> H A) (s : State) (w : World) :
  ToBoolean (instructionSet s) = true ->
  bindH (readInstruction B k) f s w = f (get (instructionSet s) k) s w.
Proof.
  intros Hset. unfold bindH at 1. now rewrite readInstruction_held.
Qed.

Lemma bindH_await {A A'} (m : H A) (f : A -> H A') (s : State) (w : World) :
  bindH (awaitH B m) f s w
  = match m s w with
    | (inr a, s', w') => f a (whileSuspended B s') w'
    | (inl e, s', w') => (inl e, whileSuspended B s', w')
    end.
Proof. unfold bindH, awaitH. destruct (m s w) as [[[e|a] s'] w']; reflexivity. Qed.

Lemma bindH_tryCatch {A A'} (m : H A) (h : JsError -> H A) (f : A -> H A')
    (s : State) (w : World) :
  bindH (tryCatchH m h) f s w
  = match m s w with
    | (inr a, s', w') => f a s' w'
    | (inl e, s', w') => bindH (h e) f s' w'
    end.
Proof. unfold bindH, tryCatchH. destruct (m s w) as [[[e|a] s'] w']; reflexivity. Qed.

Lemma tryCatchH_run {A} (m : H A) (h : JsError -> H A) (s : State) (w : World) :
  tryCatchH m h s w
  = match m s w with
    | (inr a, s', w') => (inr a, s', w')
    | (inl e, s', w') => h e s' w'
    end.
Proof. unfold tryCatchH. destruct (m s w) as [[[e|a] s'] w']; reflexivity. Qed.

Lemma tryFinallyH_run {A} (m : H A) (fin : H unit) (s : State) (w : World) :
  tryFinallyH m fin s w
  = match m s w with
    | (r, s', w') =>
        match fin s' w' with
        | (inr _, s'', w'') => (r, s'', w'')
        | (inl e, s'', w'') => (inl e, s'', w'')
        end
    end.
Proof. reflexivity. Qed.

Lemma assign_run (g : State -> State) (s : State) (w : World) :
  assign g s w = (inr tt, g s, w).
Proof. reflexivity. Qed.

Lemma call_run (c : Call) (s : State) (w : World) :
  liftM (call c) s w
  = (inr tt, s, mkWorld (nextError w) (calls w ++ [c]) (entropy w) (entropyPos w)).
Proof. reflexivity. Qed.

Lemma throwNew_run {A} (msg : JsString) (s : State) (w : World) :
  liftM (throwNew (A := A) msg) s w
  = (inl (mkError (nextError w) msg None), s,
     mkWorld (S (nextError w)) (calls w) (entropy w) (entropyPos w)).
Proof. reflexivity. Qed.

Lemma retH_run {A} (a : A) (s : State) (w : World) : retH a s w = (inr a, s, w).
Proof. reflexivity. Qed.

Ltac held Hpres :=
  cbn [instructionSet setProcessingClick setInstructionSet setAutoClickTimer
         setListenersSetup];
  rewrite ?Hpres;
  cbn [instructionSet setProcessingClick setInstructionSet setAutoClickTimer
         setListenersSetup];
  assumption.

Ltac simpl_state :=
  progress cbn [instructionSet setProcessingClick setInstructionSet setAutoClickTimer
                  setListenersSetup fst snd negb andb orb
                  ToBoolean isString isEmpty text stateAfter worldAfter outcome
                  calls nextError entropy entropyPos message].

Ltac run Hpres facts :=
  repeat first
    [ rewrite bindH_assoc
    | rewrite bindH_read by held Hpres
    | rewrite bindH_ret
    | rewrite bindH_this
    | rewrite bindH_assign
    | rewrite bindH_call
    | rewrite bindH_throwNew
    | rewrite bindH_await
    | rewrite bindH_tryCatch
    | rewrite readInstruction_held by held Hpres
    | rewrite tryCatchH_run
    | rewrite tryFinallyH_run
    | rewrite assign_run
    | rewrite call_run
    | rewrite throwNew_run
    | rewrite retH_run
    | progress facts
    | progress rewrite ?Hpres
    | simpl_state ].

(** C2.  With [deeplink_priority] set and both targets present (the click
    target being a URL, as validation guarantees), and the instruction set
    still held when the execution resumes: the window is navigated to
    [click_url] exactly once when the deeplink attempt resolves [false] or
    is rejected, and not at all when it resolves [true]. *)
Theorem C2_deeplink_priority_fallback
    (actionType deeplink click : JsString) (s : State) (w : World) :
  get (instructionSet s) (lit "deeplink_url") = VString deeplink ->
  deeplink <> [] ->
  get (instructionSet s) (lit "click_url") = VString click ->
  click <> [] ->
  ToBoolean (get (instructionSet s) (lit "deeplink_priority")) = true ->
  URL_parses P (VString click) = true ->
  (forall s', instructionSet (whileSuspended B s') = instructionSet s') ->
  navigations (calls (worldAfter (processClickAction P B actionType s w)))
  = navigations (calls w)
    ++ match deeplinkRace B deeplink with
       | Resolved true => []
       | Resolved false | Rejected _ => [VString click]
       end.
Proof.
  intros Hd Hdne Hc Hcne Hp Hurl Hpres.
  pose proof (held_of_get _ _ _ Hd) as Hset.
  destruct deeplink as [|d0 dr]; [congruence|].
  destruct click as [|c0 cr]; [congruence|].
  unfold processClickAction, route, attemptDeeplinkWithFallback, attemptDeeplinkOpen,
    openClickUrl, trackClickAction.
  destruct (deeplinkRace B (d0 :: dr)) as [[|]|msg] eqn:Hrace;
    destruct (firebaseService B);
    run Hpres ltac:(rewrite ?Hset, ?Hd, ?Hc, ?Hp, ?Hurl, ?Hrace);
    rewrite ?navigations_app; cbn [navigations flat_map app];
    rewrite ?app_nil_r; reflexivity.
Qed.

(** *** What is recorded *)

Lemma quiet_ret {A} (a : A) : quiet (retH a).
Proof. intros s w. split; reflexivity. Qed.

Lemma quiet_bind {A A'} (m : H A) (f : A -> H A') :
  quiet m -> (forall a, quiet (f a)) -> quiet (bindH m f).
Proof.
  intros Hm Hf s w. specialize (Hm s w). unfold bindH.
  destruct (m s w) as [[[e|a] s'] w']; cbn in Hm |- *; [exact Hm|].
  destruct Hm as [Hcalls Hset]. specialize (Hf a s' w').
  destruct Hf as [Hcalls' Hset']. split; congruence.
Qed.

Lemma quiet_throwNew {A} (msg : JsString) : quiet (liftM (throwNew (A := A) msg)).
Proof. intros s w. split; reflexivity. Qed.

Lemma quiet_call (c : Call) : isTracking c = false -> quiet (liftM (call c)).
Proof.
  intros Hc s w. split; [|reflexivity].
  cbn. unfold trackingRecords. rewrite filter_app. cbn. rewrite Hc.
  apply app_nil_r.
Qed.

Lemma quiet_read (k : JsString) : quiet (readInstruction B k).
Proof.
  unfold readInstruction. intros s w. unfold bindH, this.
  destruct (instructionSet s) eqn:E; (split; [reflexivity | cbn; now rewrite ?E]).
Qed.

Lemma quiet_tryCatch {A} (m : H A) (h : JsError -> H A) :
  quiet m -> (forall e, quiet (h e)) -> quiet (tryCatchH m h).
Proof.
  intros Hm Hh s w. specialize (Hm s w). unfold tryCatchH.
  destruct (m s w) as [[[e|a] s'] w']; cbn in Hm |- *; [|exact Hm].
  destruct Hm as [Hcalls Hset]. specialize (Hh e s' w').
  destruct Hh as [Hcalls' Hset']. split; congruence.
Qed.

Section Undisturbed.

(** The callbacks that run during a suspension leave the instruction set
    in place. *)
Hypothesis Hpres : forall s', instructionSet (whileSuspended B s') = instructionSet s'.

Lemma quiet_await {A} (m : H A) : quiet m -> quiet (awaitH B m).
Proof.
  intros Hm s w. specialize (Hm s w). unfold awaitH.
  destruct (m s w) as [[r s'] w']; cbn in Hm |- *.
  now rewrite Hpres.
Qed.

Lemma quiet_attemptDeeplinkOpen (url : JsValue) : quiet (attemptDeeplinkOpen B url).
Proof.
  unfold attemptDeeplinkOpen.
  destruct (negb (ToBoolean url) || negb (isString url)); [apply quiet_ret|].
  apply quiet_bind; [now apply quiet_call|]. intros _.
  destruct (deeplinkRace B (text url)); [apply quiet_ret | apply quiet_throwNew].
Qed.

Lemma quiet_openClickUrl (url : JsValue) : quiet (openClickUrl P B url).
Proof.
  unfold openClickUrl.
  destruct (negb (ToBoolean url) || negb (isString url)); [apply quiet_ret|].
  apply quiet_tryCatch; [|intros e; apply quiet_throwNew].
  destruct (URL_parses P url); [now apply quiet_call | apply quiet_throwNew].
Qed.

Lemma quiet_fallback : quiet
  (click_url <~ readInstruction B (lit "click_url") ;;
   if ToBoolean click_url then
     click_url <~ readInstruction B (lit "click_url") ;;
     openClickUrl P B click_url
   else retH tt).
Proof.
  apply quiet_bind; [apply quiet_read|]. intros c.
  destruct (ToBoolean c); [|apply quiet_ret].
  apply quiet_bind; [apply quiet_read|]. intros c'. apply quiet_openClickUrl.
Qed.

Lemma quiet_attemptDeeplinkWithFallback : quiet (attemptDeeplinkWithFallback P B).
Proof.
  unfold attemptDeeplinkWithFallback.
  apply quiet_tryCatch; [|intros e; apply quiet_fallback].
  apply quiet_bind; [apply quiet_read|]. intros d.
  apply quiet_bind; [apply quiet_await, quiet_attemptDeeplinkOpen|]. intros ok.
  destruct (negb ok); [apply quiet_fallback | apply quiet_ret].
Qed.

(** Routing records nothing. *)
Lemma quiet_route : quiet (route P B).
Proof.
  unfold route.
  apply quiet_bind; [apply quiet_read|]. intros p.
  apply quiet_bind; [apply quiet_read|]. intros d.
  apply quiet_bind; [apply quiet_read|]. intros c.
  destruct (ToBoolean p && ToBoolean d); [apply quiet_attemptDeeplinkWithFallback|].
  destruct (ToBoolean c); [apply quiet_openClickUrl|].
  destruct (ToBoolean d); [|apply quiet_ret].
  apply quiet_bind; [apply quiet_await, quiet_attemptDeeplinkOpen|].
  intros _. apply quiet_ret.
Qed.

Lemma trackingRecords_app (cs cs' : list Call) :
  trackingRecords (cs ++ cs') = trackingRecords cs ++ trackingRecords cs'.
Proof. apply filter_app. Qed.

(** What [trackClickAction] adds while an instruction set is held. *)
Lemma trackClickAction_records (actionType : JsString) (s : State) (w : World) :
  ToBoolean (instructionSet s) = true ->
  trackClickAction B actionType s w
  = (inr tt, s,
     mkWorld (nextError w)
       (fold_left (fun l c => l ++ [c]) (expectedRecords B actionType (instructionSet s))
          (calls w))
       (entropy w) (entropyPos w)).
Proof.
  intros Hset. unfold trackClickAction, expectedRecords.
  destruct (firebaseService B);
    run Hpres ltac:(idtac); reflexivity.
Qed.

Lemma fold_snoc (cs cs' : list Call) :
  fold_left (fun l c => l ++ [c]) cs' cs = cs ++ cs'.
Proof.
  revert cs. induction cs' as [|c cs' IH]; intros cs; cbn.
  - now rewrite app_nil_r.
  - rewrite IH, <- app_assoc. reflexivity.
Qed.

Lemma expectedRecords_tracking (actionType : JsString) (iset : JsValue) :
  trackingRecords (expectedRecords B actionType iset) = expectedRecords B actionType iset.
Proof.
  unfold expectedRecords. cbv zeta. destruct (firebaseService B); reflexivity.
Qed.

(** C9, as the code has it.  While an instruction set is held (and stays
    in place across suspensions), [processClickAction] records the action
    exactly when at least one of the two targets is set and the routing
    decision returns without throwing; the record is then the one of
    [expectedRecords].  When neither target is set, or routing throws,
    nothing is recorded. *)
Theorem C9_recorded_after_successful_routing
    (actionType : JsString) (s : State) (w : World) :
  ToBoolean (instructionSet s) = true ->
  trackingRecords (calls (worldAfter (processClickAction P B actionType s w)))
  = trackingRecords (calls w)
    ++ if negb (ToBoolean (get (instructionSet s) (lit "click_url")))
          && negb (ToBoolean (get (instructionSet s) (lit "deeplink_url")))
       then []
       else match outcome (route P B (setProcessingClick true s) w) with
            | inr _ => expectedRecords B actionType (instructionSet s)
            | inl _ => []
            end.
Proof.
  intros Hset.
  unfold processClickAction.
  rewrite bindH_this, Hset. cbn [negb].
  rewrite bindH_assign, tryFinallyH_run, tryCatchH_run.
  rewrite !bindH_read by (cbn; assumption).
  cbn [instructionSet setProcessingClick].
  destruct (negb (ToBoolean (get (instructionSet s) (lit "click_url")))
            && negb (ToBoolean (get (instructionSet s) (lit "deeplink_url")))).
  - cbn. now rewrite app_nil_r.
  - destruct (quiet_route (setProcessingClick true s) w) as [Hcalls Hkept].
    unfold bindH at 1.
    destruct (route P B (setProcessingClick true s) w) as [[[e|[]] s2] w2];
      cbn [outcome fst snd worldAfter stateAfter] in *.
    + unfold handleClickError, showErrorMessage.
      destruct (firebaseService B), (errorMessageElement B); run Hpres ltac:(idtac);
        rewrite ?trackingRecords_app, Hcalls; cbn; now rewrite ?app_nil_r.
    + assert (Hset2 : ToBoolean (instructionSet s2) = true) by now rewrite Hkept.
      rewrite trackClickAction_records by assumption.
      cbn. rewrite fold_snoc, trackingRecords_app, Hcalls, Hkept.
      now rewrite expectedRecords_tracking.
Qed.

End Undisturbed.

End ClickProperties.

(** ** The click handler on concrete instruction sets *)

Section ClickExamples.

Import ClickHandler.

Lemma C2_deeplink_priority_fallback_witness :
  navigations
    (calls (worldAfter
              (processClickAction Reference.platform (page (Resolved false))
                 (lit "manual_click") (armed priorityInstructionSet) initialWorld)))
  = navigations (calls initialWorld) ++ [VString (lit "https://x.test")]
  /\ navigations
       (calls (worldAfter
                 (processClickAction Reference.platform (page (Resolved true))
                    (lit "manual_click") (armed priorityInstructionSet) initialWorld)))
     = navigations (calls initialWorld) ++ [].
Proof.
  split.
  - apply (C2_deeplink_priority_fallback Reference.platform (page (Resolved false))
             (lit "manual_click") (lit "myapp://open") (lit "https://x.test")
             (armed priorityInstructionSet) initialWorld);
      try reflexivity; discriminate.
  - apply (C2_deeplink_priority_fallback Reference.platform (page (Resolved true))
             (lit "manual_click") (lit "myapp://open") (lit "https://x.test")
             (armed priorityInstructionSet) initialWorld);
      try reflexivity; discriminate.
Defined.

Lemma C9_recorded_after_successful_routing_witness :
  trackingRecords
    (calls (worldAfter
              (processClickAction Reference.platform (page (Resolved false))
                 (lit "manual_click") (armed priorityInstructionSet) initialWorld)))
  = trackingRecords (calls initialWorld)
    ++ [ CallTrackClick (lit "manual_click") (VString (lit "myapp://open"))
           (VString (lit "myapp://open"));
         CallLogTracked (lit "manual_click") true true (VBool true) ].
Proof.
  apply (C9_recorded_after_successful_routing Reference.platform (page (Resolved false))
           (fun s' => eq_refl) (lit "manual_click") (armed priorityInstructionSet)
           initialWorld).
  reflexivity.
Defined.

(** C9 as stated fails twice over: with neither target set the execution
    asks nothing of the platform, and when routing throws (here on a click
    target that is no URL) the error is reported and shown, and no action is
    recorded. *)
Lemma C9_nothing_recorded_counterexample :
  calls (worldAfter
           (processClickAction Reference.platform (page (Resolved true))
              (lit "manual_click") (armed imageOnlyInstructionSet) initialWorld))
  = []
  /\ calls (worldAfter
              (processClickAction Reference.platform (page (Resolved true))
                 (lit "manual_click") (armed brokenTargetInstructionSet) initialWorld))
     = [ CallReportError (lit "Invalid click URL: not-a-url")
           (lit "click_handler_manual_click");
         CallShowError (lit "Navigation failed. Please try again.") ].
Proof. split; reflexivity. Qed.

(** The guard is released also when routing throws. *)
Lemma C10_guard_released_witness :
  isProcessingClick
    (stateAfter
       (processClickAction Reference.platform (page (Resolved true))
          (lit "manual_click") (armed brokenTargetInstructionSet) initialWorld))
  = false.
Proof.
  apply (C10_guard_released Reference.platform (page (Resolved true))
           (lit "manual_click") (armed brokenTargetInstructionSet) initialWorld).
  reflexivity.
Defined.

End ClickExamples.

(** * Further properties *)

(** ** The decryption service *)

Section PayloadRepair.

Import DecryptionService.

Lemma normChar_rewritten (u : N) :
  normChar u <> SPACE /\ normChar u <> MINUS /\ normChar u <> UNDERSCORE.
Proof.
  unfold normChar, SPACE, PLUS, MINUS, UNDERSCORE, SLASH.
  destruct (N.eqb_spec u 32) as [->|H1]; [repeat split; discriminate|].
  destruct (N.eqb_spec u 45) as [->|H2]; [repeat split; discriminate|].
  destruct (N.eqb_spec u 95) as [->|H3]; [repeat split; discriminate|].
  cbv beta iota zeta.
  destruct (N.eqb_spec u 45); [contradiction|].
  cbv beta iota zeta.
  destruct (N.eqb_spec u 95); [contradiction|].
  repeat split; assumption.
Qed.

Lemma normalized_rewritten (payload : JsString) :
  Forall (fun c => c <> SPACE /\ c <> MINUS /\ c <> UNDERSCORE) (normalized payload).
Proof.
  unfold normalized. rewrite padTo4_padCount. apply Forall_app. split.
  - apply Forall_map, Forall_forall. intros u _. apply normChar_rewritten.
  - apply Forall_forall. intros c Hc. apply repeat_spec in Hc. subst.
    repeat split; discriminate.
Qed.

(** X1. [fixPayloadFormat] is idempotent: its result has a length that is a
    multiple of four and holds no space, [-] or [_], so that repairing it
    again changes nothing.  The enhancer's [fixBase64Format] and the error
    handler's [fixPayloadFormat] compute the same string. *)
Theorem X1_fixPayloadFormat_idempotent (payload : JsString) :
  let fixed := fixPayloadFormat payload in
  fixPayloadFormat fixed = fixed
  /\ (length fixed mod 4 = 0)%nat
  /\ Forall (fun c => c <> SPACE /\ c <> MINUS /\ c <> UNDERSCORE) fixed
  /\ DecryptionEnhancer.fixBase64Format payload = fixed
  /\ ErrorHandler.fixPayloadFormat payload = fixed.
Proof.
  cbv zeta. destruct payload as [|u s].
  - repeat split. constructor.
  - rewrite (fixPayloadFormat_normalized (u :: s)) by discriminate.
    repeat split.
    + rewrite fixPayloadFormat_normalized by (apply normalized_nonempty; discriminate).
      apply normalized_idem.
    + apply padTo4_length.
    + apply normalized_rewritten.
    + rewrite <- (fixPayloadFormat_normalized (u :: s)) by discriminate. reflexivity.
    + rewrite <- (fixPayloadFormat_normalized (u :: s)) by discriminate. reflexivity.
Qed.

Variable P : Platform.

(** X2. Repairing a payload with [fixPayloadFormat] changes neither what
    [base64ToArrayBuffer] makes of it nor the outcome of a decryption
    attempt on it. *)
Theorem X2_fixPayloadFormat_preserves_decoding
    (this : Config) (payload : JsString) (w : World) :
  base64ToArrayBuffer P (fixPayloadFormat payload) w = base64ToArrayBuffer P payload w
  /\ decryptAttempt P this (fixPayloadFormat payload) w = decryptAttempt P this payload w.
Proof.
  destruct payload as [|u s]; [split; reflexivity|].
  split.
  - apply base64ToArrayBuffer_fixed. discriminate.
  - apply decryptAttempt_fixed. discriminate.
Qed.

End PayloadRepair.

Section Decoding.

Import DecryptionService.

Local Open Scope N_scope.

(** Any rewriting [g] of the alphabet that the normalisation undoes. *)
Lemma normalized_variant (g : N -> N) (bs : list byte) :
  (forall i, normChar (g (b64_char i)) = b64_char i) ->
  g EQ = EQ ->
  normalized (map g (encode bs)) = encode bs.
Proof.
  intros Hg Heq. unfold normalized. rewrite map_map.
  unfold encode at 1. rewrite map_app, map_repeat, Heq.
  change (normChar EQ) with EQ. rewrite map_map.
  rewrite (map_ext _ b64_char) by (intros; apply Hg).
  fold (encode bs).
  unfold padTo4.
  replace (length (encode bs) mod 4)%nat with 0%nat; [reflexivity|].
  symmetry. rewrite encode_padTo4. apply padTo4_length.
Qed.

Lemma normalized_stripped (g : N -> N) (bs : list byte) :
  (forall i, normChar (g (b64_char i)) = b64_char i) ->
  (forall i, g (b64_char i) <> EQ) ->
  g EQ = EQ ->
  normalized (stripTrailing EQ (map g (encode bs))) = encode bs.
Proof.
  intros Hg Hne Heq. unfold encode at 1.
  rewrite map_app, map_repeat, Heq.
  rewrite stripTrailing_pads.
  - unfold normalized. rewrite !map_map.
    rewrite (map_ext _ b64_char) by (intros; apply Hg).
    symmetry. apply encode_padTo4.
  - rewrite map_map. apply Forall_map, Forall_forall. intros i _. apply Hne.
Qed.

Lemma normChar_b64 (i : N) : normChar (b64_char i) = b64_char i.
Proof.
  destruct (b64_char_plain i) as (_ & Hm & Hu & Hw).
  unfold normChar.
  assert (Hs : b64_char i <> SPACE).
  { intros E. rewrite E in Hw. discriminate Hw. }
  apply N.eqb_neq in Hs, Hm, Hu. rewrite Hs. cbv zeta. rewrite Hm, Hu. reflexivity.
Qed.

Lemma normChar_spaced_b64 (i : N) :
  normChar (if N.eqb (b64_char i) PLUS then SPACE else b64_char i) = b64_char i.
Proof.
  destruct (N.eqb_spec (b64_char i) PLUS) as [E|_]; [now rewrite E|].
  apply normChar_b64.
Qed.

Variable P : Platform.

Lemma base64ToArrayBuffer_of_normalized (payload : JsString) (bs : list byte) (w : World) :
  bs <> [] -> normalized payload = encode bs ->
  base64ToArrayBuffer P payload w = (inr bs, w).
Proof.
  intros Hbs Hn.
  assert (Hne : payload <> []).
  { intros ->. cbn in Hn. symmetry in Hn. now apply encode_nonempty in Hn. }
  rewrite base64ToArrayBuffer_unfold by assumption.
  rewrite Hn, atob_encode, charCodes_fromCharCode. reflexivity.
Qed.

(** X3. For any non-empty byte sequence, [base64ToArrayBuffer] returns
    exactly those bytes from their standard base64 text, from the URL-safe
    text, from either with the padding removed, and from the text with
    [+] written as a space. *)
Theorem X3_base64ToArrayBuffer_accepts_variants (bs : list byte) (w : World) :
  bs <> [] ->
  let standard := encode bs in
  let urlSafe := replaceAll SLASH UNDERSCORE (replaceAll PLUS MINUS standard) in
  base64ToArrayBuffer P standard w = (inr bs, w)
  /\ base64ToArrayBuffer P (stripTrailing EQ standard) w = (inr bs, w)
  /\ base64ToArrayBuffer P urlSafe w = (inr bs, w)
  /\ base64ToArrayBuffer P (stripTrailing EQ urlSafe) w = (inr bs, w)
  /\ base64ToArrayBuffer P (replaceAll PLUS SPACE standard) w = (inr bs, w).
Proof.
  intros Hbs. cbv zeta.
  assert (Hus : forall s, replaceAll SLASH UNDERSCORE (replaceAll PLUS MINUS s)
                          = map urlSafeChar s).
  { intros s. unfold replaceAll. rewrite map_map. reflexivity. }
  rewrite Hus.
  repeat split; apply base64ToArrayBuffer_of_normalized; try assumption.
  - rewrite <- (map_id (encode bs)) at 1.
    apply (normalized_variant (fun c => c)); [apply normChar_b64 | reflexivity].
  - rewrite <- (map_id (encode bs)) at 1.
    apply (normalized_stripped (fun c => c)); [apply normChar_b64 | | reflexivity].
    intros i. apply (b64_char_plain i).
  - apply normalized_variant; [apply normChar_urlSafe_b64 | reflexivity].
  - apply normalized_stripped;
      [apply normChar_urlSafe_b64 | apply urlSafe_b64_not_eq | reflexivity].
  - apply (normalized_variant (fun u => if N.eqb u PLUS then SPACE else u));
      [apply normChar_spaced_b64 | reflexivity].
Qed.

End Decoding.

Section DecodedLength.

Import DecryptionService.

Lemma dataChars_app (s t : JsString) : dataChars (s ++ t) = dataChars s ++ dataChars t.
Proof. apply filter_app. Qed.

Lemma dataChars_length (s : JsString) : length (dataChars s) <= length s.
Proof. apply filter_length_le. Qed.

Lemma dataChars_pads (n : nat) : dataChars (repeat EQ n) = [].
Proof. induction n as [|n IH]; [reflexivity | exact IH]. Qed.

Lemma dataChars_filter (f : N -> bool) (s : JsString) :
  length (dataChars (filter f s)) <= length (dataChars s).
Proof.
  induction s as [|c s IH]; [constructor|].
  cbn [filter]. destruct (f c); unfold dataChars in *; cbn [filter];
    destruct (negb (N.eqb c EQ)); cbn [length]; lia.
Qed.

Lemma dataChars_rev (s : JsString) : length (dataChars (rev s)) = length (dataChars s).
Proof.
  induction s as [|c s IH]; [reflexivity|].
  cbn [rev]. rewrite dataChars_app, length_app, IH.
  unfold dataChars. cbn [filter]. destruct (negb (N.eqb c EQ)); cbn [length]; lia.
Qed.

Lemma dataChars_removePadding (s : JsString) :
  length (dataChars (removePadding s)) <= length (dataChars s).
Proof.
  unfold removePadding.
  destruct (rev s) as [|a r] eqn:E; [lia|].
  assert (Hs : length (dataChars s) = length (dataChars (a :: r))).
  { rewrite <- E. symmetry. apply dataChars_rev. }
  destruct (N.eqb a EQ); [|lia].
  rewrite Hs.
  destruct r as [|b r'].
  - cbn. lia.
  - destruct (N.eqb b EQ); rewrite dataChars_rev;
      unfold dataChars; cbn [filter];
      repeat match goal with
             | |- context [negb ?c] => destruct (negb c)
             end; cbn [length]; lia.
Qed.

Lemma indices_length (s : JsString) (ix : list N) :
  indices s = Some ix -> length ix = length s /\ dataChars s = s.
Proof.
  revert ix. induction s as [|c s IH]; intros ix H.
  - injection H as <-. split; reflexivity.
  - cbn [indices] in H.
    destruct (b64_index c) as [i|] eqn:Hc; [|discriminate H].
    destruct (indices s) as [r|]; [|discriminate H].
    injection H as <-.
    destruct (IH r eq_refl) as [Hlen Hdata].
    split; [cbn; now rewrite Hlen|].
    unfold dataChars in *. cbn [filter].
    destruct (N.eqb_spec c EQ) as [->|_]; [discriminate Hc|].
    cbn [negb]. now rewrite Hdata.
Qed.

Lemma unsextets_length (ix : list N) : 4 * length (unsextets ix) <= 3 * length ix.
Proof.
  assert (H : forall n ix, length ix <= n -> 4 * length (unsextets ix) <= 3 * length ix).
  { clear ix. induction n as [|n IH]; intros ix Hn.
    - destruct ix; [cbn; lia | cbn in Hn; lia].
    - destruct ix as [|a [|b [|c [|d rest]]]]; cbn [unsextets length app]; try lia.
      assert (Hr : length rest <= n) by (cbn in Hn; lia).
      specialize (IH rest Hr). lia. }
  apply (H (length ix)). lia.
Qed.

Lemma atob_length (s bin : JsString) :
  atob s = Some bin -> 4 * length bin <= 3 * length (dataChars s).
Proof.
  unfold atob. cbv zeta.
  set (d0 := filter (fun u => negb (isAsciiWhitespace u)) s).
  set (d := if (length d0 mod 4 =? 0)%nat then removePadding d0 else d0).
  destruct (length d mod 4 =? 1)%nat; [discriminate|].
  destruct (indices d) as [ix|] eqn:Hix; [|discriminate].
  intros H. injection H as <-.
  destruct (indices_length _ _ Hix) as [Hlen Hdata].
  unfold fromCharCode. rewrite length_map.
  pose proof (unsextets_length ix) as Hu.
  assert (Hd : length d <= length (dataChars s)).
  { rewrite <- Hdata.
    transitivity (length (dataChars d0)); [|apply dataChars_filter].
    unfold d. destruct (length d0 mod 4 =? 0)%nat;
      [apply dataChars_removePadding | lia]. }
  lia.
Qed.

Variable P : Platform.

(** A successful decoding leaves the world as it was. *)
Lemma base64ToArrayBuffer_pure (base64 : JsString) (w w' : World) (bytes : list byte) :
  base64ToArrayBuffer P base64 w = (inr bytes, w') -> w' = w.
Proof.
  intros H.
  assert (Hne : base64 <> []) by (intros ->; discriminate H).
  rewrite base64ToArrayBuffer_unfold in H by assumption.
  destruct (atob (normalized base64)); [|discriminate H].
  now injection H as _ <-.
Qed.

Lemma base64ToArrayBuffer_bound (base64 : JsString) (w w' : World) (bytes : list byte) :
  base64ToArrayBuffer P base64 w = (inr bytes, w') ->
  4 * length bytes <= 3 * length base64.
Proof.
  intros H.
  assert (Hne : base64 <> []) by (intros ->; discriminate H).
  rewrite base64ToArrayBuffer_unfold in H by assumption.
  destruct (atob (normalized base64)) as [bin|] eqn:Hatob; [|discriminate H].
  injection H as <- _.
  apply atob_length in Hatob.
  unfold charCodes. rewrite length_map.
  assert (Hn : length (dataChars (normalized base64)) <= length base64).
  { unfold normalized. rewrite padTo4_padCount, dataChars_app, dataChars_pads, app_nil_r.
    rewrite <- (length_map normChar base64). apply dataChars_length. }
  lia.
Qed.

(** X4. When [base64ToArrayBuffer] returns, it has made no platform call
    and created no error, and the bytes number at most three quarters of
    the characters of the text. *)
Theorem X4_base64ToArrayBuffer_length
    (base64 : JsString) (w w' : World) (bytes : list byte) :
  base64ToArrayBuffer P base64 w = (inr bytes, w') ->
  w' = w /\ 4 * length bytes <= 3 * length base64.
Proof.
  intros H. split.
  - eapply base64ToArrayBuffer_pure. exact H.
  - eapply base64ToArrayBuffer_bound. exact H.
Qed.

(** X5. A payload of fewer than 4/3 (IV_LENGTH + TAG_LENGTH + 1)
    characters, 39 with the default configuration, is always refused by
    [decrypt], and without any platform call: no key is imported and
    nothing is decrypted. *)
Theorem X5_decrypt_short_text (this : Config) (payload : JsString) (w : World) :
  3 * length payload < 4 * (IV_LENGTH this + TAG_LENGTH this + 1) ->
  exists e w', decrypt P this payload w = (inl e, w') /\ calls w' = calls w.
Proof.
  intros Hshort. unfold decrypt, tryCatch.
  destruct payload as [|u s]; cbn [isEmpty].
  { do 2 eexists. split; reflexivity. }
  destruct (validateDecryptionKey this); cbn [negb].
  2:{ do 2 eexists. split; reflexivity. }
  assert (Hattempt : forall w1, exists e1 w2,
             decryptAttempt P this (u :: s) w1 = (inl e1, w2) /\ calls w2 = calls w1).
  { intros w1. unfold decryptAttempt, bind.
    destruct (base64ToArrayBuffer P (u :: s) w1) as [[e1|bytes] w2] eqn:Hd.
    - do 2 eexists. split; [reflexivity|].
      rewrite base64ToArrayBuffer_unfold in Hd by discriminate.
      destruct (atob (normalized (u :: s))); [discriminate Hd|].
      injection Hd as _ <-. reflexivity.
    - pose proof (base64ToArrayBuffer_bound _ _ _ _ Hd) as Hlen.
      pose proof (base64ToArrayBuffer_pure _ _ _ _ Hd) as ->.
      replace (length bytes <? IV_LENGTH this + TAG_LENGTH this + 1)%nat with true
        by (symmetry; apply Nat.ltb_lt; lia).
      do 2 eexists. split; reflexivity. }
  assert (Houter : forall e1 w2, exists e w',
             (_ <- handleDecryptionError e1 ;; throw (A := JsValue) e1) w2 = (inl e, w')
             /\ calls w' = calls w2).
  { intros e1 w2. rewrite outer_catch. unfold sanitized.
    destruct (sensitive (message e1)); do 2 eexists; split; reflexivity. }
  destruct (Hattempt w) as (e1 & w1 & -> & Hc1). cbv beta iota.
  destruct (negb (JsStr.eqb (fixPayloadFormat (u :: s)) (u :: s))).
  - rewrite decryptAttempt_fixed by discriminate.
    destruct (Hattempt w1) as (e2 & w2 & -> & Hc2). cbv beta iota.
    destruct (Houter e2 w2) as (e & w' & -> & Hc).
    exists e, w'. split; [reflexivity | congruence].
  - change (@throw JsValue e1 w1) with (@inl JsError JsValue e1, w1). cbv beta iota.
    destruct (Houter e1 w1) as (e & w' & -> & Hc).
    exists e, w'. split; [reflexivity | congruence].
Qed.

End DecodedLength.

Section ServiceErrors.

Import DecryptionService.

Variable P : Platform.

(** X6. [setEncryptionKey] accepts any non-empty key, also one of fewer
    than 16 characters; every later [decrypt] of a non-empty payload then
    throws the generic message, with the key message as original error,
    and makes no platform call. *)
Theorem X6_short_key_accepted_then_refused
    (this : Config) (key payload : JsString) (w : World) :
  key <> [] -> length key < 16 -> payload <> [] ->
  exists this',
    setEncryptionKey this key w = (inr this', w)
    /\ encryptionKey this' = key
    /\ decrypt P this' payload w
       = (inl (mkError (S (nextError w)) (lit "Failed to process encrypted payload")
                 (Some (lit "Invalid or missing decryption key"))),
          mkWorld (S (S (nextError w))) (calls w) (entropy w) (entropyPos w)).
Proof.
  intros Hkey Hlen Hpayload.
  destruct key as [|k ks]; [congruence|].
  destruct payload as [|u s]; [congruence|].
  eexists. split; [reflexivity|]. split; [reflexivity|].
  unfold decrypt, tryCatch. cbn [isEmpty].
  assert (Hv : validateDecryptionKey
                 (mkConfig (k :: ks) (ALGORITHM this) (KEY_LENGTH this) (IV_LENGTH this)
                    (TAG_LENGTH this)) = false).
  { unfold validateDecryptionKey. cbn [encryptionKey isEmpty negb andb].
    apply Nat.leb_gt. exact Hlen. }
  rewrite Hv. reflexivity.
Qed.

Lemma validate_failure (data : JsValue) (w w' : World) (e : JsError) :
  validateInstructionSet P data w = (inl e, w') ->
  sensitive (message e) = false
  /\ originalError e = None
  /\ errId e = nextError w
  /\ w' = mkWorld (S (nextError w)) (calls w) (entropy w) (entropyPos w).
Proof.
  unfold validateInstructionSet. cbv zeta.
  repeat match goal with
         | |- context [if ?c then _ else _] => destruct c
         end;
    unfold throwNew, throwNewWith, ret; intros H; try discriminate H;
    injection H as <- <-; repeat split.
Qed.

Lemma replay_failure_message {A} (o : JsString * nat + A) (cs : list Call)
    (w w' : World) (e : JsError) :
  replay o cs w = (inl e, w') ->
  exists k, o = inl (message e, k).
Proof.
  destruct o as [[msg k]|a]; cbn; intros H; [|discriminate H].
  injection H as <- _. now exists k.
Qed.

(** X7. When the decrypted JSON is refused by [validateInstructionSet],
    [decrypt] throws an error with the message of the validation itself,
    and with no original error attached. *)
Theorem X7_validation_error_propagates
    (this : Config) (payload binaryString : JsString) (w w0 w0' : World)
    (cryptoKey : CryptoKey P) (decryptedBuffer : list byte)
    (rawData : JsValue) (e0 : JsError) :
  let encryptedData := charCodes binaryString in
  let iv := firstn (IV_LENGTH this) encryptedData in
  let ciphertext := skipn (IV_LENGTH this) encryptedData in
  payload <> [] ->
  validateDecryptionKey this = true ->
  atob (normalized payload) = Some binaryString ->
  IV_LENGTH this + TAG_LENGTH this + 1 <= length encryptedData ->
  subtle_importKey P (ALGORITHM this) (keyBytes (encryptionKey this)) UsageDecrypt
  = inr cryptoKey ->
  subtle_decrypt P (ALGORITHM this) cryptoKey iv ciphertext = inr decryptedBuffer ->
  JSON_parse P (TextDecoder_decode P decryptedBuffer) = Some rawData ->
  validateInstructionSet P rawData w0 = (inl e0, w0') ->
  exists e w',
    decrypt P this payload w = (inl e, w')
    /\ message e = message e0
    /\ originalError e = None.
Proof.
  intros encryptedData iv ciphertext Hne Hkey Hatob Hlen Hik Hd Hj Hv.
  destruct (validate_failure _ _ _ _ Hv) as (Hplain & _).
  destruct (validate_replay P rawData) as (o & Ho).
  rewrite Ho in Hv. apply replay_failure_message in Hv. destruct Hv as (k & ->).
  assert (Hlong : (length (charCodes binaryString)
                   <? IV_LENGTH this + TAG_LENGTH this + 1) = false)
    by (apply Nat.ltb_ge; exact Hlen).
  assert (Hattempt : forall w1,
             decryptAttempt P this payload w1
             = replay (inl (message e0, k))
                 [CallImportKey (ALGORITHM this) (keyBytes (encryptionKey this))
                    UsageDecrypt;
                  CallDecrypt (ALGORITHM this) iv ciphertext] w1).
  { intros [n cs en ep]. unfold decryptAttempt, bind.
    rewrite base64ToArrayBuffer_unfold, Hatob, Hlong by assumption.
    unfold importKey, tryCatch, bind, call, await. rewrite Hik. unfold ret.
    fold encryptedData. fold iv. fold ciphertext. rewrite Hd.
    unfold parseInstructionSet. rewrite Hj, Ho. reflexivity. }
  rewrite decrypt_unfold, Hattempt by assumption. cbn [replay].
  destruct (negb (JsStr.eqb (fixPayloadFormat payload) payload)).
  - rewrite decryptAttempt_fixed, Hattempt by assumption. cbn [replay].
    unfold sanitized. cbn [message]. rewrite Hplain.
    do 2 eexists. split; [reflexivity|]. split; reflexivity.
  - unfold sanitized. cbn [message]. rewrite Hplain.
    do 2 eexists. split; [reflexivity|]. split; reflexivity.
Qed.

Lemma startsWith_app (p a b : JsString) :
  startsWith p a = true -> startsWith p (a ++ b) = true.
Proof.
  revert a. induction p as [|x p IH]; intros a H; [reflexivity|].
  destruct a as [|y a]; [discriminate H|].
  cbn in H |- *. apply andb_true_iff in H. destruct H as [-> H].
  cbn. now apply IH.
Qed.

Lemma includes_app (p a b : JsString) :
  includes p a = true -> includes p (a ++ b) = true.
Proof.
  induction a as [|y a IH]; intros H.
  - cbn in H. rewrite orb_false_r in H.
    destruct p; [|discriminate H]. destruct b; reflexivity.
  - cbn [includes] in H. apply orb_true_iff in H.
    change ((y :: a) ++ b) with (y :: (a ++ b)). cbn [includes].
    apply orb_true_iff. destruct H as [H|H].
    + left. now apply (startsWith_app p (y :: a) b).
    + right. now apply IH.
Qed.

(** X8. When the platform refuses the key, [decrypt] throws the generic
    message, with the import message as original error; the import is
    tried once, or twice when [fixPayloadFormat] changes the payload, and
    nothing is decrypted. *)
Theorem X8_import_failure_sanitized
    (this : Config) (payload binaryString msg : JsString) (w : World) :
  let raw := keyBytes (encryptionKey this) in
  payload <> [] ->
  validateDecryptionKey this = true ->
  atob (normalized payload) = Some binaryString ->
  IV_LENGTH this + TAG_LENGTH this + 1 <= length (charCodes binaryString) ->
  subtle_importKey P (ALGORITHM this) raw UsageDecrypt = inl msg ->
  exists e w',
    decrypt P this payload w = (inl e, w')
    /\ message e = lit "Failed to process encrypted payload"
    /\ originalError e = Some (lit "Failed to import encryption key: " ++ msg)
    /\ calls w'
       = calls w
         ++ repeat (CallImportKey (ALGORITHM this) raw UsageDecrypt)
              (if JsStr.eqb (fixPayloadFormat payload) payload then 1 else 2).
Proof.
  intros raw Hne Hkey Hatob Hlen Hik.
  assert (Hlong : (length (charCodes binaryString)
                   <? IV_LENGTH this + TAG_LENGTH this + 1) = false)
    by (apply Nat.ltb_ge; exact Hlen).
  assert (Hattempt : forall w1,
             decryptAttempt P this payload w1
             = replay (inl (lit "Failed to import encryption key: " ++ msg, 1))
                 [CallImportKey (ALGORITHM this) raw UsageDecrypt] w1).
  { intros [n cs en ep]. unfold decryptAttempt, bind.
    rewrite base64ToArrayBuffer_unfold, Hatob, Hlong by assumption.
    unfold importKey, tryCatch, bind, call, await. fold raw. rewrite Hik.
    reflexivity. }
  assert (Hsens : sensitive (lit "Failed to import encryption key: " ++ msg) = true).
  { unfold sensitive. apply orb_true_iff. right. now apply includes_app. }
  rewrite decrypt_unfold, Hattempt by assumption. cbn [replay].
  destruct (JsStr.eqb (fixPayloadFormat payload) payload); cbn [negb].
  - unfold sanitized. cbn [message]. rewrite Hsens.
    do 2 eexists. split; [reflexivity|]. cbn. repeat split.
  - rewrite decryptAttempt_fixed, Hattempt by assumption. cbn [replay].
    unfold sanitized. cbn [message]. rewrite Hsens.
    do 2 eexists. split; [reflexivity|]. cbn. repeat split.
    now rewrite <- app_assoc.
Qed.

(** X9. When the platform's decryption fails, [decrypt] throws the
    platform's message as it is, unless it contains [decrypt] or [key]:
    then it throws the generic message with the platform's message as
    original error.  Import and decryption are called once, or twice when
    [fixPayloadFormat] changes the payload. *)
Theorem X9_aead_failure_propagates
    (this : Config) (payload binaryString msg : JsString) (w : World)
    (cryptoKey : CryptoKey P) :
  let raw := keyBytes (encryptionKey this) in
  let encryptedData := charCodes binaryString in
  let iv := firstn (IV_LENGTH this) encryptedData in
  let ciphertext := skipn (IV_LENGTH this) encryptedData in
  payload <> [] ->
  validateDecryptionKey this = true ->
  atob (normalized payload) = Some binaryString ->
  IV_LENGTH this + TAG_LENGTH this + 1 <= length encryptedData ->
  subtle_importKey P (ALGORITHM this) raw UsageDecrypt = inr cryptoKey ->
  subtle_decrypt P (ALGORITHM this) cryptoKey iv ciphertext = inl msg ->
  exists e w',
    decrypt P this payload w = (inl e, w')
    /\ message e
       = (if sensitive msg then lit "Failed to process encrypted payload" else msg)
    /\ originalError e = (if sensitive msg then Some msg else None)
    /\ calls w'
       = calls w
         ++ concat
              (repeat [CallImportKey (ALGORITHM this) raw UsageDecrypt;
                       CallDecrypt (ALGORITHM this) iv ciphertext]
                 (if JsStr.eqb (fixPayloadFormat payload) payload then 1 else 2)).
Proof.
  intros raw encryptedData iv ciphertext Hne Hkey Hatob Hlen Hik Hd.
  assert (Hlong : (length (charCodes binaryString)
                   <? IV_LENGTH this + TAG_LENGTH this + 1) = false)
    by (apply Nat.ltb_ge; exact Hlen).
  assert (Hattempt : forall w1,
             decryptAttempt P this payload w1
             = replay (inl (msg, 0))
                 [CallImportKey (ALGORITHM this) raw UsageDecrypt;
                  CallDecrypt (ALGORITHM this) iv ciphertext] w1).
  { intros [n cs en ep]. unfold decryptAttempt, bind.
    rewrite base64ToArrayBuffer_unfold, Hatob, Hlong by assumption.
    unfold importKey, tryCatch, bind, call, await. fold raw. rewrite Hik. unfold ret.
    fold encryptedData. fold iv. fold ciphertext. rewrite Hd. reflexivity. }
  rewrite decrypt_unfold, Hattempt by assumption. cbn [replay].
  destruct (JsStr.eqb (fixPayloadFormat payload) payload); cbn [negb].
  - unfold sanitized. cbn [message].
    destruct (sensitive msg); do 2 eexists; (split; [reflexivity|]);
      cbn; rewrite <- ?app_assoc; repeat split.
  - rewrite decryptAttempt_fixed, Hattempt by assumption. cbn [replay].
    unfold sanitized. cbn [message].
    destruct (sensitive msg); do 2 eexists; (split; [reflexivity|]);
      cbn; rewrite <- ?app_assoc; repeat split.
Qed.

(** X10. [encrypt] of an instruction set that [validateInstructionSet]
    refuses throws the validation message behind the prefix of
    [encrypt], makes no platform call and draws no random byte. *)
Theorem X10_encrypt_rejects_invalid
    (this : Config) (instructionSet : JsValue) (w w' : World) (e : JsError) :
  validateInstructionSet P instructionSet w = (inl e, w') ->
  encrypt P this instructionSet w
  = (inl (mkError (S (nextError w)) (lit "Encryption failed: " ++ message e) None),
     mkWorld (S (S (nextError w))) (calls w) (entropy w) (entropyPos w)).
Proof.
  intros Hv. destruct (validate_failure _ _ _ _ Hv) as (_ & _ & _ & Hw).
  unfold encrypt, tryCatch, bind. rewrite Hv. subst w'. reflexivity.
Qed.

End ServiceErrors.

Section EncryptOutput.

Import DecryptionService.

Local Open Scope N_scope.

Lemma urlSafeChar_alphabet (i : N) : urlSafeAlphabet (urlSafeChar (b64_char i)) = true.
Proof.
  pose proof (b64_char_range i) as H. cbv zeta in H.
  generalize dependent (b64_char i). intros c H.
  destruct (N.eq_dec c 43) as [->|]; [reflexivity|].
  destruct (N.eq_dec c 47) as [->|]; [reflexivity|].
  unfold urlSafeChar, PLUS, SLASH.
  replace (N.eqb c 43) with false by (symmetry; apply N.eqb_neq; lia).
  cbv beta iota zeta.
  replace (N.eqb c 47) with false by (symmetry; apply N.eqb_neq; lia).
  unfold urlSafeAlphabet, MINUS, UNDERSCORE.
  repeat match goal with
         | |- context [N.leb ?a ?b] => destruct (N.leb_spec a b)
         | |- context [N.eqb ?a ?b] => destruct (N.eqb_spec a b)
         end; cbn; try reflexivity; lia.
Qed.

Lemma urlSafe_map (s : JsString) :
  replaceAll SLASH UNDERSCORE (replaceAll PLUS MINUS s) = map urlSafeChar s.
Proof. unfold replaceAll. rewrite map_map. reflexivity. Qed.

(** The text [encrypt] makes of the bytes [bs]: the alphabet characters of
    their base64 text, made URL-safe, without the padding. *)
Lemma urlSafe_stripped (bs : list byte) :
  stripTrailing EQ (replaceAll SLASH UNDERSCORE (replaceAll PLUS MINUS (encode bs)))
  = map urlSafeChar (map b64_char (sextets bs)).
Proof.
  rewrite urlSafe_map. unfold encode. rewrite map_app, map_repeat.
  change (urlSafeChar EQ) with EQ.
  apply stripTrailing_pads.
  rewrite map_map. apply Forall_map, Forall_forall. intros i _. apply urlSafe_b64_not_eq.
Qed.

Lemma sextets_length_lower (bs : list byte) :
  (4 * length bs <= 3 * length (sextets bs))%nat.
Proof.
  induction bs as [ | a | a b | a b c rest IH] using list_ind3;
    cbn [sextets app length]; lia.
Qed.

Variable P : Platform.

(** What a successful [encrypt] has done. *)
Lemma encrypt_inversion (this : Config) (instructionSet : JsValue) (w w' : World)
    (payload : JsString) :
  let alg := ALGORITHM this in
  let raw := keyBytes (encryptionKey this) in
  let iv := map (entropy w) (seq (entropyPos w) (IV_LENGTH this)) in
  let plaintext := TextEncoder_encode (JSON_stringify P instructionSet) in
  encrypt P this instructionSet w = (inr payload, w') ->
  exists cryptoKey encryptedBuffer,
    subtle_importKey P alg raw UsageEncrypt = inr cryptoKey
    /\ subtle_encrypt P alg cryptoKey iv plaintext = inr encryptedBuffer
    /\ payload = map urlSafeChar (map b64_char (sextets (iv ++ encryptedBuffer)))
    /\ w' = mkWorld (nextError w)
              (calls w ++ [CallImportKey alg raw UsageEncrypt;
                           CallEncrypt alg iv plaintext])
              (entropy w) (entropyPos w + IV_LENGTH this).
Proof.
  intros alg raw iv plaintext.
  unfold encrypt, tryCatch, bind.
  destruct (validateInstructionSet P instructionSet w) as [[e|v] w1] eqn:Hv;
    [unfold throwNew, throwNewWith; discriminate|].
  destruct (validate_pure P _ _ _ _ Hv) as (-> & _).
  unfold getRandomValues, call, await. cbn [nextError calls entropy entropyPos].
  fold iv. fold plaintext. fold alg. unfold keyBytes in raw. fold raw.
  destruct (subtle_importKey P alg raw UsageEncrypt) as [msg|cryptoKey] eqn:Hik;
    [unfold throwNew, throwNewWith; discriminate|].
  unfold ret, bind, call. cbn [nextError calls entropy entropyPos].
  destruct (subtle_encrypt P alg cryptoKey iv plaintext) as [msg|encryptedBuffer] eqn:He;
    [unfold throwNew, throwNewWith; discriminate|].
  unfold String_fromCharCode_apply.
  destruct (length (iv ++ encryptedBuffer) <=? applyArgumentLimit P)%nat;
    [|unfold throwNew, throwNewWith; discriminate].
  unfold ret.
  rewrite btoa_fromCharCode, urlSafe_stripped.
  intros H. injection H as <- <-.
  exists cryptoKey, encryptedBuffer. repeat split; try assumption.
  now rewrite <- app_assoc.
Qed.

(** X11. With a positive IV_LENGTH, a payload that [encrypt] returns holds
    only letters, digits, [-] and [_]; [encrypt] has drawn exactly
    IV_LENGTH random bytes, and [base64ToArrayBuffer] decodes the payload
    to these bytes followed by the ciphertext. *)
Theorem X11_encrypt_output_url_safe (this : Config) (instructionSet : JsValue)
    (w w' : World) (payload : JsString) :
  let iv := map (entropy w) (seq (entropyPos w) (IV_LENGTH this)) in
  encrypt P this instructionSet w = (inr payload, w') ->
  (0 < IV_LENGTH this)%nat ->
  forallb urlSafeAlphabet payload = true
  /\ entropyPos w' = (entropyPos w + IV_LENGTH this)%nat
  /\ exists encryptedBuffer,
       base64ToArrayBuffer P payload w' = (inr (iv ++ encryptedBuffer), w').
Proof.
  intros iv Henc Hiv.
  destruct (encrypt_inversion _ _ _ _ _ Henc)
    as (cryptoKey & encryptedBuffer & _ & _ & Hp & Hw).
  fold iv in Hp.
  split; [|split].
  - rewrite Hp. apply forallb_forall. intros c Hc.
    apply in_map_iff in Hc. destruct Hc as (b & <- & Hb).
    apply in_map_iff in Hb. destruct Hb as (i & <- & _).
    apply urlSafeChar_alphabet.
  - rewrite Hw. reflexivity.
  - exists encryptedBuffer. rewrite Hp, <- urlSafe_stripped.
    apply base64ToArrayBuffer_urlSafe.
    assert (Hl : length iv = IV_LENGTH this)
      by (unfold iv; now rewrite length_map, length_seq).
    intros E. apply (f_equal (@length byte)) in E.
    rewrite length_app in E. cbn in E. lia.
Qed.

Import ParameterParser.

Lemma urlSafeAlphabet_pattern (c : N) :
  urlSafeAlphabet c = true -> base64PatternChar c = true /\ c <> EQ.
Proof.
  unfold urlSafeAlphabet, base64PatternChar, PLUS, SLASH, EQ, MINUS, UNDERSCORE.
  repeat match goal with
         | |- context [N.leb ?a ?b] => destruct (N.leb_spec a b)
         | |- context [N.eqb ?a ?b] => destruct (N.eqb_spec a b)
         end; cbn; intros Htest; try discriminate Htest; split; try reflexivity; lia.
Qed.

Lemma filter_empty_existsb {A} (f : A -> bool) (l : list A) :
  (length (filter f l) =? 0)%nat = negb (existsb f l).
Proof.
  induction l as [|a l IH]; [reflexivity|].
  cbn. destruct (f a); [reflexivity | exact IH].
Qed.

(** X12. With an IV_LENGTH of 12 or more, the parser's
    [validatePayloadFormat] accepts a payload that [encrypt] returned
    exactly when the payload has a character other than [-] and [_]. *)
Theorem X12_encrypt_output_accepted_by_parser (this : Config) (instructionSet : JsValue)
    (w w' : World) (payload : JsString) :
  encrypt P this instructionSet w = (inr payload, w') ->
  (12 <= IV_LENGTH this)%nat ->
  validatePayloadFormat (VString payload)
  = existsb (fun c => negb ((c =? MINUS) || (c =? UNDERSCORE))) payload.
Proof.
  intros Henc Hiv.
  destruct (encrypt_inversion _ _ _ _ _ Henc)
    as (cryptoKey & encryptedBuffer & _ & _ & Hp & _).
  set (iv := map (entropy w) (seq (entropyPos w) (IV_LENGTH this))) in Hp.
  assert (Halpha : Forall (fun c => urlSafeAlphabet c = true) payload).
  { rewrite Hp. apply Forall_map, Forall_map, Forall_forall.
    intros i _. apply urlSafeChar_alphabet. }
  assert (Hlen : (16 <= length payload)%nat).
  { rewrite Hp, !length_map.
    pose proof (sextets_length_lower (iv ++ encryptedBuffer)) as Hl.
    rewrite length_app in Hl. unfold iv in Hl at 1.
    rewrite length_map, length_seq in Hl. lia. }
  clear Hp. unfold validatePayloadFormat, MIN_PAYLOAD_LENGTH.
  destruct payload as [|c0 rest]; [cbn in Hlen; lia|]. cbn [isEmpty].
  replace (length (c0 :: rest) <? 16)%nat with false
    by (symmetry; apply Nat.ltb_ge; exact Hlen).
  assert (Hpat : base64Pattern_test (c0 :: rest) = true).
  { unfold base64Pattern_test. cbn [isEmpty negb andb].
    apply forallb_forall. intros c Hc.
    rewrite Forall_forall in Halpha.
    now apply urlSafeAlphabet_pattern, Halpha. }
  rewrite Hpat. cbn [negb].
  unfold cleanPayload. rewrite filter_empty_existsb.
  generalize (c0 :: rest) Halpha. clear. intros s Halpha.
  assert (E : existsb (fun c => negb ((c =? EQ) || (c =? UNDERSCORE) || (c =? MINUS))) s
              = existsb (fun c => negb ((c =? MINUS) || (c =? UNDERSCORE))) s).
  { induction Halpha as [|c s Hc _ IH]; [reflexivity|].
    cbn [existsb]. rewrite IH. f_equal.
    apply urlSafeAlphabet_pattern in Hc. destruct Hc as [_ Hc].
    apply N.eqb_neq in Hc. rewrite Hc. cbn [orb].
    f_equal. apply orb_comm. }
  rewrite E. clear E Halpha.
  generalize (existsb (fun c => negb ((c =? MINUS) || (c =? UNDERSCORE))) s).
  intros [|]; reflexivity.
Qed.

End EncryptOutput.

Section Validated.

Import DecryptionService.

Variable P : Platform.

Lemma validate_validated (data v : JsValue) (w w' : World) :
  validateInstructionSet P data w = (inr v, w') -> validated P v.
Proof.
  unfold validateInstructionSet, isValidUrl. cbv zeta.
  remember (get data (lit "image_url")) as image_url eqn:E1.
  remember (get data (lit "click_url")) as click_url eqn:E2.
  remember (get data (lit "deeplink_url")) as deeplink_url eqn:E3.
  remember (get data (lit "auto_click")) as auto_click eqn:E4.
  remember (get data (lit "deeplink_priority")) as deeplink_priority eqn:E5.
  remember (get data (lit "auto_click_delay")) as auto_click_delay eqn:E6.
  remember (get data (lit "title")) as title eqn:E7.
  remember (get data (lit "description")) as description eqn:E8.
  clear E1 E2 E3 E4 E5 E6 E7 E8.
  destruct (negb (ToBoolean data) || negb (isObjectType data));
    [unfold throwNew, throwNewWith; discriminate|].
  destruct click_url as [ | | | |click| | ];
    cbn [ToBoolean isString negb orb]; rewrite ?orb_true_r;
    try (unfold throwNew, throwNewWith; discriminate).
  destruct click as [|c0 click];
    [cbn; unfold throwNew, throwNewWith; discriminate|].
  cbn [isEmpty negb orb].
  destruct (ToBoolean image_url && negb (URL_parses P image_url)) eqn:Himage;
    [unfold throwNew, throwNewWith; discriminate|].
  assert (Him : ToBoolean image_url = true -> URL_parses P image_url = true).
  { intros Ht. rewrite Ht in Himage. cbn in Himage.
    now apply negb_false_iff in Himage. }
  change (Js.or (VString (c0 :: click)) VNull) with (VString (c0 :: click)).
  match goal with
  | |- context [get ?o (lit "click_url")] =>
      change (get o (lit "click_url")) with (VString (c0 :: click));
      change (get o (lit "deeplink_url")) with (Js.or deeplink_url VNull)
  end.
  cbn [ToBoolean isEmpty negb andb].
  destruct (URL_parses P (VString (c0 :: click))) eqn:Hclick;
    [|unfold throwNew, throwNewWith; discriminate].
  cbn [negb].
  assert (Hdeep : ToBoolean (Js.or deeplink_url VNull)
                  && negb (isString (Js.or deeplink_url VNull)) = false ->
                  nullOrText (Js.or deeplink_url VNull)).
  { unfold Js.or. destruct (ToBoolean deeplink_url) eqn:Ht; [|now left].
    rewrite Ht. destruct deeplink_url; cbn; try discriminate.
    intros _. right. eexists. split; [reflexivity|].
    destruct s; [discriminate Ht | discriminate]. }
  destruct (ToBoolean (Js.or deeplink_url VNull)
            && negb (isString (Js.or deeplink_url VNull)));
    [unfold throwNew, throwNewWith; discriminate|].
  specialize (Hdeep eq_refl).
  destruct (negb (isUndefined auto_click_delay)).
  - destruct (PrimFloat.is_nan (ToNumber P auto_click_delay)
              || PrimFloat.ltb (ToNumber P auto_click_delay) 0) eqn:Hdelay;
      [unfold throwNew, throwNewWith; discriminate|].
    apply orb_false_elim in Hdelay. destruct Hdelay as [Hnan Hneg].
    unfold ret. intros H. injection H as <- _.
    do 8 eexists. split; [reflexivity|].
    repeat split; try assumption; try discriminate.
    right. eexists. repeat split; eassumption.
  - unfold ret. intros H. injection H as <- _.
    do 8 eexists. split; [reflexivity|].
    repeat split; try assumption; try discriminate.
    now left.
Qed.

Lemma decryptAttempt_validated (this : Config) (payload : JsString) (v : JsValue)
    (w w' : World) :
  decryptAttempt P this payload w = (inr v, w') -> validated P v.
Proof.
  unfold decryptAttempt, bind.
  destruct (base64ToArrayBuffer P payload w) as [[e|encryptedData] w1]; [discriminate|].
  destruct (length encryptedData <? IV_LENGTH this + TAG_LENGTH this + 1);
    [unfold throwNew, throwNewWith; discriminate|].
  destruct (importKey P this (encryptionKey this) w1) as [[e|cryptoKey] w2];
    [discriminate|].
  unfold call. cbv beta iota.
  match goal with
  | |- context [await ?r ?w0] => destruct (await r w0) as [[e|decryptedBuffer] w3]
  end; [discriminate|].
  unfold parseInstructionSet.
  destruct (JSON_parse P (TextDecoder_decode P decryptedBuffer)) as [rawData|];
    [|unfold throwNew, throwNewWith; discriminate].
  apply validate_validated.
Qed.

(** What a successful attempt has asked of the platform. *)
Lemma decryptAttempt_success (this : Config) (payload : JsString) (v : JsValue)
    (w w' : World) :
  decryptAttempt P this payload w = (inr v, w') ->
  exists encryptedData,
    base64ToArrayBuffer P payload w = (inr encryptedData, w)
    /\ w' = mkWorld (nextError w)
              (calls w
               ++ [CallImportKey (ALGORITHM this) (keyBytes (encryptionKey this))
                     UsageDecrypt;
                   CallDecrypt (ALGORITHM this) (firstn (IV_LENGTH this) encryptedData)
                     (skipn (IV_LENGTH this) encryptedData)])
              (entropy w) (entropyPos w).
Proof.
  unfold decryptAttempt, bind.
  destruct (base64ToArrayBuffer P payload w) as [[e|encryptedData] w1] eqn:Hd;
    [discriminate|].
  pose proof (base64ToArrayBuffer_pure _ _ _ _ _ Hd) as ->.
  destruct (length encryptedData <? IV_LENGTH this + TAG_LENGTH this + 1);
    [unfold throwNew, throwNewWith; discriminate|].
  unfold importKey, tryCatch, bind, call, await.
  destruct (subtle_importKey P (ALGORITHM this) (keyBytes (encryptionKey this))
              UsageDecrypt) as [msg|cryptoKey];
    [unfold throwNew, throwNewWith; discriminate|].
  unfold ret. cbv beta iota.
  match goal with
  | |- context [subtle_decrypt ?a ?b ?c ?d ?e] =>
      destruct (subtle_decrypt a b c d e) as [msg|decryptedBuffer]
  end; [unfold throwNew, throwNewWith; discriminate|].
  unfold parseInstructionSet.
  destruct (JSON_parse P (TextDecoder_decode P decryptedBuffer)) as [rawData|];
    [|unfold throwNew, throwNewWith; discriminate].
  intros Hv. destruct (validate_pure P _ _ _ _ Hv) as (-> & _).
  exists encryptedData. split; [reflexivity|].
  cbn [nextError calls entropy entropyPos]. now rewrite <- app_assoc.
Qed.

(** A successful [decrypt] is the success of its first attempt: the retry
    never rescues a payload. *)
Lemma decrypt_first_attempt (this : Config) (payload : JsString) (v : JsValue)
    (w w' : World) :
  decrypt P this payload w = (inr v, w') ->
  decryptAttempt P this payload w = (inr v, w').
Proof.
  intros H.
  destruct payload as [|u s]; [discriminate H|].
  destruct (validateDecryptionKey this) eqn:Hkey.
  2:{ unfold decrypt, tryCatch in H. cbn [isEmpty] in H. rewrite Hkey in H.
      discriminate H. }
  rewrite decrypt_unfold in H by (assumption || discriminate).
  destruct (decryptAttempt_replay P this (u :: s)) as (o & cs & Hreplay);
    [discriminate|].
  destruct (decryptAttempt P this (u :: s) w) as [[e1|v1] w1] eqn:H1; [|exact H].
  exfalso.
  destruct (negb (JsStr.eqb (fixPayloadFormat (u :: s)) (u :: s))).
  - rewrite decryptAttempt_fixed in H by discriminate.
    rewrite Hreplay in H, H1.
    destruct o as [[msg k]|v0]; [|discriminate H1].
    cbn in H. unfold sanitized in H.
    match type of H with
    | context [sensitive ?m] => destruct (sensitive m)
    end; discriminate H.
  - unfold sanitized in H. destruct (sensitive (message e1)); discriminate H.
Qed.

(** X13. What [decrypt] returns is an instruction set as
    [validateInstructionSet] builds them; it is the result of the first
    attempt (the retry on the repaired payload never succeeds), no error
    has been created, and the platform calls are one key import and one
    decryption. *)
Theorem X13_decrypt_success (this : Config) (payload : JsString) (v : JsValue)
    (w w' : World) :
  decrypt P this payload w = (inr v, w') ->
  validated P v
  /\ decryptAttempt P this payload w = (inr v, w')
  /\ nextError w' = nextError w
  /\ exists iv ciphertext,
       calls w'
       = calls w
         ++ [CallImportKey (ALGORITHM this) (keyBytes (encryptionKey this)) UsageDecrypt;
             CallDecrypt (ALGORITHM this) iv ciphertext].
Proof.
  intros H. apply decrypt_first_attempt in H.
  split; [eapply decryptAttempt_validated; exact H|].
  split; [exact H|].
  destruct (decryptAttempt_success _ _ _ _ _ H) as (encryptedData & _ & ->).
  split; [reflexivity|]. do 2 eexists. reflexivity.
Qed.

(** What [decrypt] returns is an instruction set of the validator. *)
Lemma decrypt_validated (this : Config) (payload : JsString) (v : JsValue)
    (w w' : World) :
  decrypt P this payload w = (inr v, w') -> validated P v.
Proof.
  intros H. apply decrypt_first_attempt in H.
  eapply decryptAttempt_validated. exact H.
Qed.

End Validated.

Section Revalidation.

Import DecryptionService.

Variable P : Platform.

Lemma validate_validated_again (v : JsValue) (w : World) :
  validated P v ->
  validateInstructionSet P v w
  = (inr (Js.set v (lit "auto_click_delay") (revalidatedDelay v)), w).
Proof.
  intros (image & click & deeplink & ac & dp & delay & title & description
          & -> & Hne & Hurl & Himage & Hdeep & Hdelay).
  destruct click as [|c0 click]; [congruence|].
  unfold validateInstructionSet, isValidUrl, revalidatedDelay. cbv zeta.
  cbn [ToBoolean isObjectType negb orb].
  repeat match goal with
         | |- context [get (VObject ?props) (lit ?k)] =>
             let r := eval cbv in (get (VObject props) (lit k)) in
             change (get (VObject props) (lit k)) with r
         end.
  assert (Him : ToBoolean image && negb (URL_parses P image) = false).
  { destruct (ToBoolean image); [|reflexivity]. now rewrite Himage. }
  rewrite Him. clear Him Himage.
  destruct Hdeep as [-> | (d & -> & Hd)];
    [|destruct d as [|d0 d]; [congruence|]];
    (destruct Hdelay as [-> | (x & -> & Hnan & Hneg)];
     [|cbn [ToNumber isUndefined negb]; rewrite Hnan, Hneg];
     cbn [ToBoolean isString isEmpty negb orb andb Js.or isUndefined ToNumber];
     repeat match goal with
            | |- context [get (VObject ?props) (lit ?k)] =>
                let r := eval cbv in (get (VObject props) (lit k)) in
                change (get (VObject props) (lit k)) with r
            end;
     cbn [ToBoolean isString isEmpty negb orb andb];
     rewrite Hurl; cbn [negb];
     reflexivity).
Qed.

(** X14. [validateInstructionSet] accepts what it returns.  Validating
    again only turns a [null] delay into 0, and from then on the
    validation returns its argument. *)
Theorem X14_validation_stabilises (data v : JsValue) (w w' : World) :
  validateInstructionSet P data w = (inr v, w') ->
  let v2 := Js.set v (lit "auto_click_delay") (revalidatedDelay v) in
  validateInstructionSet P v w = (inr v2, w)
  /\ validateInstructionSet P v2 w = (inr v2, w)
  /\ (get v (lit "auto_click_delay") = VNull ->
      get v2 (lit "auto_click_delay") = VNumber 0%float).
Proof.
  intros Hv. cbv zeta.
  pose proof (validate_validated P _ _ _ _ Hv) as Hval.
  pose proof (validate_validated_again v w Hval) as H2.
  split; [exact H2|].
  pose proof (validate_validated P _ _ _ _ H2) as Hval2.
  split.
  - rewrite (validate_validated_again _ w Hval2). f_equal. f_equal.
    destruct Hval as (image & click & deeplink & ac & dp & delay & title & description
                      & -> & _ & _ & _ & _ & Hdelay).
    destruct Hdelay as [-> | (x & -> & _)]; reflexivity.
  - intros Hnull.
    destruct Hval as (image & click & deeplink & ac & dp & delay & title & description
                      & -> & _).
    unfold revalidatedDelay. rewrite Hnull. reflexivity.
Qed.

End Revalidation.

Section KeyCollisions.

Import DecryptionService.

(** X15. Keys that give the same key material: a key of fewer than 32
    characters and the same key followed by [0] characters up to 32
    characters; a key of 32 characters or more and the same key followed
    by anything.  The material of an ASCII key is 32 bytes. *)
Theorem X15_key_material_collisions :
  (forall (key : JsString) (n : nat),
      length key + n <= 32 -> keyBytes (key ++ repeat 48%N n) = keyBytes key)
  /\ (forall key tail : JsString,
         32 <= length key -> keyBytes (key ++ tail) = keyBytes key)
  /\ (forall key : JsString, isAscii key = true -> length (keyBytes key) = 32).
Proof.
  split; [|split].
  - intros key n Hlen. unfold keyBytes, padEnd, substring0. f_equal. f_equal.
    rewrite length_app, repeat_length, <- app_assoc, <- repeat_app.
    do 2 f_equal. lia.
  - intros key tail Hlen. unfold keyBytes, padEnd, substring0. f_equal.
    rewrite length_app.
    replace (32 - (length key + length tail)) with 0 by lia.
    replace (32 - length key) with 0 by lia.
    cbn [repeat]. rewrite !app_nil_r, firstn_app.
    replace (32 - length key) with 0 by lia.
    cbn [firstn]. apply app_nil_r.
  - intros key Hascii. now apply keyBytes_ascii.
Qed.

End KeyCollisions.

(** ** Further properties of the click handler *)

Section ClickHandlerFurther.

Import ClickHandler.

Variable P : Platform.
Variable B : Browser.

Ltac simpl_state :=
  progress cbn [instructionSet setProcessingClick setInstructionSet setAutoClickTimer
                  setListenersSetup fst snd negb andb orb
                  ToBoolean isString isEmpty text stateAfter worldAfter outcome
                  calls nextError entropy entropyPos message].

(** Stepping through a computation; [held] proves that an instruction set
    is held, [facts] rewrites with what is known of it. *)
Ltac step held facts :=
  repeat first
    [ rewrite bindH_assoc
    | rewrite bindH_read by held
    | rewrite bindH_ret
    | rewrite bindH_this
    | rewrite bindH_assign
    | rewrite bindH_call
    | rewrite bindH_throwNew
    | rewrite bindH_await
    | rewrite bindH_tryCatch
    | rewrite readInstruction_held by held
    | rewrite tryCatchH_run
    | rewrite tryFinallyH_run
    | rewrite assign_run
    | rewrite call_run
    | rewrite throwNew_run
    | rewrite retH_run
    | progress facts
    | simpl_state ].

Ltac held_now :=
  cbn [instructionSet setProcessingClick setInstructionSet setAutoClickTimer
         setListenersSetup];
  assumption.

Lemma handleClickError_returns (error : JsError) (actionType : JsString)
    (s : State) (w : World) :
  outcome (handleClickError B error actionType s w) = inr tt
  /\ stateAfter (handleClickError B error actionType s w) = s.
Proof.
  unfold handleClickError, showErrorMessage.
  destruct (firebaseService B), (errorMessageElement B); split; reflexivity.
Qed.

(** A click action returns, whatever happens in it. *)
Lemma processClickAction_returns (actionType : JsString) (s : State) (w : World) :
  outcome (processClickAction P B actionType s w) = inr tt.
Proof.
  unfold processClickAction.
  rewrite bindH_this.
  destruct (negb (ToBoolean (instructionSet s))); [reflexivity|].
  rewrite bindH_assign, tryFinallyH_run, tryCatchH_run.
  match goal with
  | |- context [bindH ?m ?f ?s1 ?w1] => destruct (bindH m f s1 w1) as [[[e|[]] s2] w2]
  end; [|reflexivity].
  pose proof (handleClickError_returns e actionType s2 w2) as [Ho _].
  destruct (handleClickError B e actionType s2 w2) as [[r s3] w3].
  cbn in Ho. subst r. reflexivity.
Qed.

(** X16. [processClickAction], [handleClick] and the callback of the
    auto-click timer never throw: whatever the handler holds and the
    browser does, they return. *)
Theorem X16_click_never_throws (actionType : JsString) (s : State) (w : World) :
  outcome (processClickAction P B actionType s w) = inr tt
  /\ outcome (handleClick P B s w) = inr tt
  /\ outcome (autoClickFired P B s w) = inr tt.
Proof.
  split; [apply processClickAction_returns|].
  split; [|apply processClickAction_returns].
  unfold handleClick. rewrite bindH_this.
  destruct (isProcessingClick s); [reflexivity|].
  unfold awaitH.
  pose proof (processClickAction_returns (lit "manual_click") s w) as H.
  destruct (processClickAction P B (lit "manual_click") s w) as [[r s1] w1].
  exact H.
Qed.

(** X17. A click on a handler with no instruction set, or with neither a
    click target nor a deeplink target, returns with no platform call, no
    error and no tracking record, and keeps the instruction set and the
    timer. *)
Theorem X17_click_without_target_ignored (actionType : JsString) (s : State) (w : World) :
  ToBoolean (instructionSet s) = false
  \/ (ToBoolean (get (instructionSet s) (lit "click_url")) = false
      /\ ToBoolean (get (instructionSet s) (lit "deeplink_url")) = false) ->
  let r := processClickAction P B actionType s w in
  outcome r = inr tt
  /\ worldAfter r = w
  /\ instructionSet (stateAfter r) = instructionSet s
  /\ autoClickTimer (stateAfter r) = autoClickTimer s.
Proof.
  intros Hcase. cbv zeta.
  destruct (ToBoolean (instructionSet s)) eqn:Hset.
  2:{ rewrite processClickAction_without_instructions by assumption. repeat split. }
  destruct Hcase as [Hnone | [Hc Hd]]; [discriminate Hnone|].
  unfold processClickAction.
  step held_now ltac:(rewrite ?Hset, ?Hc, ?Hd). repeat split.
Qed.

(** X18. A click whose click target is a non-empty string that the URL
    parser refuses, and that does not take the deeplink route, navigates
    nowhere: the error is reported to Firebase when the service is there,
    and the failure message is shown when the page has the element
    [#error-message]; on a page without it nothing is shown. *)
Theorem X18_invalid_click_url_reported (actionType click : JsString) (s : State) (w : World) :
  get (instructionSet s) (lit "click_url") = VString click ->
  click <> [] ->
  URL_parses P (VString click) = false ->
  ToBoolean (get (instructionSet s) (lit "deeplink_priority"))
  && ToBoolean (get (instructionSet s) (lit "deeplink_url")) = false ->
  let r := processClickAction P B actionType s w in
  outcome r = inr tt
  /\ calls (worldAfter r)
     = calls w
       ++ (if firebaseService B
           then [CallReportError (lit "Invalid click URL: " ++ click)
                   (lit "click_handler_" ++ actionType)]
           else [])
       ++ (if errorMessageElement B
           then [CallShowError (lit "Navigation failed. Please try again.")]
           else []).
Proof.
  intros Hc Hne Hurl Hdirect. cbv zeta.
  pose proof (held_of_get _ _ _ Hc) as Hset.
  destruct click as [|c0 cr]; [congruence|].
  unfold processClickAction, route, openClickUrl, handleClickError, showErrorMessage.
  destruct (firebaseService B), (errorMessageElement B);
    step held_now ltac:(rewrite ?Hset, ?Hc, ?Hurl, ?Hdirect);
    rewrite <- ?app_assoc, ?app_nil_r; split; reflexivity.
Qed.

(** Reading a property of the instruction set returns it, or throws when
    there is no instruction set. *)
Lemma readInstruction_cases (k : JsString) (s : State) (w : World) :
  readInstruction B k s w = (inr (get (instructionSet s) k), s, w)
  \/ exists e w',
       readInstruction B k s w = (inl e, s, w') /\ calls w' = calls w.
Proof.
  unfold readInstruction. rewrite bindH_this.
  destruct (instructionSet s); try (left; reflexivity);
    right; do 2 eexists; split; reflexivity.
Qed.

(** *** Frames: what a computation leaves alone *)

Section Frames.

Context {X Y : Type} (proj : State -> X) (obs : list Call -> Y).

(** The other callbacks leave the observed part of the handler alone. *)
Hypothesis Hsusp : forall s, proj (whileSuspended B s) = proj s.

Lemma keeps_ret {A} (a : A) (s : State) (w : World) : keepsAt proj obs (retH a) s w.
Proof. split; reflexivity. Qed.

Lemma keeps_throwNew {A} (msg : JsString) (s : State) (w : World) :
  keepsAt proj obs (liftM (throwNew (A := A) msg)) s w.
Proof. split; reflexivity. Qed.

Lemma keeps_call (c : Call) (s : State) (w : World) :
  obs (calls w ++ [c]) = obs (calls w) -> keepsAt proj obs (liftM (call c)) s w.
Proof. intros Hc. split; [reflexivity | exact Hc]. Qed.

Lemma keeps_assign (g : State -> State) (s : State) (w : World) :
  proj (g s) = proj s -> keepsAt proj obs (assign g) s w.
Proof. intros Hg. split; [exact Hg | reflexivity]. Qed.

Lemma keeps_bind {A A'} (m : H A) (f : A -> H A') (s : State) (w : World) :
  keepsAt proj obs m s w ->
  (forall a s' w', m s w = (inr a, s', w') -> keepsAt proj obs (f a) s' w') ->
  keepsAt proj obs (bindH m f) s w.
Proof.
  unfold keepsAt, bindH. intros [Hs Hn] Hf.
  destruct (m s w) as [[[e|a] s'] w'];
    cbn [stateAfter worldAfter fst snd] in Hs, Hn |- *; [now split|].
  destruct (Hf a s' w' eq_refl) as [Hs' Hn']. split; congruence.
Qed.

Lemma keeps_this_bind {A} (f : State -> H A) (s : State) (w : World) :
  keepsAt proj obs (f s) s w -> keepsAt proj obs (bindH this f) s w.
Proof. intros Hf. exact Hf. Qed.

Lemma keeps_read_bind {A} (k : JsString) (f : JsValue -> H A) (s : State) (w : World) :
  keepsAt proj obs (f (get (instructionSet s) k)) s w ->
  keepsAt proj obs (bindH (readInstruction B k) f) s w.
Proof.
  intros Hf. unfold keepsAt, bindH.
  destruct (readInstruction_cases k s w) as [-> | (e & w' & -> & Hc)]; [exact Hf|].
  cbn [stateAfter worldAfter fst snd]. now rewrite Hc.
Qed.

Lemma keeps_tryCatch {A} (m : H A) (h : JsError -> H A) (s : State) (w : World) :
  keepsAt proj obs m s w ->
  (forall e s' w', m s w = (inl e, s', w') -> keepsAt proj obs (h e) s' w') ->
  keepsAt proj obs (tryCatchH m h) s w.
Proof.
  unfold keepsAt, tryCatchH. intros [Hs Hn] Hh.
  destruct (m s w) as [[[e|a] s'] w'];
    cbn [stateAfter worldAfter fst snd] in Hs, Hn |- *; [|now split].
  destruct (Hh e s' w' eq_refl) as [Hs' Hn']. split; congruence.
Qed.

Lemma keeps_tryFinally_assign {A} (m : H A) (g : State -> State) (s : State) (w : World) :
  keepsAt proj obs m s w -> (forall s', proj (g s') = proj s') ->
  keepsAt proj obs (tryFinallyH m (assign g)) s w.
Proof.
  unfold keepsAt. rewrite tryFinallyH_run. intros [Hs Hn] Hg.
  destruct (m s w) as [[r s'] w']. rewrite assign_run.
  cbn [stateAfter worldAfter fst snd] in Hs, Hn |- *.
  rewrite Hg. now split.
Qed.

Lemma keeps_await {A} (m : H A) (s : State) (w : World) :
  keepsAt proj obs m s w -> keepsAt proj obs (awaitH B m) s w.
Proof.
  unfold keepsAt, awaitH. intros [Hs Hn].
  destruct (m s w) as [[r s'] w']; cbn [stateAfter worldAfter fst snd] in Hs, Hn |- *.
  now rewrite Hsusp.
Qed.

End Frames.

(** Taking a computation apart, down to its platform calls and
    assignments, which [leaf] proves harmless. *)
Ltac frame leaf :=
  repeat
    lazymatch goal with
    | |- keepsAt _ _ (retH _) _ _ => apply keeps_ret
    | |- keepsAt _ _ (liftM (throwNew _)) _ _ => apply keeps_throwNew
    | |- keepsAt _ _ (liftM (call _)) _ _ => apply keeps_call; leaf
    | |- keepsAt _ _ (assign _) _ _ => apply keeps_assign; reflexivity
    | |- keepsAt _ _ (bindH this _) _ _ => apply keeps_this_bind
    | |- keepsAt _ _ (bindH (readInstruction _ _) _) _ _ => apply keeps_read_bind
    | |- keepsAt _ _ (bindH _ _) _ _ => apply keeps_bind; [|intros ? ? ? _]
    | |- keepsAt _ _ (tryCatchH _ _) _ _ => apply keeps_tryCatch; [|intros ? ? ? _]
    | |- keepsAt _ _ (tryFinallyH _ (assign _)) _ _ =>
        apply keeps_tryFinally_assign; [|intros ?; reflexivity]
    | |- keepsAt _ _ (awaitH _ _) _ _ => apply keeps_await; [assumption|]
    | |- keepsAt _ _ (if ?b then _ else _) _ _ => destruct b
    | |- keepsAt _ _ (match ?x with _ => _ end) _ _ => destruct x
    end.

(** *** Where a click navigates *)

Lemma navigations_snoc (c : Call) (cs : list Call) :
  navigations [c] = [] -> navigations (cs ++ [c]) = navigations cs.
Proof. intros Hc. rewrite navigations_app, Hc. apply app_nil_r. Qed.

Section InstructionsKept.

Hypothesis Hpres : forall s', instructionSet (whileSuspended B s') = instructionSet s'.

Ltac held :=
  cbn [instructionSet setProcessingClick setInstructionSet setAutoClickTimer
         setListenersSetup];
  rewrite ?Hpres;
  cbn [instructionSet setProcessingClick setInstructionSet setAutoClickTimer
         setListenersSetup];
  assumption.

Ltac silence := unfold silentAt; frame ltac:(apply navigations_snoc; reflexivity).

Lemma once_of_silent {A} (m : H A) (s : State) (w : World) :
  silentAt m s w -> onceAt P m s w.
Proof. intros [Hs Hn]. split; [exact Hs | now left]. Qed.

Lemma once_read_bind {A} (k : JsString) (f : JsValue -> H A) (s : State) (w : World) :
  onceAt P (f (get (instructionSet s) k)) s w ->
  onceAt P (bindH (readInstruction B k) f) s w.
Proof.
  intros Hf. unfold onceAt, bindH.
  destruct (readInstruction_cases k s w) as [-> | (e & w' & -> & Hc)]; [exact Hf|].
  cbn. split; [reflexivity|]. left. now rewrite Hc.
Qed.

Lemma once_then_silent {A A'} (m : H A) (f : A -> H A') (s : State) (w : World) :
  onceAt P m s w ->
  (forall a s' w', m s w = (inr a, s', w') -> silentAt (f a) s' w'
                                             /\ exists a', outcome (f a s' w') = inr a') ->
  onceAt P (bindH m f) s w.
Proof.
  unfold onceAt, keepsAt, bindH. cbv zeta. intros [Hs Hn] Hf.
  destruct (m s w) as [[[e|a] s'] w']; cbn [stateAfter worldAfter outcome fst snd] in Hs, Hn |- *.
  - split; [exact Hs|]. destruct Hn as [Hn | (_ & _ & a & Ha)]; [now left | discriminate Ha].
  - destruct (Hf a s' w' eq_refl) as [[Hs' Hn'] Ho].
    split; [congruence|].
    destruct Hn as [Hn | (Hn & Hok & _)]; [left; congruence|].
    right. repeat split; [congruence | assumption | exact Ho].
Qed.

Lemma silent_then_once {A A'} (m : H A) (f : A -> H A') (s : State) (w : World) :
  silentAt m s w ->
  (forall a s' w', m s w = (inr a, s', w') -> onceAt P (f a) s' w') ->
  onceAt P (bindH m f) s w.
Proof.
  unfold onceAt, keepsAt, bindH. cbv zeta. intros [Hs Hn] Hf.
  destruct (m s w) as [[[e|a] s'] w']; cbn [stateAfter worldAfter outcome fst snd] in Hs, Hn |- *.
  - split; [exact Hs | now left].
  - destruct (Hf a s' w' eq_refl) as [Hs' Hn'].
    rewrite Hs in Hn'. split; [congruence|].
    destruct Hn' as [Hn' | (Hn' & Hok & Ho)]; [left; congruence|].
    right. repeat split; [congruence | assumption | exact Ho].
Qed.

Lemma once_tryCatch {A} (m : H A) (h : JsError -> H A) (s : State) (w : World) :
  onceAt P m s w ->
  (forall e s' w', m s w = (inl e, s', w') -> onceAt P (h e) s' w') ->
  onceAt P (tryCatchH m h) s w.
Proof.
  unfold onceAt, tryCatchH. cbv zeta. intros [Hs Hn] Hh.
  destruct (m s w) as [[[e|a] s'] w']; cbn [stateAfter worldAfter outcome fst snd] in Hs, Hn |- *; [|now split].
  destruct (Hh e s' w' eq_refl) as [Hs' Hn'].
  rewrite Hs in Hn'.
  destruct Hn as [Hn | (_ & _ & a & Ha)]; [|discriminate Ha].
  split; [congruence|].
  destruct Hn' as [Hn' | (Hn' & Hok & Ho)]; [left; congruence|].
  right. repeat split; [congruence | assumption | exact Ho].
Qed.

Lemma once_await {A} (m : H A) (s : State) (w : World) :
  onceAt P m s w -> onceAt P (awaitH B m) s w.
Proof.
  unfold onceAt, awaitH. cbv zeta. intros [Hs Hn].
  destruct (m s w) as [[r s'] w']; cbn [stateAfter worldAfter outcome fst snd] in Hs, Hn |- *.
  rewrite Hpres. now split.
Qed.

Lemma openClickUrl_once (s : State) (w : World) :
  onceAt P (openClickUrl P B (get (instructionSet s) (lit "click_url"))) s w.
Proof.
  unfold onceAt, openClickUrl, navigable. cbv zeta.
  set (click_url := get (instructionSet s) (lit "click_url")).
  destruct (ToBoolean click_url); [|split; [reflexivity | now left]].
  destruct (isString click_url); [|split; [reflexivity | now left]].
  cbn [negb orb andb]. rewrite tryCatchH_run.
  destruct (URL_parses P click_url).
  - rewrite call_run. split; [reflexivity|]. right.
    cbn. rewrite navigations_app. repeat split. now exists tt.
  - rewrite throwNew_run, throwNew_run. split; [reflexivity | now left].
Qed.

Lemma fallback_once (s : State) (w : World) :
  onceAt P (click_url <~ readInstruction B (lit "click_url") ;;
          if ToBoolean click_url then
            click_url <~ readInstruction B (lit "click_url") ;;
            openClickUrl P B click_url
          else retH tt) s w.
Proof.
  apply once_read_bind.
  destruct (ToBoolean (get (instructionSet s) (lit "click_url")));
    [|apply once_of_silent, keeps_ret].
  apply once_read_bind, openClickUrl_once.
Qed.

Lemma attemptDeeplinkOpen_silent (url : JsValue) (s : State) (w : World) :
  silentAt (attemptDeeplinkOpen B url) s w.
Proof. unfold attemptDeeplinkOpen. silence. Qed.

Lemma attemptDeeplinkWithFallback_once (s : State) (w : World) :
  onceAt P (attemptDeeplinkWithFallback P B) s w.
Proof.
  unfold attemptDeeplinkWithFallback.
  apply once_tryCatch; [|intros e s' w' _; apply fallback_once].
  apply once_read_bind.
  apply silent_then_once; [apply keeps_await, attemptDeeplinkOpen_silent; exact Hpres|].
  intros ok s' w' _.
  destruct (negb ok); [apply fallback_once | apply once_of_silent, keeps_ret].
Qed.

Lemma route_once (s : State) (w : World) : onceAt P (route P B) s w.
Proof.
  unfold route.
  do 3 apply once_read_bind.
  destruct (ToBoolean (get (instructionSet s) (lit "deeplink_priority"))
            && ToBoolean (get (instructionSet s) (lit "deeplink_url")));
    [apply attemptDeeplinkWithFallback_once|].
  destruct (ToBoolean (get (instructionSet s) (lit "click_url")));
    [apply openClickUrl_once|].
  apply once_of_silent.
  destruct (ToBoolean (get (instructionSet s) (lit "deeplink_url")));
    [|apply keeps_ret].
  apply keeps_bind; [apply keeps_await, attemptDeeplinkOpen_silent; exact Hpres|].
  intros _ s' w' _. apply keeps_ret.
Qed.

Lemma trackClickAction_returns (actionType : JsString) (s : State) (w : World) :
  exists a, outcome (trackClickAction B actionType s w) = inr a.
Proof.
  unfold trackClickAction. rewrite tryCatchH_run.
  match goal with
  | |- context [bindH ?m ?f s w] => destruct (bindH m f s w) as [[[e|[]] s'] w']
  end; now exists tt.
Qed.

Lemma trackClickAction_silent (actionType : JsString) (s : State) (w : World) :
  silentAt (trackClickAction B actionType) s w.
Proof. unfold trackClickAction. silence. Qed.

Lemma handleClickError_silent (error : JsError) (actionType : JsString)
    (s : State) (w : World) :
  silentAt (handleClickError B error actionType) s w.
Proof. unfold handleClickError, showErrorMessage. silence. Qed.

(** X19. One [processClickAction] navigates at most once, and only to the
    click target of the instruction set, which is then a string that the
    URL parser accepts; the other callbacks are supposed to leave the
    instruction set alone while the handler waits. *)
Theorem X19_navigation_at_most_once (actionType : JsString) (s : State) (w : World) :
  let click_url := get (instructionSet s) (lit "click_url") in
  let visited :=
    navigations (calls (worldAfter (processClickAction P B actionType s w))) in
  visited = navigations (calls w)
  \/ (visited = navigations (calls w) ++ [click_url] /\ navigable P click_url = true).
Proof.
  cbv zeta.
  assert (H : onceAt P (processClickAction P B actionType) s w).
  { unfold processClickAction.
    unfold onceAt. cbv zeta. rewrite bindH_this.
    destruct (negb (ToBoolean (instructionSet s)));
      [split; [reflexivity | now left]|].
    rewrite bindH_assign, tryFinallyH_run.
    match goal with
    | |- context [tryCatchH ?m ?h ?s1 ?w1] =>
        assert (Hbody : onceAt P (tryCatchH m h) s1 w1)
    end.
    { apply once_tryCatch.
      - do 2 apply once_read_bind.
        match goal with
        | |- context [if ?b then _ else _] => destruct b
        end; [apply once_of_silent, keeps_ret|].
        apply once_then_silent; [apply route_once|].
        intros _ s' w' _.
        split; [apply trackClickAction_silent | apply trackClickAction_returns].
      - intros e s' w' _. apply once_of_silent, handleClickError_silent. }
    unfold onceAt in Hbody. cbv zeta in Hbody.
    cbn [instructionSet setProcessingClick] in Hbody.
    match goal with
    | |- context [tryCatchH ?m ?h ?s1 ?w1] =>
        destruct (tryCatchH m h s1 w1) as [[r s2] w2]
    end.
    rewrite assign_run. cbn in Hbody |- *. exact Hbody. }
  destruct H as [_ [H | (H & Hok & _)]]; [now left | right; now split].
Qed.

Lemma bindH_returns {A A'} (m : H A) (f : A -> H A') (s : State) (w : World)
    (a : A) (s' : State) (w' : World) :
  m s w = (inr a, s', w') -> bindH m f s w = f a s' w'.
Proof. intros Hm. unfold bindH. now rewrite Hm. Qed.





End InstructionsKept.

(** [initialize] on an object. *)
Lemma initialize_object (iset : JsValue) (s : State) (w : World) :
  ToBoolean iset = true -> isObjectType iset = true ->
  let handle := S (length (calls w ++ clearing s)) in
  let delay := Js.or (get iset (lit "auto_click_delay")) (VNumber DEFAULT_AUTO_CLICK_DELAY) in
  initialize B iset s w
  = if ToBoolean (get iset (lit "auto_click"))
    then (inr tt, mkState iset true (Some handle) (isProcessingClick s),
          mkWorld (nextError w) (calls w ++ clearing s ++ [CallSetTimeout handle delay])
            (entropy w) (entropyPos w))
    else (inr tt, mkState iset true (autoClickTimer s) (isProcessingClick s), w).
Proof.
  intros Ht Ho. cbv zeta. unfold initialize. rewrite Ht, Ho. cbn [negb orb].
  rewrite bindH_assign.
  assert (Hsetup : forall s0 w0,
             setupClickListeners s0 w0
             = (inr tt, setListenersSetup true s0, w0)).
  { intros s0 w0. unfold setupClickListeners. rewrite bindH_this.
    destruct s0 as [i [|] t p]; reflexivity. }
  unfold bindH at 1. rewrite Hsetup.
  rewrite bindH_read by exact Ht.
  cbn [instructionSet setListenersSetup setInstructionSet].
  destruct (ToBoolean (get iset (lit "auto_click"))) eqn:Hauto; [|reflexivity].
  unfold scheduleAutoClick.
  rewrite bindH_read by exact Ht.
  cbn [instructionSet setListenersSetup setInstructionSet]. rewrite Hauto. cbn [negb].
  rewrite bindH_this. cbn [autoClickTimer setListenersSetup setInstructionSet].
  unfold clearing.
  destruct (autoClickTimer s) as [old|].
  - rewrite bindH_call, bindH_read by exact Ht.
    unfold bindH, setTimeout, assign. cbn.
    rewrite <- app_assoc. reflexivity.
  - rewrite bindH_ret, bindH_read by exact Ht.
    unfold bindH, setTimeout, assign. cbn.
    rewrite !app_nil_r. reflexivity.
Qed.

Lemma validated_object (v : JsValue) :
  validated P v -> ToBoolean v = true /\ isObjectType v = true.
Proof.
  intros (image & click & deeplink & ac & dp & delay & title & description & -> & _).
  split; reflexivity.
Qed.

(** X21. [initialize] on what [decrypt] returned always succeeds: it
    stores the instruction set, marks the listeners as set up and, when
    [auto_click] is true, clears the timer it held and arms one timer
    with the delay of the instruction set, or the default delay when that
    is [null] or 0. *)
Theorem X21_initialize_accepts_decrypted
    (this : DecryptionService.Config) (payload : JsString) (v : JsValue)
    (w w1 : World) (s : State) (w2 : World) :
  DecryptionService.decrypt P this payload w = (inr v, w1) ->
  let handle := S (length (calls w2 ++ clearing s)) in
  let delay := Js.or (get v (lit "auto_click_delay")) (VNumber DEFAULT_AUTO_CLICK_DELAY) in
  initialize B v s w2
  = if ToBoolean (get v (lit "auto_click"))
    then (inr tt, mkState v true (Some handle) (isProcessingClick s),
          mkWorld (nextError w2) (calls w2 ++ clearing s ++ [CallSetTimeout handle delay])
            (entropy w2) (entropyPos w2))
    else (inr tt, mkState v true (autoClickTimer s) (isProcessingClick s), w2).
Proof.
  intros Hd. apply decrypt_validated, validated_object in Hd.
  destruct Hd as [Ht Ho]. now apply initialize_object.
Qed.

Lemma cancelAutoClick_run (s : State) (w : World) :
  cancelAutoClick s w
  = (inr tt, setAutoClickTimer None s,
     mkWorld (nextError w) (calls w ++ clearing s) (entropy w) (entropyPos w)).
Proof.
  unfold cancelAutoClick, clearing. rewrite bindH_this.
  destruct s as [i l [handle|] p]; cbn [autoClickTimer].
  - rewrite bindH_call. reflexivity.
  - destruct w as [n cs en ep]. cbn. now rewrite app_nil_r.
Qed.

Lemma destroy_run (s : State) (w : World) :
  destroy s w
  = (inr tt, create,
     mkWorld (nextError w) (calls w ++ clearing s) (entropy w) (entropyPos w)).
Proof.
  unfold destroy.
  rewrite (bindH_returns _ _ _ _ _ _ _ (cancelAutoClick_run s w)).
  rewrite bindH_this.
  destruct s as [i [|] t p]; reflexivity.
Qed.

(** X22. [destroy] clears the timer the handler holds and puts the
    instruction set, the listener flag, the timer handle and the
    processing flag back to the values of the constructor; a click then
    does nothing, and [scheduleAutoClick] throws on the missing
    instruction set. *)
Theorem X22_destroy_resets (s : State) (w : World) :
  destroy s w
  = (inr tt, create,
     mkWorld (nextError w) (calls w ++ clearing s) (entropy w) (entropyPos w))
  /\ forall (actionType : JsString) (w' : World),
       processClickAction P B actionType create w' = (inr tt, create, w')
       /\ scheduleAutoClick B create w'
          = (inl (mkError (nextError w') (nullReadMessage B) None), create,
             mkWorld (S (nextError w')) (calls w') (entropy w') (entropyPos w')).
Proof.
  split; [apply destroy_run|].
  intros actionType w'. split.
  - now apply processClickAction_without_instructions.
  - reflexivity.
Qed.

(** *** The auto-click timer *)




Section TimerKept.

(** The other callbacks leave the timer handle alone. *)
Hypothesis Htimer : forall s', autoClickTimer (whileSuspended B s') = autoClickTimer s'.




End TimerKept.

(** *** The listener flag *)

Section ListenersKept.

(** The other callbacks leave the listener flag alone. *)
Hypothesis Hsetup :
  forall s', clickListenersSetup (whileSuspended B s') = clickListenersSetup s'.

Lemma processClickAction_listeners (actionType : JsString) (s : State) (w : World) :
  keepsAt clickListenersSetup (fun _ => tt) (processClickAction P B actionType) s w.
Proof.
  unfold processClickAction, route, attemptDeeplinkWithFallback, attemptDeeplinkOpen,
    openClickUrl, trackClickAction, handleClickError, showErrorMessage.
  frame ltac:(reflexivity).
Qed.

Lemma awaited_click_listeners (actionType : JsString) (s : State) (w : World) :
  clickListenersSetup
    (stateAfter (awaitH B (processClickAction P B actionType) s w))
  = clickListenersSetup s.
Proof.
  assert (H : keepsAt clickListenersSetup (fun _ => tt)
                (awaitH B (processClickAction P B actionType)) s w).
  { apply keeps_await; [exact Hsetup | apply processClickAction_listeners]. }
  exact (proj1 H).
Qed.

End ListenersKept.

(** Setting up the auto-click keeps the listener flag. *)
Lemma autoClick_listeners (s : State) (w : World) :
  keepsAt clickListenersSetup (fun _ => tt)
    (auto_click <~ readInstruction B (lit "auto_click") ;;
     if ToBoolean auto_click then scheduleAutoClick B else retH tt) s w.
Proof.
  unfold scheduleAutoClick.
  frame ltac:(reflexivity).
  all: unfold keepsAt, setTimeout; split; reflexivity.
Qed.

End ClickHandlerFurther.

(** ** The gestures *)

Section Gestures.

Import ClickHandler.
Import ClickGestures.

Variable P : Platform.
Variable B : Browser.
Variable Math_sqrt : float -> float.
Variable Math_pow : float -> float -> float.

(** X24. Once a [touchend] has been handled, by a handler that was not
    processing a click, a further [touchend] with no [touchstart] in
    between is ignored: it makes no platform call and changes nothing. *)
Theorem X24_touch_end_consumes_touch
    (first second : TouchEvent) (now now' : float) (h : Handler) (w : World)
    (i : InteractionState) :
  interactionState h = Some i ->
  isProcessingClick (core h) = false ->
  let r := handleTouchEnd P B Math_sqrt Math_pow first now h w in
  handleTouchEnd P B Math_sqrt Math_pow second now' (handlerAfter r) (snd r)
  = (inr tt, handlerAfter r, snd r).
Proof.
  intros Hi Hidle. cbv zeta.
  assert (Hdone : exists i',
             interactionState
               (handlerAfter (handleTouchEnd P B Math_sqrt Math_pow first now h w))
             = Some i' /\ isTouchActive i' = false).
  { unfold handleTouchEnd, withInteractionState. rewrite Hi, Hidle.
    destruct (isTouchActive i) eqn:Hactive; cbn [negb].
    - cbv zeta.
      destruct (PrimFloat.ltb MAX_TOUCH_DURATION (now - touchStartTime i));
        [eexists; split; reflexivity|].
      destruct (PrimFloat.ltb MAX_TOUCH_MOVEMENT (touchMovement Math_sqrt Math_pow first i));
        [eexists; split; reflexivity|].
      unfold awaitProcessClickAction.
      match goal with
      | |- context [awaitH ?b ?m ?s0 ?w0] => destruct (awaitH b m s0 w0) as [[r s'] w']
      end.
      eexists; split; reflexivity.
    - exists i. split; [exact Hi | exact Hactive]. }
  destruct Hdone as (i' & Hi' & Hinactive).
  unfold handleTouchEnd at 1. unfold withInteractionState.
  rewrite Hi', Hinactive. reflexivity.
Qed.

(** X25. [handleTouchEnd] ignores a touch that was not started, that ends
    while a click is processed, that lasted more than 2000 ms or that
    moved by more than 30 pixels: it makes no platform call and leaves
    the click state of the handler as it is. *)
Theorem X25_improper_touch_ignored
    (event : TouchEvent) (now : float) (h : Handler) (w : World) (i : InteractionState) :
  interactionState h = Some i ->
  isTouchActive i = false
  \/ isProcessingClick (core h) = true
  \/ PrimFloat.ltb MAX_TOUCH_DURATION (now - touchStartTime i) = true
  \/ PrimFloat.ltb MAX_TOUCH_MOVEMENT (touchMovement Math_sqrt Math_pow event i) = true ->
  let r := handleTouchEnd P B Math_sqrt Math_pow event now h w in
  fst (fst r) = inr tt /\ snd r = w /\ core (handlerAfter r) = core h.
Proof.
  intros Hi Hcase. cbv zeta.
  unfold handleTouchEnd, withInteractionState. rewrite Hi.
  destruct (isTouchActive i); cbn [negb]; [|repeat split].
  destruct (isProcessingClick (core h)); [repeat split|].
  cbv zeta.
  destruct (PrimFloat.ltb MAX_TOUCH_DURATION (now - touchStartTime i)); [repeat split|].
  destruct (PrimFloat.ltb MAX_TOUCH_MOVEMENT (touchMovement Math_sqrt Math_pow event i));
    [repeat split|].
  destruct Hcase as [H | [H | [H | H]]]; discriminate H.
Qed.

(** X26. After a [pointerdown], a [pointerup] that follows a [mousedown]
    or a [touchstart] makes no platform call: the pointer event is taken
    for a duplicate.  A [pointerup] straight after the [pointerdown], on
    a handler that is not processing a click, runs [processClickAction]
    with [manual_] and the pointer type as action type. *)
Theorem X26_pointer_up_defers_to_mouse_and_touch
    (event : PointerEvent) (touch : TouchEvent) (now : float)
    (h : Handler) (w : World) (i : InteractionState) :
  interactionState h = Some i ->
  let down := handlerAfter (handlePointerDown B h w) in
  let afterMouse := handlerAfter (handleMouseDown B down w) in
  let afterTouch := handlerAfter (handleTouchStart B touch now down w) in
  snd (handlePointerUp P B event afterMouse w) = w
  /\ snd (handlePointerUp P B event afterTouch w) = w
  /\ (isProcessingClick (core h) = false ->
      handlePointerUp P B event down w
      = awaitProcessClickAction P B (lit "manual_" ++ pointerType event)
          (mkHandler (core h)
             (Some (mkInteractionState (isMouseDown i) (isTouchActive i) false
                      (Some (lit "pointer")) (touchStartTime i) (touchStartPosition i))))
          w).
Proof.
  intros Hi. cbv zeta.
  unfold handlePointerDown, handleMouseDown, handleTouchStart, withInteractionState,
    setInteractionState, handlerAfter.
  rewrite Hi. cbn [fst snd interactionState core].
  unfold handlePointerUp, withInteractionState.
  cbn [interactionState core isPointerActive lastInteractionType negb].
  repeat split.
  - destruct (isProcessingClick (core h)); reflexivity.
  - destruct (isProcessingClick (core h)); reflexivity.
  - intros ->. reflexivity.
Qed.

End Gestures.

(** *** The interaction state and the listeners *)

Section Lifecycle.

Import ClickHandler.
Import ClickGestures.

Variable P : Platform.
Variable B : Browser.
Variable Math_sqrt : float -> float.
Variable Math_pow : float -> float -> float.

(** The other callbacks leave the listener flag alone. *)
Hypothesis Hsetup :
  forall s', clickListenersSetup (whileSuspended B s') = clickListenersSetup s'.

Lemma awaitProcessClickAction_run (actionType : JsString) (h : Handler) (w : World) :
  let r := awaitProcessClickAction P B actionType h w in
  fst (fst r) = inr tt
  /\ interactionState (handlerAfter r) = interactionState h
  /\ clickListenersSetup (core (handlerAfter r)) = clickListenersSetup (core h).
Proof.
  cbv zeta. unfold awaitProcessClickAction.
  pose proof (awaited_click_listeners P B Hsetup actionType (core h) w) as Hkept.
  pose proof (processClickAction_returns P B actionType (core h) w) as Hret.
  unfold awaitH in *.
  destruct (processClickAction P B actionType (core h) w) as [[r s'] w'].
  cbn in *. repeat split; assumption.
Qed.

Lemma deliver_ready (e : Event) (h : Handler) (w : World) :
  ready h -> ready (handlerAfter (deliver P B Math_sqrt Math_pow e h w)).
Proof.
  unfold ready. intros Hr.
  destruct e as [iset| | | | |event now|event now| | |event| ]; cbn [deliver];
    try (unfold handleMouseDown, handleMouseUp, handleTouchStart, handleTouchCancel,
           handlePointerDown, handlePointerCancel, withInteractionState,
           setInteractionState;
         destruct (interactionState h) as [i|] eqn:Hi;
         cbn [handlerAfter fst snd core interactionState];
         rewrite ?Hi; exact Hr).
  - unfold initialize.
    destruct (negb (ToBoolean iset) || negb (isObjectType iset)); [exact Hr|].
    unfold bindG, liftCore, setupClickListeners, assign.
    cbn [core interactionState clickListenersSetup setInstructionSet].
    pose proof (fun s => proj1 (autoClick_listeners B s w)) as Hkept.
    destruct (clickListenersSetup (core h)) eqn:Hs;
      cbn [core interactionState];
      match goal with
      | |- context [bindH ?m ?f ?s0 w] =>
          specialize (Hkept s0); destruct (bindH m f s0 w) as [[r s'] w']
      end;
      cbn [stateAfter handlerAfter fst snd core interactionState] in Hkept |- *;
      rewrite Hkept; cbn [clickListenersSetup setListenersSetup setInstructionSet].
    + rewrite Hs. exact Hr.
    + reflexivity.
  - unfold destroy, bindG, liftCore.
    rewrite (destroy_run (core h) w). reflexivity.
  - unfold handleClick.
    pose proof (awaited_click_listeners P B Hsetup (lit "manual_click") (core h) w) as Hk.
    unfold ClickHandler.handleClick. rewrite bindH_this.
    destruct (isProcessingClick (core h)); [exact Hr|].
    destruct (awaitH B (processClickAction P B (lit "manual_click")) (core h) w)
      as [[r s'] w'].
    cbn [stateAfter handlerAfter fst snd core interactionState] in Hk |- *.
    rewrite Hk. exact Hr.
  - unfold handleTouchEnd, withInteractionState.
    destruct (interactionState h) as [i|] eqn:Hi;
      [|cbn [handlerAfter fst snd]; rewrite Hi; exact Hr].
    destruct (negb (isTouchActive i)); [cbn [handlerAfter fst snd]; rewrite Hi; exact Hr|].
    destruct (isProcessingClick (core h));
      [cbn [handlerAfter fst snd]; rewrite Hi; exact Hr|].
    cbv zeta.
    destruct (PrimFloat.ltb MAX_TOUCH_DURATION (now - touchStartTime i)); [exact Hr|].
    destruct (PrimFloat.ltb MAX_TOUCH_MOVEMENT (touchMovement Math_sqrt Math_pow event i));
      [exact Hr|].
    match goal with
    | |- context [awaitProcessClickAction P B ?a ?h' w] =>
        pose proof (awaitProcessClickAction_run a h' w) as (_ & Hst & Hk)
    end.
    rewrite Hst, Hk. exact Hr.
  - unfold handlePointerUp, withInteractionState.
    destruct (interactionState h) as [i|] eqn:Hi;
      [|cbn [handlerAfter fst snd]; rewrite Hi; exact Hr].
    destruct (negb (isPointerActive i)); [cbn [handlerAfter fst snd]; rewrite Hi; exact Hr|].
    destruct (isProcessingClick (core h));
      [cbn [handlerAfter fst snd]; rewrite Hi; exact Hr|].
    cbv zeta.
    destruct (lastInteractionType i) as [type|]; [|exact Hr].
    destruct (JsStr.eqb type (lit "pointer")); [|exact Hr].
    match goal with
    | |- context [awaitProcessClickAction P B ?a ?h' w] =>
        pose proof (awaitProcessClickAction_run a h' w) as (_ & Hst & Hk)
    end.
    rewrite Hst, Hk. exact Hr.
Qed.

Lemma gesture_outcome (e : Event) (h : Handler) (w : World) :
  isGesture e = true ->
  fst (fst (deliver P B Math_sqrt Math_pow e h w))
  = match interactionState h with
    | Some _ => inr tt
    | None => inl (mkError (nextError w) (nullReadMessage B) None)
    end.
Proof.
  destruct e as [iset| | | | |event now|event now| | |event| ]; cbn [isGesture deliver];
    try discriminate; intros _.
  - unfold handleMouseDown, withInteractionState. destruct (interactionState h); reflexivity.
  - unfold handleMouseUp, withInteractionState. destruct (interactionState h); reflexivity.
  - unfold handleTouchStart, withInteractionState. destruct (interactionState h); reflexivity.
  - unfold handleTouchEnd, withInteractionState.
    destruct (interactionState h) as [i|]; [|reflexivity].
    destruct (negb (isTouchActive i)); [reflexivity|].
    destruct (isProcessingClick (core h)); [reflexivity|].
    cbv zeta.
    destruct (PrimFloat.ltb MAX_TOUCH_DURATION (now - touchStartTime i)); [reflexivity|].
    destruct (PrimFloat.ltb MAX_TOUCH_MOVEMENT (touchMovement Math_sqrt Math_pow event i));
      [reflexivity|].
    apply awaitProcessClickAction_run.
  - unfold handleTouchCancel, withInteractionState. destruct (interactionState h); reflexivity.
  - unfold handlePointerDown, withInteractionState. destruct (interactionState h); reflexivity.
  - unfold handlePointerUp, withInteractionState.
    destruct (interactionState h) as [i|]; [|reflexivity].
    destruct (negb (isPointerActive i)); [reflexivity|].
    destruct (isProcessingClick (core h)); [reflexivity|].
    cbv zeta.
    destruct (lastInteractionType i) as [type|]; [|reflexivity].
    destruct (JsStr.eqb type (lit "pointer")); [|reflexivity].
    apply awaitProcessClickAction_run.
  - unfold handlePointerCancel, withInteractionState. destruct (interactionState h); reflexivity.
Qed.

(** X30. Through any sequence of [initialize], [destroy] and events of the
    listeners on a new handler, the interaction state is there exactly
    when the listeners are set up: on an initialized handler the mouse,
    touch and pointer listeners never throw, and on a handler that was
    never initialized or has been destroyed each of them throws the
    TypeError of reading a property of nothing.  The other callbacks are
    supposed to leave the listener flag alone while the handler waits. *)
Theorem X30_listeners_need_setup (es : list Event) :
  let '(h, w) := deliverAll P B Math_sqrt Math_pow es newHandler initialWorld in
  (interactionState h = None <-> clickListenersSetup (core h) = false)
  /\ forall e,
       isGesture e = true ->
       fst (fst (deliver P B Math_sqrt Math_pow e h w))
       = if clickListenersSetup (core h) then inr tt
         else inl (mkError (nextError w) (nullReadMessage B) None).
Proof.
  assert (H : forall h w, ready h ->
                          ready (fst (deliverAll P B Math_sqrt Math_pow es h w))).
  { induction es as [|e es IH]; intros h w Hr; [exact Hr|].
    cbn [deliverAll]. apply IH. now apply deliver_ready. }
  specialize (H newHandler initialWorld eq_refl).
  destruct (deliverAll P B Math_sqrt Math_pow es newHandler initialWorld) as [h w].
  cbn [fst] in H. unfold ready in H. split.
  - rewrite H. destruct (interactionState h); split; congruence.
  - intros e He. rewrite (gesture_outcome e h w He), H.
    destruct (interactionState h); reflexivity.
Qed.

End Lifecycle.

(** ** The enhancer of the decryption service *)

Section Enhancer.

Import DecryptionService.

Variable P : Platform.

(** An attempt that succeeds in one world succeeds in every world. *)
Lemma decryptAttempt_succeeds_everywhere (this : Config) (payload : JsString)
    (v : JsValue) (w w' w2 : World) :
  decryptAttempt P this payload w = (inr v, w') ->
  exists w2', decryptAttempt P this payload w2 = (inr v, w2').
Proof.
  intros H.
  assert (Hne : payload <> []).
  { intros ->. discriminate H. }
  destruct (decryptAttempt_replay P this payload Hne) as (o & cs & Hreplay).
  rewrite Hreplay in H. rewrite Hreplay.
  destruct o as [[msg k]|v0]; [discriminate H|].
  cbn in H |- *. injection H as -> _. eexists. reflexivity.
Qed.

(** Repairing the payload of a failed [decrypt] never helps. *)
Lemma decrypt_fixed_fails (this : Config) (payload : JsString) (e : JsError)
    (w w1 w2 : World) :
  decrypt P this payload w = (inl e, w1) ->
  exists e' w2', decrypt P this (fixPayloadFormat payload) w2 = (inl e', w2').
Proof.
  intros H.
  destruct (decrypt P this (fixPayloadFormat payload) w2) as [[e'|v] w2'] eqn:Hfix;
    [now eauto|].
  exfalso.
  assert (Hne : payload <> []).
  { intros ->. discriminate Hfix. }
  assert (Hkey : validateDecryptionKey this = true).
  { destruct (validateDecryptionKey this) eqn:Hkey; [reflexivity|].
    unfold decrypt, tryCatch in Hfix.
    destruct (fixPayloadFormat payload); [discriminate Hfix|].
    cbn [isEmpty] in Hfix. rewrite Hkey in Hfix. discriminate Hfix. }
  apply decrypt_first_attempt in Hfix.
  rewrite decryptAttempt_fixed in Hfix by assumption.
  destruct (decryptAttempt_succeeds_everywhere _ _ _ _ _ w Hfix) as (w' & Hw).
  rewrite decrypt_unfold, Hw in H by assumption. discriminate H.
Qed.

(** X27. The enhanced [decrypt] returns or throws what the original
    [decrypt] does: its recovery on the repaired payload never succeeds.
    When the original throws, the banner element is created if it is
    missing and its text is set, and a banner that was hidden stays
    hidden; when it returns, the page is left as it is. *)
Theorem X27_enhanced_decrypt_same_outcome
    (this : Config) (payload : JsString) (page : DecryptionEnhancer.Page) (w : World) :
  let original := decrypt P this payload w in
  let enhanced := DecryptionEnhancer.decrypt P this payload page w in
  fst (fst enhanced) = fst original
  /\ snd (fst enhanced)
     = match fst original with
       | inr _ => page
       | inl _ =>
           Some (DecryptionEnhancer.mkErrorElement DecryptionEnhancer.decryptionErrorText
                   match page with
                   | Some errorElement => DecryptionEnhancer.displayed errorElement
                   | None => true
                   end)
       end.
Proof.
  cbv zeta. unfold DecryptionEnhancer.decrypt.
  destruct (decrypt P this payload w) as [[e|v] w1] eqn:Hd; [|split; reflexivity].
  cbv zeta.
  assert (Hshow : forall w2,
             (let '(page', w3) := DecryptionEnhancer.showDecryptionErrorMessage page w2 in
              (@inl JsError JsValue e, page', w3))
             = (inl e,
                Some (DecryptionEnhancer.mkErrorElement
                        DecryptionEnhancer.decryptionErrorText
                        match page with
                        | Some errorElement => DecryptionEnhancer.displayed errorElement
                        | None => true
                        end),
                snd (DecryptionEnhancer.showDecryptionErrorMessage page w2))).
  { intros w2. unfold DecryptionEnhancer.showDecryptionErrorMessage.
    destruct page; reflexivity. }
  destruct (includes (lit "Failed to process encrypted payload") (message e));
    [|rewrite Hshow; split; reflexivity].
  destruct (negb (isEmpty payload)); [|rewrite Hshow; split; reflexivity].
  change (DecryptionEnhancer.fixBase64Format payload) with (fixPayloadFormat payload).
  destruct (negb (JsStr.eqb (fixPayloadFormat payload) payload));
    [|rewrite Hshow; split; reflexivity].
  destruct (decrypt_fixed_fails _ _ _ _ _ w1 Hd) as (e' & w2 & ->).
  rewrite Hshow. split; reflexivity.
Qed.

End Enhancer.

(** ** The parameter parser *)

Section Parser.

Import ParameterParser.

Local Open Scope N_scope.

Lemma decodeFrom_plain (s : JsString) (fuel : nat) :
  (length s <= fuel)%nat ->
  Forall (fun c => c <> 37) s ->
  decodeFrom fuel s = Some s.
Proof.
  revert fuel. induction s as [|c s IH]; intros fuel Hfuel Hs.
  - destruct fuel; reflexivity.
  - destruct fuel as [|fuel]; [cbn in Hfuel; lia|].
    inversion_clear Hs as [|? ? Hc Hrest].
    cbn [decodeFrom]. apply N.eqb_neq in Hc. rewrite Hc.
    rewrite IH by (cbn in Hfuel; lia || assumption). reflexivity.
Qed.

Lemma base64PatternChar_plain (c : N) : base64PatternChar c = true -> c <> 37.
Proof. intros H ->. discriminate H. Qed.

(** What [validatePayloadFormat] accepts. *)
Lemma validatePayloadFormat_accepts (p : JsString) :
  validatePayloadFormat (VString p) = true ->
  (MIN_PAYLOAD_LENGTH <= length p)%nat
  /\ forallb base64PatternChar p = true
  /\ cleanPayload p <> [].
Proof.
  unfold validatePayloadFormat.
  destruct (isEmpty p); [discriminate|].
  destruct (Nat.ltb_spec (length p) MIN_PAYLOAD_LENGTH); [discriminate|].
  destruct (base64Pattern_test p) eqn:Hpat; [|discriminate].
  destruct (cleanPayload p); [discriminate|].
  intros _. repeat split; [assumption | | discriminate].
  unfold base64Pattern_test in Hpat. now apply andb_true_iff in Hpat.
Qed.

Lemma decodeURIComponent_accepted (p : JsString) :
  validatePayloadFormat (VString p) = true -> decodeURIComponent p = Some p.
Proof.
  intros H. apply validatePayloadFormat_accepts in H. destruct H as (_ & Hpat & _).
  unfold decodeURIComponent. apply decodeFrom_plain; [lia|].
  apply Forall_forall. intros c Hc. apply base64PatternChar_plain.
  rewrite forallb_forall in Hpat. now apply Hpat.
Qed.

(** X28. [parseAndValidatePayload] never throws and makes no platform
    call.  Its result reports success exactly when it holds no error, and
    then its payload has 16 characters or more, passes
    [validatePayloadFormat] and is left unchanged by URI decoding. *)
Theorem X28_parseAndValidatePayload_result (search : URLSearchParams) (w : World) :
  exists result w',
    parseAndValidatePayload search w = (inr result, w')
    /\ calls w' = calls w
    /\ (success result = true <-> error result = None)
    /\ (success result = true ->
        exists p, payload result = Some p
                  /\ validatePayloadFormat (VString p) = true
                  /\ (MIN_PAYLOAD_LENGTH <= length p)%nat
                  /\ decodeURIComponent p = Some p).
Proof.
  unfold parseAndValidatePayload, parseUrlParams, extractEncryptedPayload, tryCatch, bind, ret.
  destruct (URLSearchParams_get search PAYLOAD_PARAM_NAME) as [raw|].
  2:{ do 2 eexists. split; [reflexivity|]. cbn. repeat split; discriminate. }
  destruct (isEmpty raw).
  { do 2 eexists. split; [reflexivity|]. cbn. repeat split; discriminate. }
  destruct (decodeURIComponent raw) as [decoded|].
  2:{ do 2 eexists. split; [reflexivity|]. cbn. repeat split; discriminate. }
  destruct (isEmpty decoded).
  { do 2 eexists. split; [reflexivity|]. cbn. repeat split; discriminate. }
  destruct (validatePayloadFormat (VString decoded)) eqn:Hvalid; cbn [negb].
  - do 2 eexists. split; [reflexivity|]. cbn [success error payload].
    repeat split; try reflexivity.
    intros _. exists decoded. repeat split; try assumption.
    + now apply validatePayloadFormat_accepts in Hvalid.
    + now apply decodeURIComponent_accepted.
  - do 2 eexists. split; [reflexivity|]. cbn. repeat split; discriminate.
Qed.

(** X29. A [payload] parameter that passes [validatePayloadFormat] goes
    through the parser unchanged: [parseAndValidatePayload] succeeds with
    that very string.  It holds no space, so that the replacement of
    spaces by [+] in the decoder does not apply to it. *)
Theorem X29_accepted_payload_passes_unchanged
    (search : URLSearchParams) (p : JsString) (w : World) :
  URLSearchParams_get search PAYLOAD_PARAM_NAME = Some p ->
  validatePayloadFormat (VString p) = true ->
  parseAndValidatePayload search w = (inr (mkParseResult true (Some p) None), w)
  /\ replaceAll SPACE PLUS p = p.
Proof.
  intros Hget Hvalid.
  pose proof (decodeURIComponent_accepted p Hvalid) as Hdecode.
  pose proof (validatePayloadFormat_accepts p Hvalid) as (Hlen & Hpat & _).
  split.
  - unfold parseAndValidatePayload, parseUrlParams, extractEncryptedPayload,
      tryCatch, bind, ret.
    rewrite Hget.
    destruct p as [|c p]; [cbn in Hlen; unfold MIN_PAYLOAD_LENGTH in Hlen; lia|].
    cbn [isEmpty]. rewrite Hdecode. cbn [isEmpty]. rewrite Hvalid. reflexivity.
  - unfold replaceAll. rewrite <- (map_id p) at 2. apply map_ext_in.
    intros c Hc. rewrite forallb_forall in Hpat. specialize (Hpat c Hc).
    destruct (N.eqb_spec c SPACE) as [->|_]; [discriminate Hpat | reflexivity].
Qed.

End Parser.

(** ** The further properties at concrete inputs *)

Section FurtherExamples.

Import DecryptionService.
Import ClickHandler.

Lemma X3_base64ToArrayBuffer_accepts_variants_witness :
  base64ToArrayBuffer Reference.platform (lit "+/8=") initialWorld
  = (inr [xfb; xff], initialWorld)
  /\ base64ToArrayBuffer Reference.platform (lit "+/8") initialWorld
     = (inr [xfb; xff], initialWorld)
  /\ base64ToArrayBuffer Reference.platform (lit "-_8=") initialWorld
     = (inr [xfb; xff], initialWorld)
  /\ base64ToArrayBuffer Reference.platform (lit "-_8") initialWorld
     = (inr [xfb; xff], initialWorld)
  /\ base64ToArrayBuffer Reference.platform (lit " /8=") initialWorld
     = (inr [xfb; xff], initialWorld).
Proof.
  apply (X3_base64ToArrayBuffer_accepts_variants Reference.platform [xfb; xff]
           initialWorld).
  discriminate.
Defined.

Lemma X4_base64ToArrayBuffer_length_witness :
  initialWorld = initialWorld /\ 4 * length [xfb; xff] <= 3 * length (lit "-_8").
Proof.
  apply (X4_base64ToArrayBuffer_length Reference.platform (lit "-_8")
           initialWorld initialWorld [xfb; xff]).
  vm_compute. reflexivity.
Defined.

Lemma X5_decrypt_short_text_witness :
  exists e w',
    decrypt Reference.platform defaults (lit "dGVzdA==") initialWorld = (inl e, w')
    /\ calls w' = calls initialWorld.
Proof.
  apply (X5_decrypt_short_text Reference.platform defaults (lit "dGVzdA==")
           initialWorld).
  vm_compute. lia.
Defined.

Lemma X6_short_key_accepted_then_refused_witness :
  exists this',
    setEncryptionKey defaults (lit "short") initialWorld = (inr this', initialWorld)
    /\ encryptionKey this' = lit "short"
    /\ decrypt Reference.platform this' scenarioPayload initialWorld
       = (inl (mkError 1 (lit "Failed to process encrypted payload")
                 (Some (lit "Invalid or missing decryption key"))),
          worldAfterErrors 2).
Proof.
  apply (X6_short_key_accepted_then_refused Reference.platform defaults
           (lit "short") scenarioPayload initialWorld).
  - discriminate.
  - vm_compute. lia.
  - discriminate.
Defined.

Lemma X7_validation_error_propagates_witness :
  exists e w',
    decrypt Reference.platform defaults emptyObjectPayload initialWorld = (inl e, w')
    /\ message e = message (clickRequired 0)
    /\ originalError e = None.
Proof.
  apply (X7_validation_error_propagates Reference.platform defaults
           emptyObjectPayload emptyObjectEnvelope initialWorld initialWorld
           (worldAfterErrors 1)
           (keyBytes (encryptionKey defaults), UsageDecrypt)
           (TextEncoder_encode (lit "{}")) (VObject []) (clickRequired 0)).
  - discriminate.
  - reflexivity.
  - vm_compute. reflexivity.
  - vm_compute. lia.
  - reflexivity.
  - vm_compute. reflexivity.
  - vm_compute. reflexivity.
  - vm_compute. reflexivity.
Defined.

Lemma X8_import_failure_sanitized_witness :
  exists e w',
    decrypt Reference.platform accentedConfig forgedPayload initialWorld = (inl e, w')
    /\ message e = lit "Failed to process encrypted payload"
    /\ originalError e
       = Some (lit "Failed to import encryption key: "
               ++ lit "AES key data must be 128 or 256 bits")
    /\ calls w' = [CallImportKey (lit "AES-GCM") (keyBytes accentedKey) UsageDecrypt].
Proof.
  apply (X8_import_failure_sanitized Reference.platform accentedConfig
           forgedPayload forgedEnvelope
           (lit "AES key data must be 128 or 256 bits") initialWorld).
  - discriminate.
  - reflexivity.
  - vm_compute. reflexivity.
  - vm_compute. lia.
  - vm_compute. reflexivity.
Defined.

Lemma X9_aead_failure_propagates_witness :
  exists e w',
    decrypt Reference.platform defaults forgedPayload initialWorld = (inl e, w')
    /\ message e = lit "The operation failed for an operation-specific reason"
    /\ originalError e = None
    /\ calls w'
       = [CallImportKey (lit "AES-GCM") (keyBytes (encryptionKey defaults)) UsageDecrypt;
          CallDecrypt (lit "AES-GCM") (repeat x00 12) (repeat x00 18)].
Proof.
  apply (X9_aead_failure_propagates Reference.platform defaults forgedPayload
           forgedEnvelope (lit "The operation failed for an operation-specific reason")
           initialWorld (keyBytes (encryptionKey defaults), UsageDecrypt)).
  - discriminate.
  - reflexivity.
  - vm_compute. reflexivity.
  - vm_compute. lia.
  - reflexivity.
  - vm_compute. reflexivity.
Defined.

Lemma X10_encrypt_rejects_invalid_witness :
  encrypt Reference.platform defaults imageOnlyInstructionSet initialWorld
  = (inl (mkError 1 (lit "Encryption failed: " ++ message (clickRequired 0)) None),
     worldAfterErrors 2).
Proof.
  apply (X10_encrypt_rejects_invalid Reference.platform defaults
           imageOnlyInstructionSet initialWorld (worldAfterErrors 1)
           (clickRequired 0)).
  vm_compute. reflexivity.
Defined.

Lemma X11_encrypt_output_url_safe_witness :
  let w' := snd (encrypt Reference.platform defaults scenarioInstructionSet initialWorld) in
  forallb urlSafeAlphabet scenarioPayload = true
  /\ entropyPos w' = (entropyPos initialWorld + 12)%nat
  /\ exists encryptedBuffer,
       base64ToArrayBuffer Reference.platform scenarioPayload w'
       = (inr (map (entropy initialWorld) (seq (entropyPos initialWorld) 12)
               ++ encryptedBuffer), w').
Proof.
  apply (X11_encrypt_output_url_safe Reference.platform defaults
           scenarioInstructionSet initialWorld
           (snd (encrypt Reference.platform defaults scenarioInstructionSet initialWorld))
           scenarioPayload).
  - vm_compute. reflexivity.
  - vm_compute. lia.
Defined.

Lemma X12_encrypt_output_accepted_by_parser_witness :
  ParameterParser.validatePayloadFormat (VString scenarioPayload)
  = existsb (fun c => negb ((c =? MINUS) || (c =? UNDERSCORE))%N) scenarioPayload.
Proof.
  apply (X12_encrypt_output_accepted_by_parser Reference.platform defaults
           scenarioInstructionSet initialWorld
           (snd (encrypt Reference.platform defaults scenarioInstructionSet initialWorld))
           scenarioPayload).
  - vm_compute. reflexivity.
  - vm_compute. lia.
Defined.

Lemma X13_decrypt_success_witness :
  let w' := snd (decrypt Reference.platform defaults scenarioPayload initialWorld) in
  validated Reference.platform scenarioResult
  /\ decryptAttempt Reference.platform defaults scenarioPayload initialWorld
     = (inr scenarioResult, w')
  /\ nextError w' = nextError initialWorld
  /\ exists iv ciphertext,
       calls w'
       = calls initialWorld
         ++ [CallImportKey (lit "AES-GCM") (keyBytes (encryptionKey defaults))
               UsageDecrypt;
             CallDecrypt (lit "AES-GCM") iv ciphertext].
Proof.
  apply (X13_decrypt_success Reference.platform defaults scenarioPayload
           scenarioResult initialWorld
           (snd (decrypt Reference.platform defaults scenarioPayload initialWorld))).
  vm_compute. reflexivity.
Defined.

Lemma X14_validation_stabilises_witness :
  let v := resultOf (validateInstructionSet Reference.platform scenarioInstructionSet
                       initialWorld) VUndefined in
  let v2 := Js.set v (lit "auto_click_delay") (revalidatedDelay v) in
  validateInstructionSet Reference.platform v initialWorld = (inr v2, initialWorld)
  /\ validateInstructionSet Reference.platform v2 initialWorld = (inr v2, initialWorld)
  /\ (get v (lit "auto_click_delay") = VNull ->
      get v2 (lit "auto_click_delay") = VNumber 0%float).
Proof.
  apply (X14_validation_stabilises Reference.platform scenarioInstructionSet
           (resultOf (validateInstructionSet Reference.platform scenarioInstructionSet
                        initialWorld) VUndefined)
           initialWorld initialWorld).
  vm_compute. reflexivity.
Defined.

Lemma X17_click_without_target_ignored_witness :
  let r := processClickAction Reference.platform (page (Resolved false))
             (lit "manual_click") create initialWorld in
  outcome r = inr tt
  /\ worldAfter r = initialWorld
  /\ instructionSet (stateAfter r) = instructionSet create
  /\ autoClickTimer (stateAfter r) = autoClickTimer create.
Proof.
  apply (X17_click_without_target_ignored Reference.platform (page (Resolved false))
           (lit "manual_click") create initialWorld).
  left. reflexivity.
Defined.

Lemma X18_invalid_click_url_reported_witness :
  (let r := processClickAction Reference.platform (page (Resolved false))
              (lit "manual_click") (armed brokenTargetInstructionSet) initialWorld in
   outcome r = inr tt
   /\ calls (worldAfter r)
      = [CallReportError (lit "Invalid click URL: not-a-url")
           (lit "click_handler_manual_click");
         CallShowError (lit "Navigation failed. Please try again.")])
  /\ (let r := processClickAction Reference.platform (barePage (Resolved false))
                 (lit "manual_click") (armed brokenTargetInstructionSet)
                 initialWorld in
      outcome r = inr tt /\ calls (worldAfter r) = []).
Proof.
  split.
  - apply (X18_invalid_click_url_reported Reference.platform (page (Resolved false))
             (lit "manual_click") (lit "not-a-url")
             (armed brokenTargetInstructionSet) initialWorld).
    + reflexivity.
    + discriminate.
    + vm_compute. reflexivity.
    + reflexivity.
  - apply (X18_invalid_click_url_reported Reference.platform
             (barePage (Resolved false)) (lit "manual_click") (lit "not-a-url")
             (armed brokenTargetInstructionSet) initialWorld).
    + reflexivity.
    + discriminate.
    + vm_compute. reflexivity.
    + reflexivity.
Defined.

Lemma X19_navigation_at_most_once_witness :
  let click_url := get priorityInstructionSet (lit "click_url") in
  let visited :=
    navigations
      (calls (worldAfter (processClickAction Reference.platform (page (Resolved false))
                            (lit "manual_click") (armed priorityInstructionSet)
                            initialWorld))) in
  visited = navigations (calls initialWorld)
  \/ (visited = navigations (calls initialWorld) ++ [click_url]
      /\ navigable Reference.platform click_url = true).
Proof.
  apply (X19_navigation_at_most_once Reference.platform (page (Resolved false))
           (fun s' => eq_refl) (lit "manual_click") (armed priorityInstructionSet)
           initialWorld).
Defined.


Lemma X21_initialize_accepts_decrypted_witness :
  let handle := S (length (calls initialWorld ++ clearing create)) in
  let delay := Js.or (get scenarioResult (lit "auto_click_delay"))
                 (VNumber DEFAULT_AUTO_CLICK_DELAY) in
  initialize (page (Resolved false)) scenarioResult create initialWorld
  = if ToBoolean (get scenarioResult (lit "auto_click"))
    then (inr tt, mkState scenarioResult true (Some handle) (isProcessingClick create),
          mkWorld (nextError initialWorld)
            (calls initialWorld ++ clearing create ++ [CallSetTimeout handle delay])
            (entropy initialWorld) (entropyPos initialWorld))
    else (inr tt,
          mkState scenarioResult true (autoClickTimer create) (isProcessingClick create),
          initialWorld).
Proof.
  apply (X21_initialize_accepts_decrypted Reference.platform (page (Resolved false))
           defaults scenarioPayload scenarioResult initialWorld
           (snd (decrypt Reference.platform defaults scenarioPayload initialWorld))
           create initialWorld).
  vm_compute. reflexivity.
Defined.


Lemma X24_touch_end_consumes_touch_witness :
  let r := ClickGestures.handleTouchEnd Reference.platform (page (Resolved false))
             PrimFloat.sqrt square lift 0%float
             (listening priorityInstructionSet) initialWorld in
  ClickGestures.handleTouchEnd Reference.platform (page (Resolved false))
    PrimFloat.sqrt square lift 1%float (handlerAfter r) (snd r)
  = (inr tt, handlerAfter r, snd r).
Proof.
  apply (X24_touch_end_consumes_touch Reference.platform (page (Resolved false))
           PrimFloat.sqrt square lift lift 0%float 1%float
           (listening priorityInstructionSet) initialWorld
           ClickGestures.initialInteractionState).
  - reflexivity.
  - reflexivity.
Defined.

Lemma X25_improper_touch_ignored_witness :
  let r := ClickGestures.handleTouchEnd Reference.platform (page (Resolved false))
             PrimFloat.sqrt square lift 0%float
             (listening priorityInstructionSet) initialWorld in
  fst (fst r) = inr tt
  /\ snd r = initialWorld
  /\ ClickGestures.core (handlerAfter r)
     = ClickGestures.core (listening priorityInstructionSet).
Proof.
  apply (X25_improper_touch_ignored Reference.platform (page (Resolved false))
           PrimFloat.sqrt square lift 0%float
           (listening priorityInstructionSet) initialWorld
           ClickGestures.initialInteractionState).
  - reflexivity.
  - left. reflexivity.
Defined.

Lemma X26_pointer_up_defers_to_mouse_and_touch_witness :
  let B := page (Resolved false) in
  let h := listening priorityInstructionSet in
  let i := ClickGestures.initialInteractionState in
  let event := ClickGestures.mkPointerEvent (lit "pen") in
  let down := handlerAfter (ClickGestures.handlePointerDown B h initialWorld) in
  let afterMouse := handlerAfter (ClickGestures.handleMouseDown B down initialWorld) in
  let afterTouch :=
    handlerAfter (ClickGestures.handleTouchStart B lift 0%float down initialWorld) in
  snd (ClickGestures.handlePointerUp Reference.platform B event afterMouse initialWorld)
  = initialWorld
  /\ snd (ClickGestures.handlePointerUp Reference.platform B event afterTouch
            initialWorld)
     = initialWorld
  /\ (isProcessingClick (ClickGestures.core h) = false ->
      ClickGestures.handlePointerUp Reference.platform B event down initialWorld
      = ClickGestures.awaitProcessClickAction Reference.platform B
          (lit "manual_" ++ ClickGestures.pointerType event)
          (ClickGestures.mkHandler (ClickGestures.core h)
             (Some (ClickGestures.mkInteractionState
                      (ClickGestures.isMouseDown i) (ClickGestures.isTouchActive i)
                      false (Some (lit "pointer")) (ClickGestures.touchStartTime i)
                      (ClickGestures.touchStartPosition i))))
          initialWorld).
Proof.
  apply (X26_pointer_up_defers_to_mouse_and_touch Reference.platform
           (page (Resolved false)) (ClickGestures.mkPointerEvent (lit "pen")) lift
           0%float (listening priorityInstructionSet) initialWorld
           ClickGestures.initialInteractionState).
  reflexivity.
Defined.

Lemma X29_accepted_payload_passes_unchanged_witness :
  ParameterParser.parseAndValidatePayload
    [(ParameterParser.PAYLOAD_PARAM_NAME, scenarioPayload)] initialWorld
  = (inr (ParameterParser.mkParseResult true (Some scenarioPayload) None), initialWorld)
  /\ replaceAll SPACE PLUS scenarioPayload = scenarioPayload.
Proof.
  apply (X29_accepted_payload_passes_unchanged
           [(ParameterParser.PAYLOAD_PARAM_NAME, scenarioPayload)] scenarioPayload
           initialWorld).
  - vm_compute. reflexivity.
  - vm_compute. reflexivity.
Defined.

Lemma X30_listeners_need_setup_witness :
  let '(h, w) :=
    deliverAll Reference.platform (page (Resolved false)) PrimFloat.sqrt square
      [OnInitialize priorityInstructionSet; OnTouchStart lift 0%float;
       OnTouchEnd lift 1%float; OnDestroy]
      newHandler initialWorld in
  (ClickGestures.interactionState h = None
   <-> clickListenersSetup (ClickGestures.core h) = false)
  /\ forall e,
       isGesture e = true ->
       fst (fst (deliver Reference.platform (page (Resolved false)) PrimFloat.sqrt
                   square e h w))
       = if clickListenersSetup (ClickGestures.core h) then inr tt
         else inl (mkError (nextError w) (nullReadMessage (page (Resolved false)))
                     None).
Proof.
  apply (X30_listeners_need_setup Reference.platform (page (Resolved false))
           PrimFloat.sqrt square (fun s' => eq_refl)
           [OnInitialize priorityInstructionSet; OnTouchStart lift 0%float;
            OnTouchEnd lift 1%float; OnDestroy]).
Defined.

End FurtherExamples.
